(** * what-the-faq: crawler, retry executor and FAQ pipeline

    A shallow embedding of the TypeScript sources

    - [trigger/generate-faq.ts]   ([withRetry], [estimateTokens], the zod
      schemas and [generateFAQTask]),
    - [scripts/test-scraper.ts]   ([scrapeWebsite]),
    - [trigger/scrape-website.ts] ([scrapeWebsiteTask], in the two
      versions the file holds: the later one has the crawl loop inlined,
      the earlier one calls [scrapeWebsite]),
    - [scripts/test-local-scraper.ts] ([scrapeWebsiteLocally]) and the
      site name of the pipeline scripts,

    followed by the properties of the specification that concern them.

    Conventions.  A JavaScript string is a [string]; its characters stand
    for UTF-16 code units, so [String.length] is [.length].  A JavaScript
    [number] is a binary64 [float], with its rounding, its infinities and
    its NaN: so are [maxPages], [maxAttempts], [delayMs], the delays of
    the retry executor and the averages of the task results.  Only what
    the program itself counts up from 0 or 1 (an array length, a depth,
    the attempt index of [withRetry]) is a [nat]; such a count is exact
    as a double as long as it is below 2^53, which is as far as the
    models are meant, and where it meets a [number] ([results.length <
    maxPages], [attempt <= maxAttempts]) the comparison is that of the
    exact values, as IEEE 754 has it.
    Calls that leave the program (the browser, the language model,
    [JSON.parse], the WHATWG [URL] class, [Math.random], [Date.now]) are
    parameters of the models, Section variables or the fields of a class;
    they thread a world [W] where the order of the calls matters.
    [console.log] and [logger.*] are not modelled. *)

From Stdlib Require Import List String Ascii Bool Arith ZArith QArith Lia.
From Stdlib Require Import Floats Uint63 Sorted.
Import ListNotations.

Local Open Scope string_scope.
Local Open Scope list_scope.
Local Open Scope nat_scope.

Set Warnings "-notation-for-abbreviation,-register-all,-inexact-float".

(* ================================================================== *)
(** * Doubles *)
(* ================================================================== *)

Module Num.

(** A count as a [number] (exact below 2^53). *)
Definition of_nat (n : nat) : float :=
  PrimFloat.of_uint63 (Uint63.of_Z (Z.of_nat n)).

Definition two52 : float := 4503599627370496%float.

Definition is_finite (x : float) : bool :=
  negb (PrimFloat.is_nan x) && negb (PrimFloat.is_infinity x).

(** The integer nearest to [x], ties to even, for a finite [x] of
    magnitude below 2^52 (adding and removing 2^52 rounds away the
    fraction); larger doubles are integers already. *)
Definition nearest_even (x : float) : float :=
  if PrimFloat.ltb (PrimFloat.abs x) two52 then
    if PrimFloat.ltb x 0%float
    then ((x - two52) + two52)%float
    else ((x + two52) - two52)%float
  else x.

(** [Math.round(x)]: the nearest integer, ties towards +Infinity; NaN and
    the infinities are returned as they are.  (The sign of a zero result
    is not tracked.) *)
Definition Math_round (x : float) : float :=
  if is_finite x then
    let r := nearest_even x in
    if PrimFloat.eqb (x - r)%float 0.5%float then (r + 1)%float else r
  else x.

(** [Math.ceil(x)]. *)
Definition Math_ceil (x : float) : float :=
  if is_finite x then
    let r := nearest_even x in
    if PrimFloat.ltb r x then (r + 1)%float else r
  else x.

(** [Math.pow(2, k)] for a count [k]: the power of two, exact up to
    2^1023, and [Infinity] from 2^1024 on. *)
Definition Math_pow2 (k : nat) : float := Z.ldexp 1%float (Z.of_nat k).

(** ** A count against a [number]

    The value of the finite double of mantissa [m] and exponent [e] is
    [m * 2^e]: here as a numerator and a positive denominator. *)
Definition fraction (m : positive) (e : Z) : Z * Z :=
  (Z.pos m * 2 ^ Z.max e 0, 2 ^ Z.max (- e) 0)%Z.

(** [n < y], [n <= y] and [n === y] for a count [n] and a [number] [y]
    ([results.length < maxPages], [attempt <= maxAttempts],
    [attempt === maxAttempts]).  The count is exact as a double and IEEE
    754 compares the exact values, so these are the comparisons of the
    doubles ([count_comparisons] below, for counts under 2^53); every
    comparison with NaN is false, and [undefined], where a caller leaves
    the number out, compares as NaN does. *)
Definition lt_nat (n : nat) (y : float) : bool :=
  match Prim2SF y with
  | S754_nan => false
  | S754_zero _ => false
  | S754_infinity s => negb s
  | S754_finite s m e =>
      negb s && (Z.of_nat n * snd (fraction m e) <? fst (fraction m e))%Z
  end.

Definition le_nat (n : nat) (y : float) : bool :=
  match Prim2SF y with
  | S754_nan => false
  | S754_zero _ => n =? 0
  | S754_infinity s => negb s
  | S754_finite s m e =>
      negb s && (Z.of_nat n * snd (fraction m e) <=? fst (fraction m e))%Z
  end.

Definition eq_nat (n : nat) (y : float) : bool :=
  match Prim2SF y with
  | S754_nan => false
  | S754_zero _ => n =? 0
  | S754_infinity _ => false
  | S754_finite s m e =>
      negb s && (Z.of_nat n * snd (fraction m e) =? fst (fraction m e))%Z
  end.

(** How many counts are below [y] (the least integer that is at least
    [y], and 0 for a negative [y] and for NaN); [None] when every count
    is, that is for [Infinity]. *)
Definition counts_below (y : float) : option nat :=
  match Prim2SF y with
  | S754_nan => Some 0
  | S754_zero _ => Some 0
  | S754_infinity s => if s then Some 0 else None
  | S754_finite s m e =>
      if s then Some 0
      else let (num, den) := fraction m e in
           Some (Z.to_nat ((num + den - 1) / den))
  end.

(** How many counts are at most [y]. *)
Definition counts_upto (y : float) : option nat :=
  match Prim2SF y with
  | S754_nan => Some 0
  | S754_zero _ => Some 1
  | S754_infinity s => if s then Some 0 else None
  | S754_finite s m e =>
      if s then Some 0
      else let (num, den) := fraction m e in
           Some (Z.to_nat (num / den + 1))
  end.

End Num.

(* ================================================================== *)
(** * Retry executor ([withRetry], generate-faq.ts) *)
(* ================================================================== *)

Module Retry.

(** [enum ErrorCategory]. *)
Inductive ErrorCategory : Type :=
| TRANSIENT
| PERMANENT
| VALIDATION.

(** What an operation can throw: one of the two classes that carry a
    [category] field, or any other value. *)
Inductive Thrown : Type :=
| FAQGenerationError (message : string) (category : ErrorCategory)
| DatabaseError (message : string) (category : ErrorCategory)
| OtherError (message : string).

(** [error instanceof FAQGenerationError || error instanceof DatabaseError]
    together with the field read [error.category]. *)
Definition category_of (e : Thrown) : option ErrorCategory :=
  match e with
  | FAQGenerationError _ c => Some c
  | DatabaseError _ c => Some c
  | OtherError _ => None
  end.

(** The guard of the inner [throw error]:
    [error.category === ErrorCategory.PERMANENT]. *)
Definition rethrown_at_once (e : Thrown) : bool :=
  match category_of e with
  | Some PERMANENT => true
  | _ => false
  end.

(** What one call of [withRetry] did: how it ended ([inl] is the thrown
    value, [None] being [undefined]), how many times the operation was
    called, and the arguments of the successive [setTimeout] sleeps. *)
Record Run (T : Type) : Type := mkRun {
  outcome : option Thrown + T;
  calls : nat;
  sleeps : list float
}.
Arguments mkRun {T}.
Arguments outcome {T}.
Arguments calls {T}.
Arguments sleeps {T}.

Section WithRetry.

Context {T : Type}.

(** [operation k] is what the [k]-th call [await operation()] does
    ([k] counted from 1): throw or return. *)
Variable operation : nat -> Thrown + T.

(** [Math_random k] is the value of the [k]-th call of [Math.random()];
    the loop below draws once per sleep, so that during attempt [k] it
    is the [k]-th draw. *)
Variable Math_random : nat -> float.

Variable maxAttempts : float.
Variable delayMs : float.

(** [Math.random() * 1000]. *)
Definition jitter (attempt : nat) : float :=
  (Math_random attempt * 1000)%float.

(** [delayMs * Math.pow(2, attempt - 1)]. *)
Definition backoff (attempt : nat) : float :=
  (delayMs * Num.Math_pow2 (attempt - 1))%float.

(** [const delay = delayMs * Math.pow(2, attempt - 1) + jitter]. *)
Definition delay (attempt : nat) : float :=
  (backoff attempt + jitter attempt)%float.

(** The [for (let attempt = 1; attempt <= maxAttempts; attempt++)] loop,
    from the test of its condition on; [None] when [fuel] iterations
    were not enough.  (The parameter [errorCategory] of [withRetry] is
    only logged.) *)
Fixpoint attempts (fuel attempt : nat) (lastError : option Thrown)
         (slept : list float) : option (Run T) :=
  if Num.le_nat attempt maxAttempts then
    match fuel with
    | O => None
    | S fuel' =>
        match operation attempt with
        | inr v => Some (mkRun (inr v) attempt slept)
        | inl error =>
            if rethrown_at_once error then
              Some (mkRun (inl (Some error)) attempt slept)
            else if Num.eq_nat attempt maxAttempts then
              (* break; throw lastError *)
              Some (mkRun (inl (Some error)) attempt slept)
            else
              attempts fuel' (S attempt) (Some error)
                       (slept ++ [delay attempt])
        end
    end
  else
    (* throw lastError *)
    Some (mkRun (inl lastError) (attempt - 1) slept).

Definition withRetry (fuel : nat) : option (Run T) :=
  attempts fuel 1 None [].

(** A failure the loop does not rethrow at once. *)
Definition retried (r : Thrown + T) : Prop :=
  exists e, r = inl e /\ category_of e <> Some PERMANENT.

End WithRetry.

End Retry.

(* ================================================================== *)
(** * The string and array methods the sources call *)
(* ================================================================== *)

Module JS.

(** [s.startsWith(p)]. *)
Fixpoint startsWith (s p : string) : bool :=
  match p, s with
  | EmptyString, _ => true
  | String _ _, EmptyString => false
  | String b p', String a s' => Ascii.eqb a b && startsWith s' p'
  end.

(** [s.includes(p)]. *)
Fixpoint includes (s p : string) : bool :=
  startsWith s p ||
  match s with
  | EmptyString => false
  | String _ s' => includes s' p
  end.

(** [s.endsWith(p)], the anchor [$] of a regular expression. *)
Fixpoint endsWith (s p : string) : bool :=
  String.eqb s p ||
  match s with
  | EmptyString => false
  | String _ s' => endsWith s' p
  end.

(** Case folding of the [i] flag: only the letters A-Z fold. *)
Definition lower_ascii (c : ascii) : ascii :=
  let n := nat_of_ascii c in
  if (65 <=? n) && (n <=? 90) then ascii_of_nat (n + 32) else c.

Fixpoint toLowerCase (s : string) : string :=
  match s with
  | EmptyString => EmptyString
  | String c s' => String (lower_ascii c) (toLowerCase s')
  end.

(** [/\.(pdf|jpg|jpeg|png|gif|mp4|zip|rar)$/i]. *)
Definition file_extensions : list string :=
  [".pdf"; ".jpg"; ".jpeg"; ".png"; ".gif"; ".mp4"; ".zip"; ".rar"].

(** [s.match(/\.(pdf|jpg|jpeg|png|gif|mp4|zip|rar)$/i)], as a truth
    value. *)
Definition matches_file_extension (s : string) : bool :=
  existsb (endsWith (toLowerCase s)) file_extensions.

(** White space of [String.prototype.trim] among the code units below
    256: TAB, LF, VT, FF, CR, SPACE and NBSP. *)
Definition is_space (c : ascii) : bool :=
  let n := nat_of_ascii c in
  ((9 <=? n) && (n <=? 13)) || (n =? 32) || (n =? 160).

Fixpoint trimStart (s : string) : string :=
  match s with
  | EmptyString => EmptyString
  | String c s' => if is_space c then trimStart s' else s
  end.

(** [trimEnd]: a character is kept when it is not a space or when
    something is kept after it. *)
Fixpoint trimEnd (s : string) : string :=
  match s with
  | EmptyString => EmptyString
  | String c s' =>
      match trimEnd s' with
      | EmptyString => if is_space c then EmptyString else String c EmptyString
      | t => String c t
      end
  end.

(** [s.trim()]. *)
Definition trim (s : string) : string := trimEnd (trimStart s).

(** [Boolean(s)] for a string: the empty string is falsy. *)
Definition truthy (s : string) : bool := negb (String.eqb s "").

(** [xs.filter(Boolean)] on strings. *)
Definition filter_Boolean (xs : list string) : list string :=
  filter truthy xs.

(** A [Set<string>], in insertion order. *)
Definition StringSet : Type := list string.

(** [set.has(x)]. *)
Definition Set_has (set : StringSet) (x : string) : bool :=
  existsb (String.eqb x) set.

(** [set.add(x)]. *)
Definition Set_add (set : StringSet) (x : string) : StringSet :=
  if Set_has set x then set else set ++ [x].

(** [Array.from(new Set(xs))]: first occurrences, in order. *)
Definition Array_from_Set (xs : list string) : list string :=
  fold_left Set_add xs [].

End JS.

(* ================================================================== *)
(** * What both crawlers share *)
(* ================================================================== *)

(** [interface ScrapedPage]. *)
Record ScrapedPage : Type := mkScrapedPage {
  url : string;
  title : string;
  content : string;
  headings : list string;
  links : list string
}.

(** The two members of the WHATWG [URL] class the crawler reads.
    [URL_href link base] is [new URL(link, base).href] and
    [URL_hostname u] is [new URL(u).hostname]; [None] when the constructor
    throws its [TypeError]. *)
Class UrlApi : Type := {
  URL_href : string -> string -> option string;
  URL_hostname : string -> option string
}.

(** An effectful call on a world [W]: the new world, and either the
    thrown value or the result. *)
Definition Eff (W E A : Type) : Type := W -> W * (E + A).

Definition ret {W E A : Type} (a : A) : Eff W E A := fun w => (w, inr a).

Definition bind {W E A B : Type} (m : Eff W E A) (k : A -> Eff W E B)
  : Eff W E B :=
  fun w =>
    match m w with
    | (w', inl e) => (w', inl e)
    | (w', inr a) => k a w'
    end.

(** A call that cannot throw, such as a [try] block whose [catch] only
    logs. *)
Definition caught {W E A : Type} (m : W -> W * A) : Eff W E A :=
  fun w => let '(w', a) := m w in (w', inr a).

Declare Scope eff_scope.
Delimit Scope eff_scope with eff.
Notation "x <- m ;; k" := (bind m (fun x => k))
  (at level 61, m at next level, right associativity) : eff_scope.
Notation "m ;;; k" := (bind m (fun _ => k))
  (at level 61, right associativity) : eff_scope.

(* ================================================================== *)
(** * The crawler of scripts/test-scraper.ts ([scrapeWebsite]) *)
(* ================================================================== *)

Module Scraper.

(** An element of [queue: { url: string; depth: number }[]]. *)
Record QueueEntry : Type := mkEntry {
  entry_url : string;
  depth : nat
}.

(** What the three [page.evaluate] calls and [page.title()] read from the
    rendered document, after the [script], [style], [noscript] and
    [iframe] elements were removed: the [textContent] of the first element
    matching the main-content selector ([None] when [querySelector] gives
    [null]), that of [document.body], the [textContent] of every [h1],
    [h2], [h3] and the [href] attribute of every [a[href]], in document
    order. *)
Record Document : Type := mkDocument {
  doc_title : string;
  mainContent : option string;
  body_textContent : string;
  heading_textContent : list string;
  href_attributes : list string
}.

(** The values that reach the catch-all of [scrapeWebsite]. *)
Inductive Fatal : Type :=
| MissingApiKey
| ConnectFailed
| NewPageFailed
| PageCloseFailed
| BrowserCloseFailed.

(** The browser, as the crawler drives it.  [goto_and_read u] stands for
    the calls from [page.setUserAgent] to the last [page.evaluate]: it
    throws (whatever, [tt]) or hands over the document. *)
Class Puppeteer (W : Type) : Type := {
  env_BROWSERBASE_API_KEY : W -> bool;
  puppeteer_connect : Eff W Fatal unit;
  browser_newPage : Eff W Fatal unit;
  goto_and_read : string -> Eff W unit Document;
  page_close : Eff W Fatal unit;
  browser_close : Eff W Fatal unit
}.

(** [type ProgressCallback = (pagesScraped: number) => Promise<void>]. *)
Definition ProgressCallback (W : Type) : Type := nat -> Eff W unit unit.

(** The local variables of [scrapeWebsite], and [dequeued], which is not
    in the source: the entries [queue.shift()] returned so far, oldest
    first. *)
Record Loop : Type := mkLoop {
  visited : JS.StringSet;
  queue : list QueueEntry;
  results : list ScrapedPage;
  dequeued : list QueueEntry
}.

Section ScrapeWebsite.

Context {url_api : UrlApi} {W : Type} {browser : Puppeteer W}.

(** The parameter [maxPages: number = 5], after its default. *)
Variable maxPages : float.
Variable onProgress : option (ProgressCallback W).

(** The first [page.evaluate]: the trimmed main content, else the
    trimmed body. *)
Definition read_content (d : Document) : string :=
  match mainContent d with
  | Some text => JS.trim text
  | None => JS.trim (body_textContent d)
  end.

(** The second [page.evaluate]. *)
Definition read_headings (d : Document) : list string :=
  JS.filter_Boolean (map JS.trim (heading_textContent d)).

(** The third [page.evaluate]. *)
Definition read_links (d : Document) : list string :=
  JS.filter_Boolean (href_attributes d).

(** The body of [for (const link of links)], with its [try]/[catch]. *)
Definition process_link (currentUrl : string) (depth : nat)
           (visited : JS.StringSet) (queue : list QueueEntry)
           (link : string) : list QueueEntry :=
  match URL_href link currentUrl with
  | None => queue
  | Some absoluteUrl =>
      match URL_hostname absoluteUrl with
      | None => queue
      | Some linkDomain =>
          match URL_hostname currentUrl with
          | None => queue
          | Some currentDomain =>
              if String.eqb linkDomain currentDomain
                 && negb (JS.Set_has visited absoluteUrl)
                 && negb (JS.includes absoluteUrl "#")
                 && negb (JS.matches_file_extension absoluteUrl)
              then queue ++ [mkEntry absoluteUrl (depth + 1)]
              else queue
          end
      end
  end.

(** The inner [try] block of one iteration, from [page.setUserAgent] to
    the end of the loop over the links.  It throws where the source
    can (while the page is read, or in [onProgress]) and the [catch]
    only logs; what was assigned before the throw stays assigned, so
    the state comes back either way. *)
Definition try_block (currentUrl : string) (depth : nat) (st : Loop)
  : W -> W * Loop :=
  fun w =>
    match goto_and_read currentUrl w with
    | (w1, inl _) => (w1, st)
    | (w1, inr d) =>
        let content := read_content d in
        let title := doc_title d in
        let headings := read_headings d in
        let links := read_links d in
        let results' :=
          results st
          ++ [mkScrapedPage currentUrl title content headings
                            (JS.filter_Boolean links)] in
        let st1 := mkLoop (visited st) (queue st) results' (dequeued st) in
        let progress :=
          match onProgress with
          | Some callback => callback (List.length results') w1
          | None => (w1, inr tt)
          end in
        match progress with
        | (w2, inl _) => (w2, st1)
        | (w2, inr _) =>
            (w2,
             mkLoop (visited st1)
                    (fold_left (process_link currentUrl depth (visited st1))
                               links (queue st1))
                    (results st1) (dequeued st1))
        end
    end.

(** One iteration of the [while] loop ([queue.shift()] of an empty
    queue is excluded by the loop condition). *)
Definition iteration (st : Loop) : Eff W Fatal Loop :=
  match queue st with
  | [] => ret st
  | entry :: rest =>
      let currentUrl := entry_url entry in
      let st0 := mkLoop (visited st) rest (results st)
                        (dequeued st ++ [entry]) in
      if JS.Set_has (visited st0) currentUrl then ret st0
      else
        let st1 := mkLoop (JS.Set_add (visited st0) currentUrl) (queue st0)
                          (results st0) (dequeued st0) in
        (_ <- browser_newPage ;;
         st2 <- caught (try_block currentUrl (depth entry) st1) ;;
         _ <- page_close ;;
         ret st2)%eff
  end.

(** [queue.length > 0 && results.length < maxPages]. *)
Definition loop_condition (st : Loop) : bool :=
  (0 <? List.length (queue st))
  && Num.lt_nat (List.length (results st)) maxPages.

(** The [while] loop; [None] when [fuel] iterations were not enough. *)
Fixpoint while_loop (fuel : nat) (st : Loop)
  : W -> option (W * (Fatal + Loop)) :=
  fun w =>
    if loop_condition st then
      match fuel with
      | O => None
      | S fuel' =>
          match iteration st w with
          | (w', inl e) => Some (w', inl e)
          | (w', inr st') => while_loop fuel' st' w'
          end
      end
    else Some (w, inr st).

(** The local variables when the loop is entered. *)
Definition start (startUrl : string) : Loop :=
  mkLoop [] [mkEntry startUrl 0] [] [].

(** [scrapeWebsite(startUrl, maxPages, onProgress)]: how it ends, and in
    which state the loop was left (for the statements about the visited
    set and the queue; the source returns [results] only). *)
Definition scrapeWebsite_run (fuel : nat) (startUrl : string)
  : W -> option (W * (Fatal + Loop)) :=
  fun w =>
    if negb (env_BROWSERBASE_API_KEY w) then Some (w, inl MissingApiKey)
    else
      match puppeteer_connect w with
      | (w1, inl e) => Some (w1, inl e)
      | (w1, inr _) =>
          match while_loop fuel (start startUrl) w1 with
          | None => None
          | Some (w2, r) =>
              (* finally { await browser.close() } *)
              match browser_close w2 with
              | (w3, inl e) => Some (w3, inl e)
              | (w3, inr _) => Some (w3, r)
              end
          end
      end.

Definition scrapeWebsite (fuel : nat) (startUrl : string)
  : W -> option (W * (Fatal + list ScrapedPage)) :=
  fun w =>
    match scrapeWebsite_run fuel startUrl w with
    | None => None
    | Some (w', inl e) => Some (w', inl e)
    | Some (w', inr st) => Some (w', inr (results st))
    end.

(** ** Predicates on the local variables, for the statements below *)

(** What an iteration that lets no fatal error out does to the local
    variables, whatever the browser answers: the dequeued URL was seen
    before; or it is new and the page gives nothing; or it is new and
    gives a page, after which some of its links (all of them, unless
    [onProgress] throws) go through [process_link]. *)
Inductive step (st : Loop) : Loop -> Prop :=
| step_seen entry rest :
    queue st = entry :: rest ->
    JS.Set_has (visited st) (entry_url entry) = true ->
    step st (mkLoop (visited st) rest (results st)
                    (dequeued st ++ [entry]))
| step_failed entry rest :
    queue st = entry :: rest ->
    JS.Set_has (visited st) (entry_url entry) = false ->
    step st (mkLoop (JS.Set_add (visited st) (entry_url entry)) rest
                    (results st) (dequeued st ++ [entry]))
| step_scraped entry rest page processed :
    queue st = entry :: rest ->
    JS.Set_has (visited st) (entry_url entry) = false ->
    url page = entry_url entry ->
    step st (mkLoop (JS.Set_add (visited st) (entry_url entry))
                    (fold_left
                       (process_link (entry_url entry) (depth entry)
                          (JS.Set_add (visited st) (entry_url entry)))
                       processed rest)
                    (results st ++ [page]) (dequeued st ++ [entry])).

(** The states the loop is in, at its condition, in the crawl that
    starts in [st0] and world [w0]. *)
Inductive reaches (st0 : Loop) (w0 : W) : Loop -> W -> Prop :=
| reaches_start : reaches st0 w0 st0 w0
| reaches_next st w st' w' :
    reaches st0 w0 st w ->
    loop_condition st = true ->
    iteration st w = (w', inr st') ->
    reaches st0 w0 st' w'.

(** An entry the loop over the links may push while [currentUrl], found
    at [depth], is processed with [seen] visited. *)
Definition pushed_for (currentUrl : string) (depth_ : nat)
           (seen : JS.StringSet) (entry : QueueEntry) : Prop :=
  depth entry = depth_ + 1
  /\ (exists link, URL_href link currentUrl = Some (entry_url entry))
  /\ (exists domain, URL_hostname (entry_url entry) = Some domain
                     /\ URL_hostname currentUrl = Some domain)
  /\ JS.Set_has seen (entry_url entry) = false
  /\ JS.includes (entry_url entry) "#" = false
  /\ JS.matches_file_extension (entry_url entry) = false.

(** Every result was pushed while there were fewer than [maxPages]:
    without its last element, [results] is shorter than [maxPages]. *)
Definition within_budget (st : Loop) : Prop :=
  forall n, List.length (results st) = S n -> Num.lt_nat n maxPages = true.

(** No URL twice in the visited set or among the results, and every
    result visited. *)
Definition each_once (st : Loop) : Prop :=
  NoDup (visited st)
  /\ NoDup (map url (results st))
  /\ (forall page, In page (results st) -> In (url page) (visited st)).

(** Every URL that was ever queued, and every result, has the host of
    the start URL. *)
Definition same_host (startUrl : string) (st : Loop) : Prop :=
  (forall entry, In entry (dequeued st ++ queue st) ->
                 URL_hostname (entry_url entry) = URL_hostname startUrl)
  /\ (forall page, In page (results st) ->
                   URL_hostname (url page) = URL_hostname startUrl).


(** Whatever was queued is the start URL or was let through by
    [process_link]: found one level below some page, free of [#] and of
    the file extensions. *)
Definition discovered_clean (startUrl : string) (st : Loop) : Prop :=
  forall entry, In entry (dequeued st ++ queue st) ->
    entry = mkEntry startUrl 0
    \/ (1 <= depth entry
        /\ JS.includes (entry_url entry) "#" = false
        /\ JS.matches_file_extension (entry_url entry) = false).

End ScrapeWebsite.

End Scraper.

(* ================================================================== *)
(** * The task of trigger/scrape-website.ts ([scrapeWebsiteTask]) *)
(* ================================================================== *)

Module Task.

(** [type TaskPayload].  The schema of the file, with its bounds and its
    default for [maxPages], is never applied to the payload: the field
    holds any number, or is absent ([None]). *)
Record TaskPayload : Type := mkPayload {
  payload_url : string;
  payload_maxPages : option float;
  siteOwner : bool
}.

(** [maxPages], destructured from the payload, as [results.length <
    maxPages] reads it: [undefined] compares as NaN. *)
Definition maxPages_of (payload : TaskPayload) : float :=
  match payload_maxPages payload with
  | Some maxPages => maxPages
  | None => nan
  end.

(** [stats] of [interface TaskResult]. *)
Record Stats : Type := mkStats {
  totalPages : nat;
  totalContent : nat;
  averageContentLength : float
}.

(** [interface TaskResult]; an absent field is [None].  [error] is the
    message of what was caught. *)
Record TaskResult : Type := mkTaskResult {
  success : bool;
  pages : option (list ScrapedPage);
  stats : option Stats;
  error : option string
}.

(** What the function given to [page.evaluate] reads from the document:
    [innerText] of the main-content element ([None]: [querySelector] gave
    [null]) and of the body, [textContent] of the headings, the resolved
    [href] property of every [a], and [window.location.hostname]. *)
Record Document : Type := mkDocument {
  document_title : string;
  mainContent_innerText : option string;
  body_innerText : string;
  heading_textContent : list string;
  anchor_href : list string;
  location_hostname : string
}.

(** The browser, as the task drives it; a thrown value is its message.
    [page_goto u owner] is [page.goto(u, { waitUntil: ... })], the wait
    policy chosen by [siteOwner]. *)
Class Puppeteer (W : Type) : Type := {
  env_BROWSERBASE_API_KEY : W -> bool;
  puppeteerStandalone_launch : Eff W string unit;
  puppeteer_connect : Eff W string unit;
  browser_newPage : Eff W string unit;
  page_setViewport : Eff W string unit;
  page_goto : string -> bool -> Eff W string unit;
  page_evaluate : Eff W string Document;
  browser_close : Eff W string unit
}.

(** The local variables of the crawl loop. *)
Record Loop : Type := mkLoop {
  visited : JS.StringSet;
  toVisit : list string;
  results : list ScrapedPage
}.

Section ScrapeWebsiteTask.

Context {W : Type} {browser : Puppeteer W}.

(** [initializeBrowser(siteOwner)]; the result says whether [browser]
    was assigned. *)
Definition initializeBrowser (owner : bool) : Eff W string unit :=
  if owner then puppeteerStandalone_launch
  else
    fun w =>
      if negb (env_BROWSERBASE_API_KEY w) then
        (w, inl "BROWSERBASE_API_KEY environment variable is required for non-owned sites")
      else puppeteer_connect w.

(** The filter on [a.href] inside [page.evaluate]. *)
Definition same_domain_link (domain href : string) : bool :=
  JS.includes href domain
  && JS.startsWith href "http"
  && negb (JS.includes href "#")
  && negb (JS.matches_file_extension href).

(** The function given to [page.evaluate], on the document it reads;
    with [currentUrl] in front this is the pushed page. *)
Definition pageData (currentUrl : string) (d : Document) : ScrapedPage :=
  let content :=
    match mainContent_innerText d with
    | Some text => text
    | None => body_innerText d
    end in
  let headings := JS.filter_Boolean (map JS.trim (heading_textContent d)) in
  let domain := location_hostname d in
  let links := filter (same_domain_link domain) (anchor_href d) in
  mkScrapedPage currentUrl (document_title d) (JS.trim content) headings
                (JS.Array_from_Set links).

(** One iteration of the [while] loop; its [try]/[catch] lets nothing
    out. *)
Definition iteration (owner : bool) (st : Loop) : W -> W * Loop :=
  fun w =>
    match toVisit st with
    | [] => (w, st)
    | currentUrl :: rest =>
        let st0 := mkLoop (visited st) rest (results st) in
        if JS.Set_has (visited st0) currentUrl then (w, st0)
        else
          match page_goto currentUrl owner w with
          | (w1, inl _) => (w1, st0)
          | (w1, inr _) =>
              let st1 := mkLoop (JS.Set_add (visited st0) currentUrl)
                                (toVisit st0) (results st0) in
              match page_evaluate w1 with
              | (w2, inl _) => (w2, st1)
              | (w2, inr d) =>
                  let page := pageData currentUrl d in
                  (w2,
                   mkLoop (visited st1)
                          (toVisit st1
                           ++ filter (fun link =>
                                        negb (JS.Set_has (visited st1) link))
                                     (links page))
                          (results st1 ++ [page]))
              end
          end
    end.

(** [toVisit.length > 0 && results.length < maxPages]. *)
Definition loop_condition (maxPages : float) (st : Loop) : bool :=
  (0 <? List.length (toVisit st))
  && Num.lt_nat (List.length (results st)) maxPages.

(** The [while] loop; [None] when [fuel] iterations were not enough. *)
Fixpoint while_loop (fuel : nat) (owner : bool) (maxPages : float)
         (st : Loop) : W -> option (W * Loop) :=
  fun w =>
    if loop_condition maxPages st then
      match fuel with
      | O => None
      | S fuel' =>
          let '(w', st') := iteration owner st w in
          while_loop fuel' owner maxPages st' w'
      end
    else Some (w, st).

(** [results.reduce((acc, page) => acc + page.content.length, 0)]. *)
Definition sum_content_length (results : list ScrapedPage) : nat :=
  fold_left (fun acc page => acc + String.length (content page)) results 0.

(** The object returned after the loop. *)
Definition success_result (results : list ScrapedPage) : TaskResult :=
  mkTaskResult true (Some results)
    (Some (mkStats
             (List.length results)
             (sum_content_length results)
             (Num.Math_round
                (Num.of_nat (sum_content_length results)
                 / Num.of_nat (List.length results))%float)))
    None.

(** The object returned by the outer [catch]. *)
Definition failure_result (message : string) : TaskResult :=
  mkTaskResult false None None (Some message).

(** The outer [try] block: the final loop state, or what was thrown,
    and whether [browser] had been assigned by then. *)
Definition try_block (fuel : nat) (payload : TaskPayload)
  : W -> option (W * (string + Loop) * bool) :=
  fun w =>
    match initializeBrowser (siteOwner payload) w with
    | (w1, inl e) => Some (w1, inl e, false)
    | (w1, inr _) =>
        match (browser_newPage ;;; page_setViewport)%eff w1 with
        | (w2, inl e) => Some (w2, inl e, true)
        | (w2, inr _) =>
            let st := mkLoop [] [payload_url payload] [] in
            match while_loop fuel (siteOwner payload)
                             (maxPages_of payload) st w2 with
            | None => None
            | Some (w3, st') => Some (w3, inr st', true)
            end
        end
    end.

(** [scrapeWebsiteTask.run(payload)]: the final loop state when the loop
    was run (for the statements about the visited set), and the
    settled promise: [inl] when the [finally] block throws, else the
    returned [TaskResult]. *)
Definition run_with_state (fuel : nat) (payload : TaskPayload)
  : W -> option (W * option Loop * (string + TaskResult)) :=
  fun w =>
    match try_block fuel payload w with
    | None => None
    | Some (w1, r, assigned) =>
        let returned :=
          match r with
          | inl message => failure_result message
          | inr st => success_result (results st)
          end in
        let final :=
          match r with
          | inl _ => None
          | inr st => Some st
          end in
        if assigned then
          match browser_close w1 with
          | (w2, inl e) => Some (w2, final, inl e)
          | (w2, inr _) => Some (w2, final, inr returned)
          end
        else Some (w1, final, inr returned)
    end.

Definition scrapeWebsiteTask (fuel : nat) (payload : TaskPayload)
  : W -> option (W * (string + TaskResult)) :=
  fun w =>
    match run_with_state fuel payload w with
    | None => None
    | Some (w', _, r) => Some (w', r)
    end.

(** ** Predicates on the local variables, for the statements below *)

(** What one iteration does to the local variables, whatever the
    browser answers. *)
Inductive step (st : Loop) : Loop -> Prop :=
| step_kept currentUrl rest :
    (* already visited, or [page.goto] threw *)
    toVisit st = currentUrl :: rest ->
    step st (mkLoop (visited st) rest (results st))
| step_failed currentUrl rest :
    toVisit st = currentUrl :: rest ->
    JS.Set_has (visited st) currentUrl = false ->
    step st (mkLoop (JS.Set_add (visited st) currentUrl) rest
                         (results st))
| step_scraped currentUrl rest page more :
    toVisit st = currentUrl :: rest ->
    JS.Set_has (visited st) currentUrl = false ->
    url page = currentUrl ->
    step st (mkLoop (JS.Set_add (visited st) currentUrl)
                         (rest ++ more) (results st ++ [page])).

Definition within_budget (maxPages : float) (st : Loop) : Prop :=
  forall n, List.length (results st) = S n -> Num.lt_nat n maxPages = true.

Definition each_once (st : Loop) : Prop :=
  NoDup (visited st)
  /\ NoDup (map url (results st))
  /\ (forall page, In page (results st) -> In (url page) (visited st)).

End ScrapeWebsiteTask.

End Task.

(* ================================================================== *)
(** * The task of trigger/generate-faq.ts ([generateFAQTask]) *)
(* ================================================================== *)

Module Faq.

(** A value returned by [JSON.parse]; an object is its list of own
    properties (each key once). *)
Inductive json : Type :=
| JNull
| JBool (b : bool)
| JNumber (x : float)
| JString (s : string)
| JArray (items : list json)
| JObject (properties : list (string * json)).

(** [value[key]]: [None] is [undefined]. *)
Fixpoint property (properties : list (string * json)) (key : string)
  : option json :=
  match properties with
  | [] => None
  | (k, v) :: rest => if String.eqb k key then Some v else property rest key
  end.

(** The [category] enumeration of [FAQSchema]. *)
Inductive Category : Type :=
| product | service | technical | support | pricing | other.

Record Metadata : Type := mkMetadata {
  relevance : float;
  category : Category;
  keywords : list string
}.

(** [type FAQ = z.infer<typeof FAQSchema>]. *)
Record FAQ : Type := mkFAQ {
  question : string;
  answer : string;
  confidence : float;
  sourceUrl : string;
  sourcePage : string;
  metadata : option Metadata
}.

(** [options] of the task payload. *)
Record Options : Type := mkOptions {
  maxFaqsPerPage : float;
  minConfidence : float;
  preferredCategories : option (list string)
}.

(** [type TaskPayload]; the optional [metadata] of a page, which the task
    never reads, is left out. *)
Record TaskPayload : Type := mkPayload {
  payload_pages : list ScrapedPage;
  scrapeId : string;
  userId : option string;
  options : option Options
}.

Record Stats : Type := mkStats {
  totalFaqs : nat;
  processedChunks : nat;
  totalTokens : float;
  averageConfidence : float;
  processingTimeMs : Z;
  model : string
}.

(** [interface TaskResult]; an absent field is [None]. *)
Record TaskResult : Type := mkTaskResult {
  success : bool;
  faqs : option (list FAQ);
  text : option string;
  responses : option (list string);
  stats : option Stats;
  error : option string
}.

(** What the task calls outside the program.  [generateText content] is
    the call of the [ai] package with the fixed instructions around the
    combined page content, giving [result.text]; [JSON_parse] gives the
    message of its [SyntaxError] or the value; [is_url] is the check
    behind [z.string().url()]; [ZodError_message] is the message zod
    composes for a value it rejects. *)
Class Services (W : Type) : Type := {
  Date_now : W -> W * Z;
  generateText : string -> Eff W string string;
  JSON_parse : string -> string + json;
  is_url : string -> bool;
  ZodError_message : json -> string
}.

Definition newline : string := String (ascii_of_nat 10) EmptyString.

(** [function estimateTokens(text, charsPerToken = 4)]. *)
Definition estimateTokens (text : string) (charsPerToken : float) : float :=
  Num.Math_ceil (Num.of_nat (String.length text) / charsPerToken)%float.

(** Length of the match of [/```json\n?|\n?```/] at the start of [s], 0
    when there is none: the first alternative before the second, the
    optional newline taken when it is there. *)
Definition fence_match (s : string) : nat :=
  if JS.startsWith s ("```json" ++ newline) then 8
  else if JS.startsWith s "```json" then 7
  else if JS.startsWith s (newline ++ "```") then 4
  else if JS.startsWith s "```" then 3
  else 0.

(** [s.replace(/```json\n?|\n?```/g, '')]; [skip] characters of a match
    are still to be dropped. *)
Fixpoint replace_fences (skip : nat) (s : string) : string :=
  match s with
  | EmptyString => EmptyString
  | String c s' =>
      match skip with
      | S k => replace_fences k s'
      | O =>
          match fence_match s with
          | S k => replace_fences k s'
          | O => String c (replace_fences 0 s')
          end
      end
  end.

Section Schemas.

Variable is_url : string -> bool.

(** [z.string()]. *)
Definition z_string (v : option json) : option string :=
  match v with
  | Some (JString s) => Some s
  | _ => None
  end.

(** [z.string().min(lo).max(hi)]. *)
Definition z_string_min_max (lo hi : nat) (v : option json)
  : option string :=
  match z_string v with
  | Some s =>
      if (lo <=? String.length s) && (String.length s <=? hi)
      then Some s else None
  | None => None
  end.

(** [z.number().min(0).max(1)]; [z.number()] refuses NaN. *)
Definition z_number_0_1 (v : option json) : option float :=
  match v with
  | Some (JNumber x) =>
      if negb (PrimFloat.is_nan x)
         && PrimFloat.leb 0 x && PrimFloat.leb x 1
      then Some x else None
  | _ => None
  end.

(** [z.string().url()]. *)
Definition z_string_url (v : option json) : option string :=
  match z_string v with
  | Some s => if is_url s then Some s else None
  | None => None
  end.

(** [z.enum(['product', 'service', 'technical', 'support', 'pricing',
    'other'])]. *)
Definition z_category (v : option json) : option Category :=
  match z_string v with
  | Some s =>
      if String.eqb s "product" then Some product
      else if String.eqb s "service" then Some service
      else if String.eqb s "technical" then Some technical
      else if String.eqb s "support" then Some support
      else if String.eqb s "pricing" then Some pricing
      else if String.eqb s "other" then Some other
      else None
  | None => None
  end.

(** [z.array(z.string())]. *)
Fixpoint z_strings (items : list json) : option (list string) :=
  match items with
  | [] => Some []
  | item :: rest =>
      match z_string (Some item), z_strings rest with
      | Some s, Some ss => Some (s :: ss)
      | _, _ => None
      end
  end.

Definition z_array_string (v : option json) : option (list string) :=
  match v with
  | Some (JArray items) => z_strings items
  | _ => None
  end.

(** The [metadata] object schema, before [.optional()]. *)
Definition MetadataSchema_parse (v : json) : option Metadata :=
  match v with
  | JObject o =>
      match z_number_0_1 (property o "relevance"),
            z_category (property o "category"),
            z_array_string (property o "keywords") with
      | Some r, Some c, Some k => Some (mkMetadata r c k)
      | _, _, _ => None
      end
  | _ => None
  end.

(** [FAQSchema.parse]: [None] when zod throws. *)
Definition FAQSchema_parse (v : json) : option FAQ :=
  match v with
  | JObject o =>
      match z_string_min_max 10 200 (property o "question"),
            z_string_min_max 20 1000 (property o "answer"),
            z_number_0_1 (property o "confidence"),
            z_string_url (property o "sourceUrl"),
            z_string (property o "sourcePage") with
      | Some q, Some a, Some c, Some u, Some p =>
          match property o "metadata" with
          | None => Some (mkFAQ q a c u p None)
          | Some m =>
              match MetadataSchema_parse m with
              | Some md => Some (mkFAQ q a c u p (Some md))
              | None => None
              end
          end
      | _, _, _, _, _ => None
      end
  | _ => None
  end.

(** [z.array(FAQSchema)]. *)
Fixpoint FAQ_array_parse (items : list json) : option (list FAQ) :=
  match items with
  | [] => Some []
  | item :: rest =>
      match FAQSchema_parse item, FAQ_array_parse rest with
      | Some f, Some fs => Some (f :: fs)
      | _, _ => None
      end
  end.

(** [FAQResponseSchema.parse], giving the [faqs] field. *)
Definition FAQResponseSchema_parse (v : json) : option (list FAQ) :=
  match v with
  | JObject o =>
      match property o "faqs" with
      | Some (JArray items) => FAQ_array_parse items
      | _ => None
      end
  | _ => None
  end.

End Schemas.

Section GenerateFAQTask.

Context {W : Type} {services : Services W}.

(** The template of one page in [combinedContent]. *)
Definition page_block (page : ScrapedPage) : string :=
  newline ++ "Page: " ++ title page ++ newline
  ++ "URL: " ++ url page ++ newline
  ++ "Content:" ++ newline
  ++ content page ++ newline ++ "---".

(** [pages.map(...).join('\n')]. *)
Definition combinedContent (pages : list ScrapedPage) : string :=
  String.concat newline (map page_block pages).

(** The [try] around [FAQResponseSchema.parse(JSON.parse(...))]: the
    message of what is rethrown, or the validated records. *)
Definition parse_response (text : string) : string + list FAQ :=
  match JSON_parse (JS.trim (replace_fences 0 text)) with
  | inl message => inl message
  | inr value =>
      match FAQResponseSchema_parse is_url value with
      | Some parsed => inr parsed
      | None => inl (ZodError_message value)
      end
  end.

(** [parsedFaqs.faqs.reduce((acc, faq) => acc + faq.confidence, 0)
     / parsedFaqs.faqs.length]. *)
Definition average_confidence (parsed : list FAQ) : float :=
  (fold_left (fun acc faq => acc + confidence faq) parsed 0
   / Num.of_nat (List.length parsed))%float.

(** [generateFAQTask.run(payload)]. *)
Definition generateFAQTask (payload : TaskPayload) : W -> W * TaskResult :=
  fun w =>
    let pages := payload_pages payload in
    let '(w0, startTime) := Date_now w in
    match generateText (combinedContent pages) w0 with
    | (w1, inl message) =>
        let '(w2, _) := Date_now w1 in
        (w2, mkTaskResult false None None None None (Some message))
    | (w1, inr result_text) =>
        match parse_response result_text with
        | inl message =>
            let '(w2, _) := Date_now w1 in
            (w2, mkTaskResult false None None None None (Some message))
        | inr parsed =>
            let averageConfidence := average_confidence parsed in
            let '(w2, _) := Date_now w1 in
            let '(w3, endTime) := Date_now w2 in
            (w3,
             mkTaskResult true None (Some result_text) None
               (Some (mkStats
                        (List.length parsed)
                        1
                        (estimateTokens result_text 4)
                        averageConfidence
                        (endTime - startTime)%Z
                        "gpt-4o"))
               None)
        end
    end.

End GenerateFAQTask.

End Faq.

(* ================================================================== *)
(** * Small worlds to run the models in *)
(* ================================================================== *)

Module Sample.

(** ** Retry executor *)

(** Times out twice, then answers 42. *)
Definition flaky (k : nat) : Retry.Thrown + nat :=
  if k <? 3 then inl (Retry.FAQGenerationError "timeout" Retry.TRANSIENT)
  else inr 42.

(** Always rejected by the schema. *)
Definition always_invalid (k : nat) : Retry.Thrown + nat :=
  inl (Retry.FAQGenerationError "schema" Retry.VALIDATION).

(** Always refused. *)
Definition denied (k : nat) : Retry.Thrown + nat :=
  inl (Retry.DatabaseError "denied" Retry.PERMANENT).

(** [Math.random()] giving one half each time. *)
Definition half (k : nat) : float := 0.5%float.

(** ** URLs *)

Fixpoint skip (n : nat) (s : string) : string :=
  match n, s with
  | S n', String _ s' => skip n' s'
  | _, _ => s
  end.

(** The characters before the first of [/], [?], [#] and [:]. *)
Fixpoint host_part (s : string) : string :=
  match s with
  | EmptyString => EmptyString
  | String c s' =>
      if Ascii.eqb c "/" || Ascii.eqb c "?" || Ascii.eqb c "#"
         || Ascii.eqb c ":"
      then EmptyString
      else String c (host_part s')
  end.

(** [new URL(u).hostname] for a lower-case [http] or [https] URL without
    credentials; anything else is refused. *)
Definition hostname_of (u : string) : option string :=
  if JS.startsWith u "https://" then Some (host_part (skip 8 u))
  else if JS.startsWith u "http://" then Some (host_part (skip 7 u))
  else None.

(** [new URL(link, base).href] for a link that is such a URL already, with
    its path written out; relative links are refused. *)
Definition href_of (link base : string) : option string :=
  match hostname_of link with
  | Some _ => Some link
  | None => None
  end.

Definition urls : UrlApi := {|
  URL_href := href_of;
  URL_hostname := hostname_of
|}.

(** The normalization the specification speaks of, a URL without its
    fragment: what stands before the first [#].  (The sources have no
    such function; it is here to state what they do not do.) *)
Fixpoint spec_strip_fragment (u : string) : string :=
  match u with
  | EmptyString => EmptyString
  | String c u' =>
      if Ascii.eqb c "#" then EmptyString
      else String c (spec_strip_fragment u')
  end.

(** ** A browser for [scrapeWebsite] over a fixed site *)

(** The world is the site itself; nothing fails but the pages the site
    does not have. *)
Definition scraper_browser (site : string -> option Scraper.Document)
  : Scraper.Puppeteer unit := {|
  Scraper.env_BROWSERBASE_API_KEY := fun _ => true;
  Scraper.puppeteer_connect := ret tt;
  Scraper.browser_newPage := ret tt;
  Scraper.goto_and_read := fun u w =>
    match site u with
    | Some d => (w, inr d)
    | None => (w, inl tt)
    end;
  Scraper.page_close := ret tt;
  Scraper.browser_close := ret tt
|}.

Definition plain_page (title_ : string) (hrefs : list string)
  : Scraper.Document :=
  Scraper.mkDocument title_ None ("Text of " ++ title_) [title_] hrefs.

(** A home page that links twice to one page, with two fragments. *)
Definition fragment_site (u : string) : option Scraper.Document :=
  if String.eqb u "https://example.com/" then
    Some (plain_page "Home" ["https://example.com/page#section";
                             "https://example.com/page#other"])
  else if String.eqb u "https://example.com/page" then
    Some (plain_page "Page" [])
  else None.

(** A home page with three links, one of them to a file and one to
    another host, and a second level below. *)
Definition small_site (u : string) : option Scraper.Document :=
  if String.eqb u "https://example.com/" then
    Some (plain_page "Home" ["https://example.com/a";
                             "https://example.com/file.pdf";
                             "https://other.com/page";
                             "https://example.com/b";
                             "https://example.com/a"])
  else if String.eqb u "https://example.com/a" then
    Some (plain_page "A" ["https://example.com/c"; "https://example.com/"])
  else if String.eqb u "https://example.com/b" then
    Some (plain_page "B" ["https://example.com/d"])
  else if String.eqb u "https://example.com/c" then
    Some (plain_page "C" [])
  else None.

(** A home page with ten links to pages of its own host. *)
Definition ten_links : list string :=
  map (fun name : string => ("https://example.com/" ++ name)%string)
      ["p0"; "p1"; "p2"; "p3"; "p4"; "p5"; "p6"; "p7"; "p8"; "p9"].

Definition ten_links_site (u : string) : option Scraper.Document :=
  if String.eqb u "https://example.com/" then
    Some (plain_page "Home" ten_links)
  else if JS.Set_has ten_links u then Some (plain_page u [])
  else None.

(** ** A browser for [scrapeWebsiteTask] over a fixed site *)

(** The world is the URL the page is at. *)
Definition task_browser (site : string -> option Task.Document)
  : Task.Puppeteer string := {|
  Task.env_BROWSERBASE_API_KEY := fun _ => true;
  Task.puppeteerStandalone_launch := ret tt;
  Task.puppeteer_connect := ret tt;
  Task.browser_newPage := ret tt;
  Task.page_setViewport := ret tt;
  Task.page_goto := fun u _ w =>
    match site u with
    | Some _ => (u, inr tt)
    | None => (w, inl "net::ERR_NAME_NOT_RESOLVED")
    end;
  Task.page_evaluate := fun w =>
    match site w with
    | Some d => (w, inr d)
    | None => (w, inl "Execution context was destroyed")
    end;
  Task.browser_close := ret tt
|}.

Definition task_page (title_ host : string) (anchors : list string)
  : Task.Document :=
  Task.mkDocument title_ None ("Text of " ++ title_) [title_] anchors host.

(** A home page with a link to a host whose name merely contains its
    own. *)
Definition lookalike_site (u : string) : option Task.Document :=
  if String.eqb u "https://example.com/" then
    Some (task_page "Home" "example.com"
                    ["https://example.com/about";
                     "https://example.com.evil.org/"])
  else if String.eqb u "https://example.com/about" then
    Some (task_page "About" "example.com" [])
  else if String.eqb u "https://example.com.evil.org/" then
    Some (task_page "Evil" "example.com.evil.org" [])
  else None.

(** A site where nothing loads. *)
Definition dead_site (u : string) : option Task.Document := None.

(** ** Services for [generateFAQTask] *)

Definition quote : string := String (ascii_of_nat 34) EmptyString.

Definition quoted (s : string) : string := quote ++ s ++ quote.

(** The world is the clock; the model answers [reply] whatever it is
    asked, and [JSON.parse] knows the texts of [table]. *)
Definition faq_services (reply : string) (table : list (string * Faq.json))
  : Faq.Services Z := {|
  Faq.Date_now := fun now => ((now + 1)%Z, now);
  Faq.generateText := fun _ now => ((now + 1500)%Z, inr reply);
  Faq.JSON_parse := fun s =>
    match Faq.property table s with
    | Some v => inr v
    | None => inl "Unexpected token"
    end;
  Faq.is_url := fun s => JS.startsWith s "http";
  Faq.ZodError_message := fun _ => "ZodError"
|}.

(** An answer without records. *)
Definition empty_text : string := "{" ++ quoted "faqs" ++ ":[]}".

Definition empty_value : Faq.json :=
  Faq.JObject [("faqs", Faq.JArray [])].

(** An answer with one record, of confidence one half, in a code fence. *)
Definition one_text : string :=
  "{" ++ quoted "faqs" ++ ":[{"
  ++ quoted "question" ++ ":" ++ quoted "What does the product do?" ++ ","
  ++ quoted "answer" ++ ":" ++ quoted "It generates FAQs from a website."
  ++ "," ++ quoted "confidence" ++ ":0.5,"
  ++ quoted "sourceUrl" ++ ":" ++ quoted "https://example.com/" ++ ","
  ++ quoted "sourcePage" ++ ":" ++ quoted "Home" ++ "}]}".

Definition one_reply : string :=
  "```json" ++ Faq.newline ++ one_text ++ Faq.newline ++ "```".

Definition one_value : Faq.json :=
  Faq.JObject
    [("faqs",
      Faq.JArray
        [Faq.JObject
           [("question", Faq.JString "What does the product do?");
            ("answer", Faq.JString "It generates FAQs from a website.");
            ("confidence", Faq.JNumber 0.5);
            ("sourceUrl", Faq.JString "https://example.com/");
            ("sourcePage", Faq.JString "Home")]])].

Definition one_faq : Faq.FAQ :=
  Faq.mkFAQ "What does the product do?" "It generates FAQs from a website."
            0.5 "https://example.com/" "Home" None.

Definition home : ScrapedPage :=
  mkScrapedPage "https://example.com/" "Home" "Text of Home" ["Home"] [].

(** A payload with the given [minConfidence]. *)
Definition payload_with (minConfidence_ : float) : Faq.TaskPayload :=
  Faq.mkPayload [home] "5b0c1a9e-0000-4000-8000-000000000000" None
                (Some (Faq.mkOptions 5 minConfidence_ None)).

End Sample.

(* ================================================================== *)
(** * The earlier task of trigger/scrape-website.ts *)
(* ================================================================== *)

Module FirstTask.

(** [type TaskPayload] of the earlier version; the schema is not applied
    here either, and an absent [maxPages] is [None]. *)
Record TaskPayload : Type := mkPayload {
  payload_url : string;
  payload_maxPages : option float;
  userId : option string
}.

(** [maxPages] as [scrapeWebsite(url, maxPages, ...)] takes it: the
    default of the parameter, [maxPages: number = 5], stands in for
    [undefined]. *)
Definition maxPages_of (payload : TaskPayload) : float :=
  match payload_maxPages payload with
  | Some maxPages => maxPages
  | None => 5%float
  end.

(** [interface TaskResult] of the earlier version: the pages are in
    [results]. *)
Record TaskResult : Type := mkTaskResult {
  success : bool;
  results : option (list ScrapedPage);
  stats : option Task.Stats;
  error : option string
}.

Section Run.

Context {url_api : UrlApi} {W : Type} {browser : Scraper.Puppeteer W}.

(** The message of what puppeteer throws. *)
Variable puppeteer_message : Scraper.Fatal -> string.

(** [error instanceof Error ? error.message : String(error)] on what
    [scrapeWebsite] lets out. *)
Definition message_of (e : Scraper.Fatal) : string :=
  match e with
  | Scraper.MissingApiKey =>
      "BROWSERBASE_API_KEY environment variable is required"
  | _ => puppeteer_message e
  end.

(** The callback given to [scrapeWebsite]: it notes the count and logs. *)
Definition progress : Scraper.ProgressCallback W := fun _ => ret tt.

(** The object returned after [scrapeWebsite]. *)
Definition success_result (scraped : list ScrapedPage) : TaskResult :=
  mkTaskResult true (Some scraped)
    (Some (Task.mkStats
             (List.length scraped)
             (Task.sum_content_length scraped)
             (Num.Math_round
                (Num.of_nat (Task.sum_content_length scraped)
                 / Num.of_nat (List.length scraped))%float)))
    None.

(** [scrapeWebsiteTask.run(payload)], earlier version; [None] when [fuel]
    was not enough for the crawl. *)
Definition scrapeWebsiteTask (fuel : nat) (payload : TaskPayload)
  : W -> option (W * TaskResult) :=
  fun w =>
    match Scraper.scrapeWebsite (maxPages_of payload) (Some progress)
                                fuel (payload_url payload) w with
    | None => None
    | Some (w', inr scraped) => Some (w', success_result scraped)
    | Some (w', inl e) =>
        Some (w', mkTaskResult false None None (Some (message_of e)))
    end.

End Run.

End FirstTask.

(* ================================================================== *)
(** * The local crawler ([scrapeWebsiteLocally], test-local-scraper.ts) *)
(* ================================================================== *)

Module Local.

(** [interface LocalScrapeOptions]; an absent field is [None]. *)
Record LocalScrapeOptions (W : Type) : Type := mkOptions {
  option_url : string;
  option_maxPages : option float;
  option_visible : option bool;
  option_delayMs : option float;
  option_pathPrefixes : option (list string);
  option_excludePaths : option (list string);
  option_onProgress : option (nat -> Eff W string unit)
}.
Arguments mkOptions {W}.
Arguments option_url {W}.
Arguments option_maxPages {W}.
Arguments option_visible {W}.
Arguments option_delayMs {W}.
Arguments option_pathPrefixes {W}.
Arguments option_excludePaths {W}.
Arguments option_onProgress {W}.

(** [new URL(u).pathname]; [None] when the constructor throws. *)
Class UrlPath : Type := {
  URL_pathname : string -> option string
}.

(** The browser, as the local crawler drives it.  [puppeteer_launch] gets
    [headless], [sleep] is the optional delay after a page. *)
Class Puppeteer (W : Type) : Type := {
  puppeteer_launch : bool -> Eff W string unit;
  browser_newPage : Eff W string unit;
  page_setViewport : Eff W string unit;
  page_goto : string -> Eff W string unit;
  page_evaluate : Eff W string Task.Document;
  sleep : float -> W -> W;
  browser_close : Eff W string unit
}.

(** The local variables of the crawl loop. *)
Record Loop : Type := mkLoop {
  visited : JS.StringSet;
  toVisit : list string;
  pages : list ScrapedPage
}.

Section ScrapeWebsiteLocally.

Context {url_path : UrlPath} {W : Type} {browser : Puppeteer W}.

Variable maxPages : float.
Variable delayMs : float.
Variable pathPrefixes excludePaths : list string.
Variable onProgress : option (nat -> Eff W string unit).

(** The two path filters: what lets a pathname through. *)
Definition in_scope (pathname : string) : bool :=
  negb ((0 <? List.length pathPrefixes)
        && negb (existsb (fun prefix => JS.startsWith pathname prefix)
                         pathPrefixes))
  && negb (existsb (fun exclude => JS.includes pathname exclude)
                   excludePaths).

(** The [try] block of one iteration; its [catch] only logs.  The function
    given to [page.evaluate] is the one of the task, [Task.pageData]. *)
Definition try_block (currentUrl : string) (st : Loop) : W -> W * Loop :=
  fun w =>
    match page_goto currentUrl w with
    | (w1, inl _) => (w1, st)
    | (w1, inr _) =>
        let st1 := mkLoop (JS.Set_add (visited st) currentUrl) (toVisit st)
                          (pages st) in
        match page_evaluate w1 with
        | (w2, inl _) => (w2, st1)
        | (w2, inr d) =>
            let page := Task.pageData currentUrl d in
            let st2 :=
              mkLoop (visited st1)
                     (toVisit st1
                      ++ filter (fun link =>
                                   negb (JS.Set_has (visited st1) link))
                                (links page))
                     (pages st1 ++ [page]) in
            let progress :=
              match onProgress with
              | Some callback => callback (List.length (pages st2)) w2
              | None => (w2, inr tt)
              end in
            match progress with
            | (w3, inl _) => (w3, st2)
            | (w3, inr _) =>
                (if (0 <? delayMs)%float then sleep delayMs w3 else w3, st2)
            end
        end
    end.

(** One iteration of the [while] loop; [new URL(currentUrl)] stands
    outside the [try] block, so its [TypeError] ends the crawl. *)
Definition iteration (st : Loop) : Eff W string Loop :=
  match toVisit st with
  | [] => ret st
  | currentUrl :: rest =>
      let st0 := mkLoop (visited st) rest (pages st) in
      if JS.Set_has (visited st0) currentUrl then ret st0
      else
        match URL_pathname currentUrl with
        | None => fun w => (w, inl "Invalid URL")
        | Some pathname =>
            if in_scope pathname then caught (try_block currentUrl st0)
            else ret st0
        end
  end.

(** [toVisit.length > 0 && pages.length < maxPages]. *)
Definition loop_condition (st : Loop) : bool :=
  (0 <? List.length (toVisit st))
  && Num.lt_nat (List.length (pages st)) maxPages.

(** The [while] loop; [None] when [fuel] iterations were not enough. *)
Fixpoint while_loop (fuel : nat) (st : Loop)
  : W -> option (W * (string + Loop)) :=
  fun w =>
    if loop_condition st then
      match fuel with
      | O => None
      | S fuel' =>
          match iteration st w with
          | (w', inl e) => Some (w', inl e)
          | (w', inr st') => while_loop fuel' st' w'
          end
      end
    else Some (w, inr st).

(** The crawl between [puppeteer.launch] and [return pages], with the
    [finally] block; the final local variables are kept for the
    statements about the visited set. *)
Definition crawl (fuel : nat) (visible : bool) (startUrl : string)
  : W -> option (W * (string + Loop)) :=
  fun w =>
    match puppeteer_launch (negb visible) w with
    | (w1, inl e) => Some (w1, inl e)
    | (w1, inr _) =>
        let tried :=
          match (browser_newPage ;;; page_setViewport)%eff w1 with
          | (w2, inl e) => Some (w2, inl e)
          | (w2, inr _) => while_loop fuel (mkLoop [] [startUrl] []) w2
          end in
        match tried with
        | None => None
        | Some (w3, r) =>
            match browser_close w3 with
            | (w4, inl e) => Some (w4, inl e)
            | (w4, inr _) => Some (w4, r)
            end
        end
    end.

(** What an iteration that ends normally does to the local variables. *)
Inductive step (st : Loop) : Loop -> Prop :=
| step_skipped currentUrl rest :
    (* visited, out of scope, or [page.goto] threw *)
    toVisit st = currentUrl :: rest ->
    step st (mkLoop (visited st) rest (pages st))
| step_failed currentUrl rest pathname :
    toVisit st = currentUrl :: rest ->
    JS.Set_has (visited st) currentUrl = false ->
    URL_pathname currentUrl = Some pathname ->
    in_scope pathname = true ->
    step st (mkLoop (JS.Set_add (visited st) currentUrl) rest (pages st))
| step_scraped currentUrl rest pathname page more :
    toVisit st = currentUrl :: rest ->
    JS.Set_has (visited st) currentUrl = false ->
    URL_pathname currentUrl = Some pathname ->
    in_scope pathname = true ->
    url page = currentUrl ->
    step st (mkLoop (JS.Set_add (visited st) currentUrl) (rest ++ more)
                    (pages st ++ [page])).

(** No page URL twice, every page visited, every page pushed while there
    were fewer than [maxPages], and every page in scope. *)
Definition well_kept (st : Loop) : Prop :=
  NoDup (visited st)
  /\ NoDup (map url (pages st))
  /\ (forall page, In page (pages st) -> In (url page) (visited st))
  /\ (forall n, List.length (pages st) = S n ->
                Num.lt_nat n maxPages = true)
  /\ (forall page, In page (pages st) ->
        exists pathname,
          URL_pathname (url page) = Some pathname
          /\ in_scope pathname = true).

End ScrapeWebsiteLocally.

(** [scrapeWebsiteLocally(options)], with the defaults of the
    destructuring. *)
Definition scrapeWebsiteLocally {url_path : UrlPath} {W : Type}
           {browser : Puppeteer W} (fuel : nat)
           (options : LocalScrapeOptions W)
  : W -> option (W * (string + list ScrapedPage)) :=
  fun w =>
    let maxPages := match option_maxPages options with
                    | Some n => n | None => 5%float end in
    let visible := match option_visible options with
                   | Some b => b | None => false end in
    let delayMs := match option_delayMs options with
                   | Some n => n | None => 0%float end in
    let pathPrefixes := match option_pathPrefixes options with
                        | Some l => l | None => [] end in
    let excludePaths := match option_excludePaths options with
                        | Some l => l | None => [] end in
    match crawl maxPages delayMs pathPrefixes excludePaths
                (option_onProgress options) fuel visible
                (option_url options) w with
    | None => None
    | Some (w', inl e) => Some (w', inl e)
    | Some (w', inr st) => Some (w', inr (pages st))
    end.

End Local.

(* ================================================================== *)
(** * The name of the sample file (test-local-pipeline.ts,
      test-full-pipeline.ts) *)
(* ================================================================== *)

Module Pipeline.

(** The longest prefix without [/]: what [[^\/]+] takes. *)
Fixpoint not_slash (s : string) : string :=
  match s with
  | EmptyString => EmptyString
  | String c s' =>
      if Ascii.eqb c "/" then EmptyString else String c (not_slash s')
  end.

Definition nonempty (s : string) : bool := negb (String.eqb s "").

(** [s] without its first [n] characters. *)
Fixpoint drop (n : nat) (s : string) : string :=
  match n, s with
  | S n', String _ s' => drop n' s'
  | _, _ => s
  end.

(** Group 2 of [/\/\/(www\.)?([^\/]+)/] when the match starts at the
    head of [s]: the optional group is taken when what follows it still
    leaves a character to the second group. *)
Definition match_here (s : string) : option string :=
  if JS.startsWith s "//" then
    let rest := drop 2 s in
    if JS.startsWith rest "www." && nonempty (not_slash (drop 4 rest))
    then Some (not_slash (drop 4 rest))
    else if nonempty (not_slash rest) then Some (not_slash rest)
    else None
  else None.

(** [testUrl.match(/\/\/(www\.)?([^\/]+)/)], group 2 of the leftmost
    match; [None] is [null]. *)
Fixpoint siteNameMatch (testUrl : string) : option string :=
  match match_here testUrl with
  | Some group => Some group
  | None =>
      match testUrl with
      | EmptyString => None
      | String _ rest => siteNameMatch rest
      end
  end.

(** [s.replace(/\./g, '')]. *)
Fixpoint remove_dots (s : string) : string :=
  match s with
  | EmptyString => EmptyString
  | String c s' =>
      if Ascii.eqb c "." then remove_dots s' else String c (remove_dots s')
  end.

(** [siteNameMatch ? siteNameMatch[2].replace(/\./g, '') : 'custom']. *)
Definition siteName (testUrl : string) : string :=
  match siteNameMatch testUrl with
  | Some group => remove_dots group
  | None => "custom"
  end.

End Pipeline.

(* ================================================================== *)
(** * Further predicates on the two crawl loops *)
(* ================================================================== *)

Module Order.

(** [xs] is read off [ys] from left to right, leaving elements out. *)
Inductive Subsequence {A : Type} : list A -> list A -> Prop :=
| sub_nil : Subsequence [] []
| sub_skip y xs ys : Subsequence xs ys -> Subsequence xs (y :: ys)
| sub_take x xs ys : Subsequence xs ys -> Subsequence (x :: xs) (x :: ys).

(** In [scrapeWebsite]: the pages come in the order their URLs were
    dequeued, and the visited set is the set of the dequeued URLs, in the
    order they were first dequeued. *)
Definition in_dequeue_order (st : Scraper.Loop) : Prop :=
  Subsequence (map url (Scraper.results st))
              (map Scraper.entry_url (Scraper.dequeued st))
  /\ Scraper.visited st
     = JS.Array_from_Set (map Scraper.entry_url (Scraper.dequeued st)).

(** What the link filter of the task lets through. *)
Definition filtered (u : string) : Prop :=
  JS.startsWith u "http" = true
  /\ JS.includes u "#" = false
  /\ JS.matches_file_extension u = false.

(** In [scrapeWebsiteTask]: whatever is to be visited or was scraped is
    the start URL or went through the link filter. *)
Definition task_filtered (startUrl : string) (st : Task.Loop) : Prop :=
  (forall u, In u (Task.toVisit st) -> u = startUrl \/ filtered u)
  /\ (forall page, In page (Task.results st) ->
        url page = startUrl \/ filtered (url page)).

End Order.

(* ================================================================== *)
(** * The bounds of a record *)
(* ================================================================== *)

Module Bounds.

(** Between 0 and 1, ends included. *)
Definition unit_interval (x : float) : Prop :=
  PrimFloat.leb 0 x = true /\ PrimFloat.leb x 1 = true.

(** The bounds [FAQSchema] sets on the fields of a record. *)
Definition within_bounds (is_url : string -> bool) (faq : Faq.FAQ) : Prop :=
  10 <= String.length (Faq.question faq) <= 200
  /\ 20 <= String.length (Faq.answer faq) <= 1000
  /\ unit_interval (Faq.confidence faq)
  /\ is_url (Faq.sourceUrl faq) = true
  /\ match Faq.metadata faq with
     | Some m => unit_interval (Faq.relevance m)
     | None => True
     end.

End Bounds.

(* ================================================================== *)
(** * More small worlds *)
(* ================================================================== *)

Module Worlds.

(** A site where nothing loads, for [scrapeWebsite]. *)
Definition nothing_loads (u : string) : option Scraper.Document := None.

(** A site without end: every URL is on the one host and every page
    links to a page that was not seen before, its own URL with an [x]
    in front. *)
Definition one_host : UrlApi := {|
  URL_href := fun link _ => Some link;
  URL_hostname := fun _ => Some "example.com"
|}.

Definition endless_site (u : string) : option Scraper.Document :=
  Some (Sample.plain_page "Page" [String "x" u]).

Fixpoint xs (n : nat) : string :=
  match n with
  | O => EmptyString
  | S n' => String "x" (xs n')
  end.

(** What stands from the first [/] on, up to [?] or [#]. *)
Fixpoint path_part (s : string) : string :=
  match s with
  | EmptyString => EmptyString
  | String c s' =>
      if Ascii.eqb c "?" || Ascii.eqb c "#" then EmptyString
      else String c (path_part s')
  end.

Fixpoint from_slash (s : string) : string :=
  match s with
  | EmptyString => "/"
  | String c s' => if Ascii.eqb c "/" then path_part s else from_slash s'
  end.

(** [new URL(u).pathname] for a lower-case [http] or [https] URL without
    credentials and with a path free of dot segments. *)
Definition pathname_of (u : string) : option string :=
  if JS.startsWith u "https://" then Some (from_slash (Sample.skip 8 u))
  else if JS.startsWith u "http://" then Some (from_slash (Sample.skip 7 u))
  else None.

Definition paths : Local.UrlPath := {|
  Local.URL_pathname := pathname_of
|}.

(** A browser for [scrapeWebsiteLocally] over a fixed site; the world is
    the URL the page is at. *)
Definition local_browser (site : string -> option Task.Document)
  : Local.Puppeteer string := {|
  Local.puppeteer_launch := fun _ => ret tt;
  Local.browser_newPage := ret tt;
  Local.page_setViewport := ret tt;
  Local.page_goto := fun u w =>
    match site u with
    | Some _ => (u, inr tt)
    | None => (w, inl "net::ERR_NAME_NOT_RESOLVED")
    end;
  Local.page_evaluate := fun w =>
    match site w with
    | Some d => (w, inr d)
    | None => (w, inl "Execution context was destroyed")
    end;
  Local.sleep := fun _ w => w;
  Local.browser_close := ret tt
|}.

(** Documentation pages, a private one among them, and a blog. *)
Definition docs_site (u : string) : option Task.Document :=
  if String.eqb u "https://example.com/docs/" then
    Some (Sample.task_page "Docs" "example.com"
            ["https://example.com/docs/a";
             "https://example.com/blog/b";
             "https://example.com/docs/private/c"])
  else if String.eqb u "https://example.com/docs/a" then
    Some (Sample.task_page "A" "example.com" ["https://example.com/docs/"])
  else if String.eqb u "https://example.com/blog/b" then
    Some (Sample.task_page "B" "example.com" [])
  else if String.eqb u "https://example.com/docs/private/c" then
    Some (Sample.task_page "C" "example.com" [])
  else None.

Definition docs_options : Local.LocalScrapeOptions string :=
  Local.mkOptions "https://example.com/docs/" (Some 10%float) None None
                  (Some ["/docs"]) (Some ["private"]) None.

(** The same crawl from the blog, which the prefix leaves out. *)
Definition blog_options : Local.LocalScrapeOptions string :=
  Local.mkOptions "https://example.com/blog/b" (Some 10%float) None None
                  (Some ["/docs"]) (Some ["private"]) None.

(** A record that passes [FAQSchema], with its metadata. *)
Definition full_value : Faq.json :=
  Faq.JObject
    [("question", Faq.JString "What does the product do?");
     ("answer", Faq.JString "It generates FAQs from a website.");
     ("confidence", Faq.JNumber 0.9);
     ("sourceUrl", Faq.JString "https://example.com/");
     ("sourcePage", Faq.JString "Home");
     ("metadata",
      Faq.JObject [("relevance", Faq.JNumber 1);
                   ("category", Faq.JString "pricing");
                   ("keywords", Faq.JArray [Faq.JString "faq"])])].

(** The same with a question of five characters. *)
Definition short_value : Faq.json :=
  Faq.JObject
    [("question", Faq.JString "Why?!");
     ("answer", Faq.JString "It generates FAQs from a website.");
     ("confidence", Faq.JNumber 0.9);
     ("sourceUrl", Faq.JString "https://example.com/");
     ("sourcePage", Faq.JString "Home")].

(** Browsers in an environment without the API key; whatever is asked of
    them throws. *)
Definition keyless_browser : Scraper.Puppeteer unit := {|
  Scraper.env_BROWSERBASE_API_KEY := fun _ => false;
  Scraper.puppeteer_connect := fun w => (w, inl Scraper.ConnectFailed);
  Scraper.browser_newPage := fun w => (w, inl Scraper.NewPageFailed);
  Scraper.goto_and_read := fun _ w => (w, inl tt);
  Scraper.page_close := fun w => (w, inl Scraper.PageCloseFailed);
  Scraper.browser_close := fun w => (w, inl Scraper.BrowserCloseFailed)
|}.

Definition keyless_task_browser : Task.Puppeteer unit := {|
  Task.env_BROWSERBASE_API_KEY := fun _ => false;
  Task.puppeteerStandalone_launch := fun w => (w, inl "no browser");
  Task.puppeteer_connect := fun w => (w, inl "no browser");
  Task.browser_newPage := fun w => (w, inl "no browser");
  Task.page_setViewport := fun w => (w, inl "no browser");
  Task.page_goto := fun _ _ w => (w, inl "no browser");
  Task.page_evaluate := fun w => (w, inl "no browser");
  Task.browser_close := fun w => (w, inl "no browser")
|}.

(** The text of a record with the given question. *)
Definition record_text (question_ : string) : string :=
  "{" ++ Sample.quoted "question" ++ ":" ++ Sample.quoted question_ ++ ","
  ++ Sample.quoted "answer" ++ ":"
  ++ Sample.quoted "It generates FAQs from a website." ++ ","
  ++ Sample.quoted "confidence" ++ ":0.9,"
  ++ Sample.quoted "sourceUrl" ++ ":" ++ Sample.quoted "https://example.com/"
  ++ "," ++ Sample.quoted "sourcePage" ++ ":" ++ Sample.quoted "Home" ++ "}".

Definition good_value : Faq.json :=
  Faq.JObject
    [("question", Faq.JString "What does the product do?");
     ("answer", Faq.JString "It generates FAQs from a website.");
     ("confidence", Faq.JNumber 0.9);
     ("sourceUrl", Faq.JString "https://example.com/");
     ("sourcePage", Faq.JString "Home")].

(** An answer with a good record and one whose question is too short. *)
Definition mixed_text : string :=
  "{" ++ Sample.quoted "faqs" ++ ":["
  ++ record_text "What does the product do?" ++ ","
  ++ record_text "Why?!" ++ "]}".

Definition mixed_value : Faq.json :=
  Faq.JObject [("faqs", Faq.JArray [good_value; short_value])].

Definition mixed_services : Faq.Services Z :=
  Sample.faq_services mixed_text [(mixed_text, mixed_value)].

End Worlds.

(* ================================================================== *)
(** * Counts against doubles *)
(* ================================================================== *)

Section NumFacts.

Lemma fraction_den (m : positive) (e : Z) : (0 < snd (Num.fraction m e))%Z.
Proof. unfold Num.fraction; cbn [snd]. apply Z.pow_pos_nonneg; lia. Qed.

Lemma fraction_num (m : positive) (e : Z) : (0 < fst (Num.fraction m e))%Z.
Proof.
  unfold Num.fraction; cbn [fst].
  apply Z.mul_pos_pos; [lia | apply Z.pow_pos_nonneg; lia].
Qed.

(** [n < y] holds for the first [counts_below y] counts and no other. *)
Lemma lt_nat_counts_below (n : nat) (y : float) :
  Num.lt_nat n y = match Num.counts_below y with
                   | Some r => n <? r
                   | None => true
                   end.
Proof.
  unfold Num.lt_nat, Num.counts_below.
  destruct (Prim2SF y) as [s|s| |s m e]; try reflexivity.
  - now destruct s.
  - destruct s; [reflexivity|]. cbn [negb andb].
    pose proof (fraction_den m e) as Hd. pose proof (fraction_num m e) as Hn.
    destruct (Num.fraction m e) as [num den]; cbn [fst snd] in *.
    apply eq_true_iff_eq. rewrite Z.ltb_lt, Nat.ltb_lt.
    assert (H : (Z.of_nat n * den < num
                 <-> Z.of_nat n < (num + den - 1) / den)%Z).
    { split; intros H.
      - assert (Z.of_nat n + 1 <= (num + den - 1) / den)%Z; [|lia].
        apply Z.div_le_lower_bound; [exact Hd | nia].
      - assert ((num + den - 1) / den * den <= num + den - 1)%Z.
        { rewrite Z.mul_comm. apply Z.mul_div_le. lia. }
        nia. }
    rewrite H. lia.
Qed.

(** [n <= y] holds for the first [counts_upto y] counts and no other. *)
Lemma le_nat_counts_upto (n : nat) (y : float) :
  Num.le_nat n y = match Num.counts_upto y with
                   | Some r => n <? r
                   | None => true
                   end.
Proof.
  unfold Num.le_nat, Num.counts_upto.
  destruct (Prim2SF y) as [s|s| |s m e]; try reflexivity.
  - destruct n; reflexivity.
  - now destruct s.
  - destruct s; [reflexivity|]. cbn [negb andb].
    pose proof (fraction_den m e) as Hd. pose proof (fraction_num m e) as Hn.
    destruct (Num.fraction m e) as [num den]; cbn [fst snd] in *.
    apply eq_true_iff_eq. rewrite Z.leb_le, Nat.ltb_lt.
    assert (H : (Z.of_nat n * den <= num <-> Z.of_nat n <= num / den)%Z).
    { split; intros H.
      - apply Z.div_le_lower_bound; lia.
      - assert (num / den * den <= num)%Z.
        { rewrite Z.mul_comm. apply Z.mul_div_le. lia. }
        nia. }
    rewrite H. assert (0 <= num / den)%Z by (apply Z.div_pos; lia). lia.
Qed.

Lemma lt_nat_mono (i k : nat) (y : float) :
  Num.lt_nat k y = true -> i <= k -> Num.lt_nat i y = true.
Proof.
  rewrite !lt_nat_counts_below. destruct (Num.counts_below y); [|auto].
  rewrite !Nat.ltb_lt. lia.
Qed.

Lemma le_nat_mono (i k : nat) (y : float) :
  Num.le_nat k y = true -> i <= k -> Num.le_nat i y = true.
Proof.
  rewrite !le_nat_counts_upto. destruct (Num.counts_upto y); [|auto].
  rewrite !Nat.ltb_lt. lia.
Qed.

(** [n < y] is [n <= y] without [n === y]. *)
Lemma lt_nat_le_neq (n : nat) (y : float) :
  Num.lt_nat n y = Num.le_nat n y && negb (Num.eq_nat n y).
Proof.
  unfold Num.lt_nat, Num.le_nat, Num.eq_nat.
  destruct (Prim2SF y) as [s|s| |s m e]; try reflexivity.
  - now destruct (n =? 0).
  - now destruct s.
  - destruct s; [reflexivity|]. cbn [negb andb].
    destruct (Z.ltb_spec (Z.of_nat n * snd (Num.fraction m e))
                         (fst (Num.fraction m e)));
      destruct (Z.leb_spec (Z.of_nat n * snd (Num.fraction m e))
                           (fst (Num.fraction m e)));
      destruct (Z.eqb_spec (Z.of_nat n * snd (Num.fraction m e))
                           (fst (Num.fraction m e)));
      cbn; try reflexivity; lia.
Qed.

Lemma le_nat_lt_nat (i k : nat) (y : float) :
  Num.le_nat k y = true -> i < k -> Num.lt_nat i y = true.
Proof.
  unfold Num.lt_nat, Num.le_nat.
  destruct (Prim2SF y) as [s|s| |s m e]; try discriminate.
  - rewrite Nat.eqb_eq. lia.
  - auto.
  - destruct s; [discriminate|]. cbn [negb andb].
    pose proof (fraction_den m e). rewrite Z.leb_le, Z.ltb_lt. nia.
Qed.

(** When [y] is the count [n], the counts below it are the first [n]
    and those up to it the first [n + 1]. *)
Lemma eq_nat_counts (n : nat) (y : float) :
  Num.eq_nat n y = true ->
  Num.counts_below y = Some n /\ Num.counts_upto y = Some (S n).
Proof.
  unfold Num.eq_nat, Num.counts_below, Num.counts_upto.
  destruct (Prim2SF y) as [s|s| |s m e]; try discriminate.
  - rewrite Nat.eqb_eq. intros ->. auto.
  - destruct s; [discriminate|]. cbn [negb andb].
    pose proof (fraction_den m e) as Hd.
    destruct (Num.fraction m e) as [num den]; cbn [fst snd] in *.
    rewrite Z.eqb_eq. intros <-. split; f_equal.
    + replace (Z.of_nat n * den + den - 1)%Z
        with (den - 1 + Z.of_nat n * den)%Z by lia.
      rewrite Z.div_add by lia. rewrite Z.div_small by lia. lia.
    + rewrite Z.div_mul by lia. lia.
Qed.

(** Only below [Infinity] is every count. *)
Lemma counts_below_infinity (y : float) :
  Num.counts_below y = None <-> y = infinity.
Proof.
  split.
  - unfold Num.counts_below. intros H. apply Prim2SF_inj.
    destruct (Prim2SF y) as [s|s| |s m e]; try discriminate.
    + destruct s; [discriminate | reflexivity].
    + destruct s; [discriminate|].
      destruct (Num.fraction m e); discriminate.
  - intros ->. reflexivity.
Qed.

Lemma counts_upto_infinity (y : float) :
  Num.counts_upto y = None <-> y = infinity.
Proof.
  split.
  - unfold Num.counts_upto. intros H. apply Prim2SF_inj.
    destruct (Prim2SF y) as [s|s| |s m e]; try discriminate.
    + destruct s; [discriminate | reflexivity].
    + destruct s; [discriminate|].
      destruct (Num.fraction m e); discriminate.
  - intros ->. reflexivity.
Qed.

End NumFacts.

(* ================================================================== *)
(** * Products of doubles

    What IEEE 754 multiplication gives where [withRetry] multiplies:
    rounding to nearest of the exact product ([SFmul] of the standard
    library's specification of binary64). *)
(* ================================================================== *)

Section DoubleFacts.

Local Open Scope Z_scope.

Lemma digits2_pos_bounds (p : positive) :
  2 ^ (Z.pos (digits2_pos p) - 1) <= Z.pos p < 2 ^ Z.pos (digits2_pos p).
Proof.
  induction p as [p IH|p IH|]; cbn [digits2_pos].
  - rewrite Pos2Z.inj_succ.
    replace (Z.succ (Z.pos (digits2_pos p)) - 1)
      with (Z.succ (Z.pos (digits2_pos p) - 1)) by lia.
    rewrite !Z.pow_succ_r by lia. lia.
  - rewrite Pos2Z.inj_succ.
    replace (Z.succ (Z.pos (digits2_pos p)) - 1)
      with (Z.succ (Z.pos (digits2_pos p) - 1)) by lia.
    rewrite !Z.pow_succ_r by lia. lia.
  - cbn. lia.
Qed.

Lemma digits2_pos_unique (p : positive) (k : Z) :
  2 ^ (k - 1) <= Z.pos p < 2 ^ k -> Z.pos (digits2_pos p) = k.
Proof.
  intros [Hl Hu]. destruct (digits2_pos_bounds p) as [Hl' Hu'].
  assert (0 < k).
  { destruct (Z.lt_trichotomy k 0) as [Hk|[Hk|Hk]]; [|subst; cbn in Hu; lia|lia].
    rewrite Z.pow_neg_r in Hu by lia. lia. }
  assert (k - 1 < Z.pos (digits2_pos p)).
  { apply (Z.pow_lt_mono_r_iff 2); lia. }
  assert (Z.pos (digits2_pos p) - 1 < k).
  { apply (Z.pow_lt_mono_r_iff 2); lia. }
  lia.
Qed.

Lemma iter_pos_nat {A : Type} (f : A -> A) (p : positive) :
  forall x, iter_pos f p x = Nat.iter (Pos.to_nat p) f x.
Proof.
  induction p as [p IH|p IH|]; intros x; cbn [iter_pos].
  - rewrite !IH, Pos2Nat.inj_xI, <- Nat.iter_add, Nat.iter_succ_r.
    f_equal. lia.
  - rewrite !IH, Pos2Nat.inj_xO, <- Nat.iter_add. f_equal. lia.
  - reflexivity.
Qed.

Lemma shr_1_spec (m : Z) (r s : bool) :
  0 <= m ->
  shr_1 {| shr_m := m; shr_r := r; shr_s := s |}
  = {| shr_m := m / 2; shr_r := Z.odd m; shr_s := r || s |}.
Proof.
  intros Hm. rewrite <- Z.div2_div.
  destruct m as [|[p|p|]|p]; try reflexivity; lia.
Qed.

(** [k + 1] halvings of an exact mantissa: the quotient, the last bit
    shifted out, and whether anything was shifted out before it. *)
Lemma shr_nat_spec (M : Z) (k : nat) :
  0 <= M ->
  Nat.iter (S k) shr_1 {| shr_m := M; shr_r := false; shr_s := false |}
  = {| shr_m := M / 2 ^ Z.of_nat (S k);
       shr_r := Z.odd (M / 2 ^ Z.of_nat k);
       shr_s := negb (M mod 2 ^ Z.of_nat k =? 0) |}.
Proof.
  intros HM. induction k as [|k IH].
  - cbn [Nat.iter]. rewrite shr_1_spec by exact HM.
    change (2 ^ Z.of_nat 1) with 2. change (2 ^ Z.of_nat 0) with 1.
    rewrite Z.div_1_r, Z.mod_1_r. reflexivity.
  - change (Nat.iter (S (S k)) shr_1 ?x) with (shr_1 (Nat.iter (S k) shr_1 x)).
    rewrite IH, shr_1_spec by (apply Z.div_pos; [exact HM|apply Z.pow_pos_nonneg; lia]).
    f_equal.
    + rewrite Z.div_div by (try apply Z.pow_pos_nonneg; lia).
      f_equal. rewrite (Nat2Z.inj_succ (S k)), Z.pow_succ_r by lia. lia.
    + rewrite (Nat2Z.inj_succ k), Z.pow_succ_r by lia.
      rewrite (Z.mul_comm 2).
      rewrite Z.rem_mul_r by (try apply Z.pow_nonzero; lia).
      set (a := M mod 2 ^ Z.of_nat k).
      set (b := M / 2 ^ Z.of_nat k).
      assert (0 <= a) by (apply Z.mod_pos_bound, Z.pow_pos_nonneg; lia).
      assert (0 < 2 ^ Z.of_nat k) by (apply Z.pow_pos_nonneg; lia).
      rewrite (Zmod_odd b).
      destruct (Z.odd b), (Z.eqb_spec a 0) as [E|E]; cbn [orb negb];
        match goal with
        | |- _ = negb (?x =? 0) => destruct (Z.eqb_spec x 0)
        end; cbn [negb]; try reflexivity; nia.
Qed.

Lemma shr_spec (M E : Z) (p : positive) :
  0 <= M ->
  shr {| shr_m := M; shr_r := false; shr_s := false |} E (Z.pos p)
  = ({| shr_m := M / 2 ^ Z.pos p;
        shr_r := Z.odd (M / 2 ^ (Z.pos p - 1));
        shr_s := negb (M mod 2 ^ (Z.pos p - 1) =? 0) |}, E + Z.pos p).
Proof.
  intros HM. unfold shr. rewrite iter_pos_nat.
  destruct (Pos.to_nat p) as [|k] eqn:K; [lia|].
  rewrite shr_nat_spec by exact HM.
  replace (Z.of_nat (S k)) with (Z.pos p) by lia.
  replace (Z.of_nat k) with (Z.pos p - 1) by lia.
  reflexivity.
Qed.

(** Rounding to nearest after [n] halvings: the quotient or the next
    integer, the latter only from the midpoint on, and the quotient
    when the division is exact. *)
Lemma round_after_shr (M n : Z) :
  0 <= M -> 0 < n ->
  let mrs := {| shr_m := M / 2 ^ n;
                shr_r := Z.odd (M / 2 ^ (n - 1));
                shr_s := negb (M mod 2 ^ (n - 1) =? 0) |} in
  let m1 := round_nearest_even (shr_m mrs) (loc_of_shr_record mrs) in
  M / 2 ^ n <= m1 <= M / 2 ^ n + 1
  /\ (m1 = M / 2 ^ n + 1 -> 2 ^ n <= 2 * (M mod 2 ^ n))
  /\ (M mod 2 ^ n = 0 -> m1 = M / 2 ^ n).
Proof.
  intros HM Hn mrs m1. subst mrs m1. cbn [shr_m].
  assert (Hp : 0 < 2 ^ (n - 1)) by (apply Z.pow_pos_nonneg; lia).
  assert (Hsplit : M mod 2 ^ n
                   = M mod 2 ^ (n - 1)
                     + 2 ^ (n - 1) * ((M / 2 ^ (n - 1)) mod 2)).
  { replace n with (Z.succ (n - 1)) at 1 by lia.
    rewrite Z.pow_succ_r by lia. rewrite (Z.mul_comm 2).
    apply Z.rem_mul_r; lia. }
  assert (Hdouble : 2 ^ n = 2 * 2 ^ (n - 1)).
  { replace n with (Z.succ (n - 1)) at 1 by lia.
    apply Z.pow_succ_r. lia. }
  assert (Ha : 0 <= M mod 2 ^ (n - 1))
    by (apply Z.mod_pos_bound; exact Hp).
  rewrite (Zmod_odd (M / 2 ^ (n - 1))) in Hsplit.
  destruct (Z.odd (M / 2 ^ (n - 1)));
    destruct (Z.eqb_spec (M mod 2 ^ (n - 1)) 0) as [E0|E0];
    cbn [negb loc_of_shr_record round_nearest_even];
    try destruct (Z.even (M / 2 ^ n)); repeat split; intros; nia.
Qed.

Lemma binary_round_aux_exact (s : bool) (pm : positive) (E : Z) :
  let n := fexp prec emax (Z.pos (digits2_pos pm) + E) - E in
  0 <= n -> Z.pos pm mod 2 ^ n = 0 ->
  binary_round_aux prec emax s (Z.pos pm) E loc_Exact
  = if E + n <=? emax - prec
    then S754_finite s (Z.to_pos (Z.pos pm / 2 ^ n)) (E + n)
    else S754_infinity s.
Proof.
  intros n Hn Hdiv.
  assert (N : fexp prec emax (Z.pos (digits2_pos pm) + E) - E = n)
    by reflexivity.
  clearbody n.
  unfold binary_round_aux, shr_fexp at 1.
  cbn [Zdigits2 shr_record_of_loc]. rewrite N.
  destruct n as [|p|p]; [| |lia].
  - cbn [shr shr_m loc_of_shr_record round_nearest_even].
    unfold shr_fexp. cbn [Zdigits2 shr_record_of_loc]. rewrite N.
    cbn [shr shr_m]. rewrite Z.add_0_r, Z.pow_0_r, Z.div_1_r.
    reflexivity.
  - rewrite shr_spec by lia.
    destruct (round_after_shr (Z.pos pm) (Z.pos p)) as (_ & _ & Hexact);
      [lia | lia |].
    cbv zeta in Hexact. rewrite (Hexact Hdiv). clear Hexact.
    assert (Hpow : 0 < 2 ^ Z.pos p) by (apply Z.pow_pos_nonneg; lia).
    assert (HM : Z.pos pm = 2 ^ Z.pos p * (Z.pos pm / 2 ^ Z.pos p)).
    { rewrite (Z.div_mod (Z.pos pm) (2 ^ Z.pos p)) at 1 by lia. lia. }
    destruct (Z.pos pm / 2 ^ Z.pos p) as [|pq|pq] eqn:Q; [lia| |lia].
    destruct (digits2_pos_bounds pm) as [Hl Hu].
    assert (Hd : Z.pos (digits2_pos pq) = Z.pos (digits2_pos pm) - Z.pos p).
    { apply digits2_pos_unique.
      set (d := Z.pos (digits2_pos pm)) in *.
      assert (Z.pos p < d).
      { destruct (Z.le_gt_cases d (Z.pos p)) as [Hle|]; [|lia].
        assert (2 ^ d <= 2 ^ Z.pos p) by (apply Z.pow_le_mono_r; lia).
        nia. }
      replace (2 ^ (d - 1)) with (2 ^ Z.pos p * 2 ^ (d - Z.pos p - 1)) in Hl
        by (rewrite <- Z.pow_add_r by lia; f_equal; lia).
      replace (2 ^ d) with (2 ^ Z.pos p * 2 ^ (d - Z.pos p)) in Hu
        by (rewrite <- Z.pow_add_r by lia; f_equal; lia).
      nia. }
    unfold shr_fexp. cbn [Zdigits2 shr_record_of_loc]. rewrite Hd.
    replace (fexp prec emax
               (Z.pos (digits2_pos pm) - Z.pos p + (E + Z.pos p))
             - (E + Z.pos p))
      with 0
      by (replace (Z.pos (digits2_pos pm) - Z.pos p + (E + Z.pos p))
            with (Z.pos (digits2_pos pm) + E) by lia; lia).
    cbn [shr shr_m]. reflexivity.
Qed.

Lemma fexp_eq (k : Z) : fexp prec emax k = Z.max (k - 53) (-1074).
Proof. reflexivity. Qed.


(** What is known of the mantissa and the exponent of a double. *)
Lemma valid_finite (x : float) (s : bool) (m : positive) (e : Z) :
  Prim2SF x = S754_finite s m e ->
  Z.max (Z.pos (digits2_pos m) + e - 53) (-1074) = e /\ e <= 971.
Proof.
  intros Hx. pose proof (Prim2SF_valid x) as Hv. rewrite Hx in Hv.
  cbn [SpecFloat.valid_binary] in Hv. unfold bounded, canonical_mantissa in Hv.
  apply andb_true_iff in Hv. destruct Hv as [Hc Hb].
  apply Z.eqb_eq in Hc. apply Z.leb_le in Hb. rewrite fexp_eq in Hc.
  change (emax - prec) with 971 in Hb. split; assumption.
Qed.






End DoubleFacts.

(* ================================================================== *)
(** * Counts as doubles

    The comparisons of a count with a [number] that the models make on
    the exact values are the comparisons the program makes on doubles. *)
(* ================================================================== *)

Section CountFacts.

Local Open Scope Z_scope.

Lemma iter_xO (p : positive) (k : positive) :
  Z.pos (Pos.iter xO p k) = Z.pos p * 2 ^ Z.pos k.
Proof.
  rewrite Pos2Nat.inj_iter, <- (positive_nat_Z k).
  induction (Pos.to_nat k) as [|n IH].
  - cbn. lia.
  - cbn [nat_rect]. rewrite Pos2Z.inj_xO, IH, Nat2Z.inj_succ, Z.pow_succ_r by lia.
    lia.
Qed.

Lemma shl_align_down (p : positive) (e : Z) :
  e <= 0 ->
  snd (shl_align p 0 e) = e
  /\ Z.pos (fst (shl_align p 0 e)) = Z.pos p * 2 ^ (- e).
Proof.
  intros He. unfold shl_align. rewrite Z.sub_0_r.
  destruct e as [|k|k]; [| lia |]; cbn [fst snd].
  - split; [reflexivity|]. cbn. lia.
  - split; [reflexivity|]. rewrite iter_xO. reflexivity.
Qed.

(** A positive count below 2^53 as a double: its digits shifted to the
    top of the mantissa. *)
Lemma of_nat_spec (n : nat) :
  0 < Z.of_nat n < 2 ^ 53 ->
  exists (p M : positive),
    Z.of_nat n = Z.pos p
    /\ Z.pos M = Z.pos p * 2 ^ (53 - Z.pos (digits2_pos p))
    /\ Prim2SF (Num.of_nat n)
       = S754_finite false M (Z.pos (digits2_pos p) - 53).
Proof.
  intros Hn. unfold Num.of_nat. rewrite of_uint63_spec, Uint63.of_Z_spec.
  rewrite Z.mod_small
    by (split; [lia|]; apply Z.lt_trans with (2 ^ 53); [lia | reflexivity]).
  destruct (Z.of_nat n) as [|p|p] eqn:Hp; [lia| |lia].
  destruct (digits2_pos_bounds p) as [Hl Hu].
  set (d := Z.pos (digits2_pos p)) in *.
  assert (Hd : 1 <= d <= 53).
  { split; [subst d; lia|].
    destruct (Z.le_gt_cases d 53) as [|Hgt]; [assumption|].
    assert (2 ^ 53 <= 2 ^ (d - 1)) by (apply Z.pow_le_mono_r; lia). lia. }
  cbn [binary_normalize]. unfold binary_round. fold d.
  rewrite Z.add_0_r, fexp_eq.
  replace (Z.max (d - 53) (-1074)) with (d - 53) by lia.
  destruct (shl_align_down p (d - 53)) as (He & HM); [lia|].
  destruct (shl_align p 0 (d - 53)) as [M e]. cbn [fst snd] in He, HM.
  subst e. replace (- (d - 53)) with (53 - d) in HM by lia.
  exists p, M. repeat split; [exact HM|].
  assert (HdM : Z.pos (digits2_pos M) = 53).
  { apply digits2_pos_unique. rewrite HM.
    assert (H52 : 2 ^ (53 - 1) = 2 ^ (d - 1) * 2 ^ (53 - d))
      by (rewrite <- Z.pow_add_r by lia; f_equal; lia).
    assert (H53 : 2 ^ 53 = 2 ^ d * 2 ^ (53 - d))
      by (rewrite <- Z.pow_add_r by lia; f_equal; lia).
    rewrite H52, H53.
    assert (0 < 2 ^ (53 - d)) by (apply Z.pow_pos_nonneg; lia). nia. }
  rewrite binary_round_aux_exact; rewrite HdM, fexp_eq.
  - replace (Z.max (53 + (d - 53) - 53) (-1074) - (d - 53)) with 0 by lia.
    rewrite Z.add_0_r, Z.pow_0_r, Z.div_1_r.
    replace (d - 53 <=? emax - prec) with true
      by (symmetry; apply Z.leb_le; change (emax - prec) with 971; lia).
    reflexivity.
  - lia.
  - replace (Z.max (53 + (d - 53) - 53) (-1074) - (d - 53)) with 0 by lia.
    apply Z.mod_1_r.
Qed.

(** The comparison of the doubles is the comparison of the exact
    values: a positive count below 2^53 against a positive double. *)
Lemma compare_count (n : nat) (y : float) (m : positive) (e : Z) :
  0 < Z.of_nat n < 2 ^ 53 ->
  Prim2SF y = S754_finite false m e ->
  SFcompare (Prim2SF (Num.of_nat n)) (Prim2SF y)
  = Some (Z.of_nat n * snd (Num.fraction m e) ?= fst (Num.fraction m e)).
Proof.
  intros Hn Hy.
  destruct (of_nat_spec n Hn) as (p & M & Hp & HM & ->).
  destruct (valid_finite y false m e Hy) as [Hcanon He].
  rewrite Hy, Hp. cbn [SFcompare]. f_equal.
  destruct (digits2_pos_bounds p) as [Hpl Hpu].
  destruct (digits2_pos_bounds m) as [Hml Hmu].
  set (d := Z.pos (digits2_pos p)) in *.
  set (dm := Z.pos (digits2_pos m)) in *.
  assert (Hd : 1 <= d <= 53).
  { split; [subst d; lia|].
    destruct (Z.le_gt_cases d 53) as [|Hgt]; [assumption|].
    assert (2 ^ 53 <= 2 ^ (d - 1)) by (apply Z.pow_le_mono_r; lia). lia. }
  assert (Hdm : 1 <= dm <= 53) by (subst dm; lia).
  unfold Num.fraction. cbn [fst snd].
  assert (Hk : 0 < 2 ^ (53 - d)) by (apply Z.pow_pos_nonneg; lia).
  destruct (Z.compare_spec (d - 53) e) as [Heq|Hlt|Hgt].
  - (* the same exponent: the mantissas decide *)
    subst e.
    replace (Z.max (d - 53) 0) with 0 by lia.
    replace (Z.max (- (d - 53)) 0) with (53 - d) by lia.
    rewrite Z.pow_0_r, Z.mul_1_r, <- HM. reflexivity.
  - (* the double has the greater exponent, and a full mantissa *)
    symmetry. apply Z.compare_lt_iff.
    assert (Hfull : dm = 53) by lia.
    assert (2 ^ 52 <= Z.pos m) by (replace 52 with (dm - 1) by lia; exact Hml).
    apply Z.lt_le_trans with (2 ^ d * 2 ^ Z.max (- e) 0).
    + apply Z.mul_lt_mono_pos_r; [apply Z.pow_pos_nonneg; lia | exact Hpu].
    + apply Z.le_trans with (2 ^ 52 * 2 ^ Z.max e 0).
      * rewrite <- !Z.pow_add_r by lia. apply Z.pow_le_mono_r; lia.
      * apply Z.mul_le_mono_nonneg_r; [apply Z.pow_nonneg; lia | assumption].
  - (* the count has the greater exponent, and a full mantissa *)
    symmetry. apply Z.compare_gt_iff.
    replace (Z.max e 0) with 0 by lia.
    replace (Z.max (- e) 0) with (- e) by lia.
    rewrite Z.pow_0_r, Z.mul_1_r.
    apply Z.lt_le_trans with (2 ^ 53).
    + apply Z.lt_le_trans with (2 ^ dm); [exact Hmu|].
      apply Z.pow_le_mono_r; lia.
    + apply Z.le_trans with (2 ^ (d - 1) * 2 ^ (- e)).
      * rewrite <- Z.pow_add_r by lia. apply Z.pow_le_mono_r; lia.
      * apply Z.mul_le_mono_nonneg_r; [apply Z.pow_nonneg; lia | exact Hpl].
Qed.

(** [results.length < maxPages], [attempt <= maxAttempts] and
    [attempt === maxAttempts] as the doubles compare: for a count below
    2^53, the three comparisons of the models are those of IEEE 754. *)
Lemma count_comparisons (n : nat) (y : float) :
  Z.of_nat n < 2 ^ 53 ->
  (Num.of_nat n <? y)%float = Num.lt_nat n y
  /\ (Num.of_nat n <=? y)%float = Num.le_nat n y
  /\ (Num.of_nat n =? y)%float = Num.eq_nat n y.
Proof.
  intros Hn.
  rewrite FloatAxioms.ltb_spec, FloatAxioms.leb_spec, FloatAxioms.eqb_spec.
  unfold SFltb, SFleb, SFeqb, Num.lt_nat, Num.le_nat, Num.eq_nat.
  destruct n as [|n'].
  - replace (Prim2SF (Num.of_nat 0)) with (S754_zero false) by reflexivity.
    destruct (Prim2SF y) as [s|s| |s m e]; cbn [SFcompare];
      try destruct s; cbn [negb andb]; repeat split; try reflexivity.
    + pose proof (fraction_num m e). rewrite Z.mul_0_l.
      symmetry. apply Z.ltb_lt. assumption.
    + pose proof (fraction_num m e). rewrite Z.mul_0_l.
      symmetry. apply Z.leb_le. lia.
    + pose proof (fraction_num m e). rewrite Z.mul_0_l.
      symmetry. apply Z.eqb_neq. lia.
  - destruct (Prim2SF y) as [s|s| |s m e] eqn:Hy.
    + destruct (of_nat_spec (S n')) as (p & M & _ & _ & ->); [lia|].
      cbn [SFcompare]. repeat split; reflexivity.
    + destruct (of_nat_spec (S n')) as (p & M & _ & _ & ->); [lia|].
      cbn [SFcompare]. destruct s; repeat split; reflexivity.
    + destruct (Prim2SF (Num.of_nat (S n'))); repeat split; reflexivity.
    + destruct s.
      * destruct (of_nat_spec (S n')) as (p & M & _ & _ & ->); [lia|].
        cbn [SFcompare negb andb]. repeat split; reflexivity.
      * rewrite <- Hy, (compare_count (S n') y m e) by (try exact Hy; lia).
        cbn [negb andb].
        rewrite Z.eqb_compare.
        unfold Z.ltb, Z.leb.
        destruct (Z.of_nat (S n') * snd (Num.fraction m e)
                  ?= fst (Num.fraction m e)); repeat split; reflexivity.
Qed.

End CountFacts.

(* ================================================================== *)
(** * Properties of the retry executor *)
(* ================================================================== *)

Section RetryFacts.

Import Retry.

Context {T : Type}.
Variable operation : nat -> Thrown + T.
Variable Math_random : nat -> float.
Variable maxAttempts : float.
Variable delayMs : float.

Lemma retried_not_at_once (e : Thrown) :
  category_of e <> Some PERMANENT -> rethrown_at_once e = false.
Proof.
  unfold rethrown_at_once. destruct (category_of e) as [[]|]; congruence.
Qed.

Lemma permanent_at_once (e : Thrown) :
  category_of e = Some PERMANENT -> rethrown_at_once e = true.
Proof. unfold rethrown_at_once. intros ->. reflexivity. Qed.

Notation attempts := (attempts operation Math_random maxAttempts delayMs).
Notation delay := (delay Math_random delayMs).

(** [j] retried failures in a row, none of them at the attempt that
    equals [maxAttempts], take the loop [j] iterations further and
    record [j] sleeps. *)
Lemma attempts_retried (j : nat) :
  forall fuel attempt lastError slept,
    j <= fuel ->
    (forall i, attempt <= i < attempt + j ->
               retried (operation i)
               /\ Num.le_nat i maxAttempts = true
               /\ Num.eq_nat i maxAttempts = false) ->
    exists lastError',
      attempts fuel attempt lastError slept
      = attempts (fuel - j) (attempt + j) lastError'
                 (slept ++ map delay (seq attempt j)).
Proof.
  induction j as [|j IH]; intros fuel attempt lastError slept Hl Hf.
  - exists lastError. rewrite Nat.sub_0_r, Nat.add_0_r, app_nil_r.
    reflexivity.
  - destruct fuel as [|fuel]; [lia|].
    destruct (Hf attempt ltac:(lia)) as ((e & He & Hc) & Hle & Hne).
    destruct (IH fuel (S attempt) (Some e) (slept ++ [delay attempt]))
      as (last' & Hrec); [lia | intros i Hi; apply Hf; lia |].
    exists last'. cbn [Retry.attempts]. rewrite Hle, He.
    rewrite (retried_not_at_once e Hc), Hne.
    rewrite Hrec. cbn [seq map]. rewrite <- app_assoc. cbn [app].
    replace (S attempt + j) with (attempt + S j) by lia.
    reflexivity.
Qed.

(** The sleeps recorded so far stay recorded. *)
Lemma attempts_extends :
  forall fuel attempt lastError slept run,
    attempts fuel attempt lastError slept = Some run ->
    exists more, sleeps run = slept ++ more.
Proof.
  induction fuel as [|fuel IH]; intros attempt lastError slept run;
    cbn [Retry.attempts];
    destruct (Num.le_nat attempt maxAttempts);
    try discriminate;
    try (intros [= <-]; exists []; cbn; now rewrite app_nil_r).
  destruct (operation attempt) as [e|v];
    [|intros [= <-]; exists []; cbn; now rewrite app_nil_r].
  destruct (rethrown_at_once e);
    [intros [= <-]; exists []; cbn; now rewrite app_nil_r|].
  destruct (Num.eq_nat attempt maxAttempts);
    [intros [= <-]; exists []; cbn; now rewrite app_nil_r|].
  intros H. apply IH in H. destruct H as (more & ->).
  exists (delay attempt :: more). now rewrite <- app_assoc.
Qed.

(** An iteration that is entered calls the operation. *)
Lemma attempts_calls :
  forall fuel attempt lastError slept run,
    attempts fuel attempt lastError slept = Some run ->
    Num.le_nat attempt maxAttempts = true ->
    attempt <= calls run.
Proof.
  induction fuel as [|fuel IH]; intros attempt lastError slept run;
    cbn [Retry.attempts]; intros H Hle; rewrite Hle in H;
    [discriminate|].
  destruct (operation attempt) as [e|v];
    [|injection H as <-; cbn; lia].
  destruct (rethrown_at_once e); [injection H as <-; cbn; lia|].
  destruct (Num.eq_nat attempt maxAttempts);
    [injection H as <-; cbn; lia|].
  destruct (Num.le_nat (S attempt) maxAttempts) eqn:Hnext.
  - apply IH in H; [lia | exact Hnext].
  - destruct fuel; cbn [Retry.attempts] in H; rewrite Hnext in H;
      injection H as <-; cbn; lia.
Qed.

(** More fuel does not change a finished run. *)
Lemma attempts_more_fuel :
  forall fuel fuel' attempt lastError slept run,
    attempts fuel attempt lastError slept = Some run ->
    fuel <= fuel' ->
    attempts fuel' attempt lastError slept = Some run.
Proof.
  induction fuel as [|fuel IH]; intros fuel' attempt lastError slept run;
    cbn [Retry.attempts]; intros H Hle.
  - destruct fuel'; cbn [Retry.attempts];
      destruct (Num.le_nat attempt maxAttempts); congruence.
  - destruct fuel' as [|fuel']; [lia|]. cbn [Retry.attempts].
    destruct (Num.le_nat attempt maxAttempts); [|exact H].
    destruct (operation attempt) as [e|v]; [|exact H].
    destruct (rethrown_at_once e); [exact H|].
    destruct (Num.eq_nat attempt maxAttempts); [exact H|].
    apply IH; [exact H | lia].
Qed.

(** The loop ends when [maxAttempts] is not [Infinity]: within as many
    iterations as there are attempt indices up to [maxAttempts]. *)
Lemma attempts_terminates (r : nat) :
  Num.counts_upto maxAttempts = Some r ->
  forall fuel attempt lastError slept,
    r <= attempt + fuel ->
    exists run, attempts fuel attempt lastError slept = Some run.
Proof.
  intros Hr.
  induction fuel as [|fuel IH]; intros attempt lastError slept Hfuel;
    cbn [Retry.attempts];
    destruct (Num.le_nat attempt maxAttempts) eqn:Hle; eauto.
  - rewrite le_nat_counts_upto, Hr in Hle. apply Nat.ltb_lt in Hle. lia.
  - destruct (operation attempt) as [e|v]; eauto.
    destruct (rethrown_at_once e); eauto.
    destruct (Num.eq_nat attempt maxAttempts); eauto.
    apply IH. lia.
Qed.

Lemma nth_error_sleeps (k : nat) (slept more : list float) :
  1 <= k ->
  nth_error ((slept ++ map delay (seq 1 k)) ++ more)
            (List.length slept + (k - 1))
  = Some (delay k).
Proof.
  intros Hk. rewrite <- app_assoc.
  rewrite nth_error_app2 by lia.
  replace (List.length slept + (k - 1) - List.length slept) with (k - 1) by lia.
  rewrite nth_error_app1 by (rewrite length_map, length_seq; lia).
  rewrite nth_error_map, nth_error_seq.
  replace (k - 1 <? k) with true by (symmetry; apply Nat.ltb_lt; lia).
  replace (1 + (k - 1)) with k by lia. reflexivity.
Qed.

(** [j] retried failures from the first attempt on, all of them below
    [maxAttempts]: where the loop stands then. *)
Lemma withRetry_after_retried (j fuel : nat) :
  j <= fuel ->
  (forall i, 1 <= i <= j ->
             retried (operation i) /\ Num.lt_nat i maxAttempts = true) ->
  exists lastError,
    withRetry operation Math_random maxAttempts delayMs fuel
    = attempts (fuel - j) (1 + j) lastError (map delay (seq 1 j)).
Proof.
  intros Hj Hf. unfold withRetry.
  destruct (attempts_retried j fuel 1 None []) as (lastError & E);
    [lia | |].
  - intros i Hi. destruct (Hf i ltac:(lia)) as (Hr & Hlt).
    rewrite lt_nat_le_neq in Hlt. apply andb_true_iff in Hlt.
    destruct Hlt as (Hle & Hne). apply negb_true_iff in Hne. auto.
  - exists lastError. exact E.
Qed.

(** A run that has finished after [j] such failures took more than [j]
    iterations. *)
Lemma withRetry_needs_fuel (j fuel : nat) (run : Run T) :
  (forall i, 1 <= i <= j ->
             retried (operation i) /\ Num.lt_nat i maxAttempts = true) ->
  withRetry operation Math_random maxAttempts delayMs fuel = Some run ->
  j <= fuel.
Proof.
  intros Hf Hrun.
  destruct (Nat.le_gt_cases j fuel) as [|Hlt]; [assumption|].
  destruct (withRetry_after_retried fuel fuel) as (lastError & E);
    [lia | intros i Hi; apply Hf; lia |].
  rewrite E, Nat.sub_diag in Hrun. cbn [Retry.attempts] in Hrun.
  destruct (Hf (1 + fuel) ltac:(lia)) as (_ & Hlt').
  rewrite lt_nat_le_neq in Hlt'. apply andb_true_iff in Hlt'.
  destruct Hlt' as (Hle & _). rewrite Hle in Hrun. discriminate.
Qed.

(** After [k] retried failures, all below [maxAttempts], the [k]-th
    sleep is [delay k]. *)
Lemma sleep_after_retried (k fuel : nat) (run : Run T) :
  1 <= k ->
  (forall i, 1 <= i <= k ->
             retried (operation i) /\ Num.lt_nat i maxAttempts = true) ->
  withRetry operation Math_random maxAttempts delayMs fuel = Some run ->
  nth_error (sleeps run) (k - 1) = Some (delay k).
Proof.
  intros Hk Hf Hrun.
  pose proof (withRetry_needs_fuel k fuel run Hf Hrun) as Hfuel.
  destruct (withRetry_after_retried k fuel Hfuel Hf) as (last' & E).
  rewrite E in Hrun.
  destruct (attempts_extends _ _ _ _ _ Hrun) as (more & ->).
  apply (nth_error_sleeps k [] more). lia.
Qed.

(** The loop of [withRetry] ends for every [maxAttempts] but
    [Infinity]. *)
Lemma withRetry_terminates :
  maxAttempts <> infinity ->
  exists fuel run,
    withRetry operation Math_random maxAttempts delayMs fuel = Some run.
Proof.
  intros Hfinite.
  destruct (Num.counts_upto maxAttempts) as [r|] eqn:Hr.
  - exists r. apply (attempts_terminates r Hr). lia.
  - apply counts_upto_infinity in Hr. contradiction.
Qed.

End RetryFacts.

(* ================================================================== *)
(** * Sets of strings *)
(* ================================================================== *)

Section SetFacts.

Import JS.

Lemma Set_has_In (set : StringSet) (x : string) :
  Set_has set x = true <-> In x set.
Proof.
  unfold Set_has. rewrite existsb_exists. split.
  - intros (y & Hy & E). apply String.eqb_eq in E. now subst.
  - intros H. exists x. split; [exact H | apply String.eqb_refl].
Qed.

Lemma Set_has_false (set : StringSet) (x : string) :
  Set_has set x = false <-> ~ In x set.
Proof.
  rewrite <- Set_has_In. destruct (Set_has set x); split; congruence.
Qed.

Lemma In_Set_add (set : StringSet) (x y : string) :
  In y (Set_add set x) <-> y = x \/ In y set.
Proof.
  unfold Set_add. destruct (Set_has set x) eqn:E.
  - apply Set_has_In in E. split; [auto | intros [->|]; auto].
  - rewrite in_app_iff. cbn. intuition.
Qed.

Lemma NoDup_Set_add (set : StringSet) (x : string) :
  NoDup set -> NoDup (Set_add set x).
Proof.
  intros H. unfold Set_add. destruct (Set_has set x) eqn:E; [exact H|].
  apply Set_has_false in E.
  apply NoDup_app; [exact H | repeat constructor; intros [] |].
  intros y Hy [<-|[]]. contradiction.
Qed.

(** Every set built by [add] from the empty set is free of duplicates. *)
Lemma NoDup_Array_from_Set (xs : list string) :
  NoDup (Array_from_Set xs).
Proof.
  unfold Array_from_Set.
  assert (G : forall acc, NoDup acc -> NoDup (fold_left Set_add xs acc)).
  { induction xs as [|x xs IH]; intros acc H; cbn; [exact H|].
    apply IH, NoDup_Set_add, H. }
  apply G. constructor.
Qed.

Lemma In_Array_from_Set (xs : list string) (y : string) :
  In y (Array_from_Set xs) <-> In y xs.
Proof.
  unfold Array_from_Set.
  assert (G : forall acc, In y (fold_left Set_add xs acc)
                          <-> In y acc \/ In y xs).
  { induction xs as [|x xs IH]; intros acc; cbn; [tauto|].
    rewrite IH, In_Set_add. intuition. }
  rewrite G. cbn. tauto.
Qed.

End SetFacts.

(* ================================================================== *)
(** * Non-decreasing lists *)
(* ================================================================== *)

Section SortedFacts.



End SortedFacts.

(* ================================================================== *)
(** * Properties of [scrapeWebsite] *)
(* ================================================================== *)

Section ScraperFacts.

Import Scraper.

Context {url_api : UrlApi} {W : Type} {browser : Puppeteer W}.
Variable maxPages : float.
Variable onProgress : option (ProgressCallback W).

Notation iteration := (iteration onProgress).
Notation while_loop := (while_loop maxPages onProgress).
Notation loop_condition := (loop_condition maxPages).
Notation reaches := (reaches maxPages onProgress).
Notation within_budget := (within_budget maxPages).

Lemma iteration_step (st st' : Loop) (w w' : W) :
  loop_condition st = true ->
  iteration st w = (w', inr st') ->
  step st st'.
Proof.
  unfold Scraper.loop_condition, Scraper.iteration. intros Hc.
  destruct (queue st) as [|entry rest] eqn:Q; [discriminate|].
  cbn [visited queue results dequeued].
  destruct (JS.Set_has (visited st) (entry_url entry)) eqn:Hv.
  - unfold ret. intros [= <- <-]. now apply step_seen.
  - unfold bind, caught.
    destruct (browser_newPage w) as [w0 [e|[]]]; [discriminate|].
    unfold try_block. cbn [visited queue results dequeued].
    destruct (goto_and_read (entry_url entry) w0) as [w1 [[]|d]].
    + destruct (page_close w1) as [w2 [e|[]]]; [discriminate|].
      unfold ret. intros [= <- <-]. now apply step_failed.
    + set (page := mkScrapedPage _ _ _ _ _).
      destruct (match onProgress with
                | Some callback =>
                    callback (List.length (results st ++ [page])) w1
                | None => (w1, inr tt)
                end) as [w2 [[]|[]]].
      * destruct (page_close w2) as [w3 [e|[]]]; [discriminate|].
        unfold ret. intros [= <- <-].
        now apply (step_scraped st entry rest page []).
      * destruct (page_close w2) as [w3 [e|[]]]; [discriminate|].
        unfold ret. intros [= <- <-].
        now apply (step_scraped st entry rest page (read_links d)).
Qed.

(** A property of the local variables that every guarded iteration
    keeps holds all along the crawl. *)
Lemma reaches_invariant (Inv : Loop -> Prop) :
  (forall st st', Inv st -> loop_condition st = true -> step st st' ->
                  Inv st') ->
  forall st0 w0 st w, Inv st0 -> reaches st0 w0 st w -> Inv st.
Proof.
  intros Hstep st0 w0 st w H0 R. induction R; [exact H0|].
  eapply Hstep; eauto using iteration_step.
Qed.

(** The state in which the loop ends is one of them, and there the
    condition fails. *)
Lemma while_loop_reaches :
  forall fuel st0 w0 st w w' st',
    reaches st0 w0 st w ->
    while_loop fuel st w = Some (w', inr st') ->
    reaches st0 w0 st' w' /\ loop_condition st' = false.
Proof.
  induction fuel as [|fuel IH]; intros st0 w0 st w w' st' R; cbn.
  - destruct (loop_condition st) eqn:C; [discriminate|].
    intros [= <- <-]. auto.
  - destruct (loop_condition st) eqn:C.
    + destruct (iteration st w) as [w1 [e|st1]] eqn:It; [discriminate|].
      apply IH. eapply reaches_next; eauto.
    + intros [= <- <-]. auto.
Qed.

(** The loop ends unless [maxPages] is [Infinity]: an iteration either
    adds a result, which happens as many times as there are counts below
    [maxPages] at most, or shortens the queue. *)
Lemma while_loop_terminates :
  maxPages <> infinity ->
  forall st w, exists fuel, while_loop fuel st w <> None.
Proof.
  intros Hfinite.
  destruct (Num.counts_below maxPages) as [room|] eqn:Hroom;
    [|apply counts_below_infinity in Hroom; contradiction].
  assert (Hcond : forall st,
             loop_condition st
             = (0 <? List.length (queue st))
               && (List.length (results st) <? room)).
  { intros st. unfold Scraper.loop_condition.
    now rewrite lt_nat_counts_below, Hroom. }
  intros st.
  remember (room - List.length (results st)) as budget eqn:Hb.
  assert (Hle : room - List.length (results st) <= budget) by lia.
  clear Hb. revert st Hle.
  induction budget as [|budget IHb]; intros st Hle.
  - intros w. exists 0. cbn.
    replace (loop_condition st) with false; [discriminate|].
    rewrite Hcond.
    replace (List.length (results st) <? room) with false
      by (symmetry; apply Nat.ltb_ge; lia).
    now rewrite andb_false_r.
  - remember (List.length (queue st)) as len eqn:Hl.
    assert (Hq : List.length (queue st) <= len) by lia.
    clear Hl. revert st Hle Hq.
    induction len as [|len IHl]; intros st Hle Hq w.
    + exists 0. cbn.
      replace (loop_condition st) with false; [discriminate|].
      rewrite Hcond.
      replace (0 <? List.length (queue st)) with false
        by (symmetry; apply Nat.ltb_ge; lia).
      reflexivity.
    + destruct (loop_condition st) eqn:C.
      * destruct (iteration st w) as [w1 [e|st1]] eqn:It.
        { exists 1. cbn. rewrite C, It. discriminate. }
        pose proof (iteration_step _ _ _ _ C It) as Hs.
        assert (Hnext : exists fuel, while_loop fuel st1 w1 <> None).
        { rewrite Hcond in C.
          apply andb_prop in C as [_ C]. apply Nat.ltb_lt in C.
          inversion Hs as [entry rest Q Hv | entry rest Q Hv
                          | entry rest page processed Q Hv Hu]; subst st1.
          - apply IHl; cbn; rewrite ?Q in Hq; cbn in Hq; lia.
          - apply IHl; cbn; rewrite ?Q in Hq; cbn in Hq; lia.
          - apply IHb. cbn. rewrite length_app. cbn. lia. }
        destruct Hnext as (fuel & Hf).
        exists (S fuel). cbn. rewrite C, It. exact Hf.
      * exists 0. cbn. rewrite C. discriminate.
Qed.

(** ** What [process_link] adds *)

Lemma process_link_cases currentUrl depth_ seen q link :
  process_link currentUrl depth_ seen q link = q
  \/ exists entry,
      process_link currentUrl depth_ seen q link = q ++ [entry]
      /\ URL_href link currentUrl = Some (entry_url entry)
      /\ pushed_for currentUrl depth_ seen entry.
Proof.
  unfold process_link.
  destruct (URL_href link currentUrl) as [absoluteUrl|] eqn:Ha; [|auto].
  destruct (URL_hostname absoluteUrl) as [linkDomain|] eqn:Hl; [|auto].
  destruct (URL_hostname currentUrl) as [currentDomain|] eqn:Hc; [|auto].
  destruct (String.eqb linkDomain currentDomain) eqn:E; [|auto].
  destruct (JS.Set_has seen absoluteUrl) eqn:Hs; [auto|].
  destruct (JS.includes absoluteUrl "#") eqn:Hf; [auto|].
  destruct (JS.matches_file_extension absoluteUrl) eqn:Hx; [auto|].
  cbn. right. exists (mkEntry absoluteUrl (depth_ + 1)).
  apply String.eqb_eq in E. subst.
  unfold pushed_for. cbn. repeat split; eauto.
Qed.

(** The loop over the links appends at the back of the queue, and only
    entries of that kind. *)
Lemma process_links_appends currentUrl depth_ seen processed :
  forall q, exists pushed,
    fold_left (process_link currentUrl depth_ seen) processed q
    = q ++ pushed
    /\ Forall (pushed_for currentUrl depth_ seen) pushed.
Proof.
  induction processed as [|link processed IH]; intros q; cbn.
  - exists []. now rewrite app_nil_r.
  - destruct (process_link_cases currentUrl depth_ seen q link)
      as [-> | (entry & -> & _ & He)].
    + apply IH.
    + destruct (IH (q ++ [entry])) as (pushed & -> & Hp).
      exists (entry :: pushed). rewrite <- app_assoc. auto.
Qed.

(** ** The page budget *)

Lemma within_budget_step st st' :
  within_budget st -> loop_condition st = true -> step st st' ->
  within_budget st'.
Proof.
  unfold Scraper.within_budget, Scraper.loop_condition. intros H C Hs.
  apply andb_prop in C as [_ C].
  destruct Hs; cbn [results]; try exact H.
  intros n. rewrite length_app. cbn [List.length].
  intros Hn. replace n with (List.length (results st)) by lia. exact C.
Qed.

(** ** No URL twice *)

Lemma each_once_step st st' :
  each_once st -> loop_condition st = true -> step st st' ->
  each_once st'.
Proof.
  intros (Hv & Hr & Hin) _ Hs.
  destruct Hs as [entry rest Q Hseen | entry rest Q Hseen
                 | entry rest page processed Q Hseen Hu]; unfold each_once; cbn.
  - auto.
  - repeat split; [now apply NoDup_Set_add | exact Hr |].
    intros page Hp. apply In_Set_add. auto.
  - repeat split.
    + now apply NoDup_Set_add.
    + rewrite map_app. cbn. apply NoDup_app; [exact Hr | | ].
      * repeat constructor. intros [].
      * intros u Hu1 [<-|[]]. apply in_map_iff in Hu1 as (p & Hp1 & Hp2).
        apply Set_has_false in Hseen. apply Hseen. rewrite <- Hu, <- Hp1. auto.
    + intros p Hp. apply In_Set_add. apply in_app_iff in Hp as [Hp|[<-|[]]];
        auto.
Qed.

(** ** One host *)

Lemma same_host_step startUrl st st' :
  same_host startUrl st -> loop_condition st = true -> step st st' ->
  same_host startUrl st'.
Proof.
  intros (Hq & Hr) _ Hs.
  destruct Hs as [entry rest Q Hseen | entry rest Q Hseen
                 | entry rest page processed Q Hseen Hu];
    unfold same_host; cbn; rewrite Q in Hq.
  - split; [|exact Hr]. intros e He. apply Hq.
    rewrite <- app_assoc in He. exact He.
  - split; [|exact Hr]. intros e He. apply Hq.
    rewrite <- app_assoc in He. exact He.
  - assert (Hentry : URL_hostname (entry_url entry) = URL_hostname startUrl)
      by (apply Hq; apply in_app_iff; right; left; reflexivity).
    destruct (process_links_appends (entry_url entry) (depth entry)
                (JS.Set_add (visited st) (entry_url entry)) processed rest)
      as (pushed & -> & Hp).
    split.
    + intros e He. rewrite !in_app_iff in He. cbn in He.
      assert (Hold : In e (dequeued st ++ entry :: rest) \/ In e pushed)
        by (rewrite in_app_iff; cbn; tauto).
      destruct Hold as [Hold|Hnew]; [now apply Hq|].
      rewrite Forall_forall in Hp.
      destruct (Hp e Hnew) as (_ & _ & (domain & H1 & H2) & _).
      congruence.
    + intros p Hp'. apply in_app_iff in Hp' as [Hp'|[<-|[]]]; [auto|].
      congruence.
Qed.

(** ** Breadth first *)




(** ** Fragments and files *)

Lemma discovered_clean_step startUrl st st' :
  discovered_clean startUrl st -> loop_condition st = true ->
  step st st' -> discovered_clean startUrl st'.
Proof.
  intros Hq _ Hs.
  destruct Hs as [entry rest Q Hseen | entry rest Q Hseen
                 | entry rest page processed Q Hseen Hu];
    unfold discovered_clean in *; cbn; rewrite Q in Hq.
  - intros e He. apply Hq. now rewrite <- app_assoc in He.
  - intros e He. apply Hq. now rewrite <- app_assoc in He.
  - destruct (process_links_appends (entry_url entry) (depth entry)
                (JS.Set_add (visited st) (entry_url entry)) processed rest)
      as (pushed & -> & Hp).
    intros e He. rewrite !in_app_iff in He. cbn in He.
    assert (Hold : In e (dequeued st ++ entry :: rest) \/ In e pushed)
      by (rewrite in_app_iff; cbn; tauto).
    destruct Hold as [Hold|Hnew]; [now apply Hq|].
    rewrite Forall_forall in Hp.
    destruct (Hp e Hnew) as (Hd & _ & _ & _ & Hf & Hx).
    right. repeat split; [lia | exact Hf | exact Hx].
Qed.

(** ** The start of the crawl *)

Lemma start_within_budget startUrl : within_budget (start startUrl).
Proof. unfold Scraper.within_budget. cbn. lia. Qed.

Lemma start_each_once startUrl : each_once (start startUrl).
Proof. repeat split; cbn; try constructor. intros ? []. Qed.

Lemma start_same_host startUrl : same_host startUrl (start startUrl).
Proof. split; cbn; [intros e [<-|[]]; reflexivity | intros ? []]. Qed.


Lemma start_discovered_clean startUrl :
  discovered_clean startUrl (start startUrl).
Proof. intros e [<-|[]]. now left. Qed.

End ScraperFacts.

(* ================================================================== *)
(** * Properties of the crawl loop of [scrapeWebsiteTask] *)
(* ================================================================== *)

Section TaskFacts.

Import Task.

Context {W : Type} {browser : Puppeteer W}.

Lemma task_iteration_step (owner : bool) (maxPages : float)
      (st st' : Loop) (w w' : W) :
  loop_condition maxPages st = true ->
  iteration owner st w = (w', st') ->
  step st st'.
Proof.
  unfold loop_condition, iteration. intros Hc.
  destruct (toVisit st) as [|currentUrl rest] eqn:Q; [discriminate|].
  cbn [visited toVisit results].
  destruct (JS.Set_has (visited st) currentUrl) eqn:Hv.
  - intros [= <- <-]. now apply (step_kept st currentUrl).
  - destruct (page_goto currentUrl owner w) as [w1 [e|[]]].
    + intros [= <- <-]. now apply (step_kept st currentUrl).
    + destruct (page_evaluate w1) as [w2 [e|d]].
      * intros [= <- <-]. now apply step_failed.
      * intros [= <- <-]. now apply step_scraped.
Qed.

Lemma task_within_budget_step maxPages st st' :
  within_budget maxPages st -> loop_condition maxPages st = true ->
  step st st' -> within_budget maxPages st'.
Proof.
  unfold within_budget, loop_condition. intros H C Hs.
  apply andb_prop in C as [_ C].
  destruct Hs; cbn [results]; try exact H.
  intros n. rewrite length_app. cbn [List.length].
  intros Hn. replace n with (List.length (results st)) by lia. exact C.
Qed.

Lemma task_each_once_step st st' :
  each_once st -> step st st' -> each_once st'.
Proof.
  intros (Hv & Hr & Hin) Hs.
  destruct Hs as [currentUrl rest Q | currentUrl rest Q Hseen
                 | currentUrl rest page more Q Hseen Hu];
    unfold each_once; cbn.
  - auto.
  - repeat split; [now apply NoDup_Set_add | exact Hr |].
    intros page Hp. apply In_Set_add. auto.
  - repeat split.
    + now apply NoDup_Set_add.
    + rewrite map_app. cbn. apply NoDup_app; [exact Hr | | ].
      * repeat constructor. intros [].
      * intros u Hu1 [<-|[]]. apply in_map_iff in Hu1 as (p & Hp1 & Hp2).
        apply Set_has_false in Hseen. apply Hseen.
        rewrite <- Hu, <- Hp1. auto.
    + intros p Hp. apply In_Set_add.
      apply in_app_iff in Hp as [Hp|[<-|[]]]; auto.
Qed.

(** A property that every guarded iteration keeps holds when the loop
    ends. *)
Lemma task_loop_invariant (Inv : Loop -> Prop) (owner : bool)
      (maxPages : float) :
  (forall st st', Inv st -> loop_condition maxPages st = true ->
                  step st st' -> Inv st') ->
  forall fuel st w w' st',
    Inv st ->
    while_loop fuel owner maxPages st w = Some (w', st') ->
    Inv st' /\ loop_condition maxPages st' = false.
Proof.
  intros Hstep. induction fuel as [|fuel IH]; intros st w w' st' Hi; cbn.
  - destruct (loop_condition maxPages st) eqn:C; [discriminate|].
    intros [= <- <-]. auto.
  - destruct (loop_condition maxPages st) eqn:C.
    + destruct (iteration owner st w) as [w1 st1] eqn:It.
      apply IH. eapply Hstep; eauto using task_iteration_step.
    + intros [= <- <-]. auto.
Qed.

(** The loop ends, for the same reason as the loop of [scrapeWebsite]. *)
Lemma task_loop_terminates (owner : bool) (maxPages : float) :
  maxPages <> infinity ->
  forall st w, exists fuel, while_loop fuel owner maxPages st w <> None.
Proof.
  intros Hfinite.
  destruct (Num.counts_below maxPages) as [room|] eqn:Hroom;
    [|apply counts_below_infinity in Hroom; contradiction].
  assert (Hcond : forall st,
             loop_condition maxPages st
             = (0 <? List.length (toVisit st))
               && (List.length (results st) <? room)).
  { intros st. unfold loop_condition.
    now rewrite lt_nat_counts_below, Hroom. }
  intros st.
  remember (room - List.length (results st)) as budget eqn:Hb.
  assert (Hle : room - List.length (results st) <= budget) by lia.
  clear Hb. revert st Hle.
  induction budget as [|budget IHb]; intros st Hle.
  - intros w. exists 0. cbn.
    replace (loop_condition maxPages st) with false; [discriminate|].
    rewrite Hcond.
    replace (List.length (results st) <? room) with false
      by (symmetry; apply Nat.ltb_ge; lia).
    now rewrite andb_false_r.
  - remember (List.length (toVisit st)) as len eqn:Hl.
    assert (Hq : List.length (toVisit st) <= len) by lia.
    clear Hl. revert st Hle Hq.
    induction len as [|len IHl]; intros st Hle Hq w.
    + exists 0. cbn.
      replace (loop_condition maxPages st) with false; [discriminate|].
      rewrite Hcond.
      replace (0 <? List.length (toVisit st)) with false
        by (symmetry; apply Nat.ltb_ge; lia).
      reflexivity.
    + destruct (loop_condition maxPages st) eqn:C.
      * destruct (iteration owner st w) as [w1 st1] eqn:It.
        pose proof (task_iteration_step _ _ _ _ _ _ C It) as Hs.
        assert (Hnext : exists fuel,
                   while_loop fuel owner maxPages st1 w1 <> None).
        { rewrite Hcond in C.
          apply andb_prop in C as [_ C]. apply Nat.ltb_lt in C.
          inversion Hs as [currentUrl rest Q | currentUrl rest Q Hseen
                          | currentUrl rest page more Q Hseen Hu];
            subst st1.
          - apply IHl; cbn; rewrite ?Q in Hq; cbn in Hq; lia.
          - apply IHl; cbn; rewrite ?Q in Hq; cbn in Hq; lia.
          - apply IHb. cbn. rewrite length_app. cbn. lia. }
        destruct Hnext as (fuel & Hf).
        exists (S fuel). cbn. rewrite C, It. exact Hf.
      * exists 0. cbn. rewrite C. discriminate.
Qed.

End TaskFacts.


(* ================================================================== *)
(** * What does not end

    With [Infinity] for [maxAttempts] or [maxPages] the two loops need
    not end: an operation that always fails is retried for ever, and a
    site without end is crawled for ever. *)
(* ================================================================== *)

Section Endless.

Lemma withRetry_for_ever :
  forall fuel attempt lastError slept,
    Retry.attempts Sample.always_invalid Sample.half infinity 1000
                   fuel attempt lastError slept
    = None.
Proof.
  induction fuel as [|fuel IH]; intros attempt lastError slept;
    cbn [Retry.attempts];
    change (Num.le_nat attempt infinity) with true; cbn iota;
    [reflexivity|].
  unfold Sample.always_invalid at 1. cbn [Retry.rethrown_at_once
    Retry.category_of].
  change (Num.eq_nat attempt infinity) with false. cbn iota.
  apply IH.
Qed.

Lemma xs_length (n : nat) : String.length (Worlds.xs n) = n.
Proof. induction n; cbn; congruence. Qed.

Lemma xs_no_fragment (n : nat) : JS.includes (Worlds.xs n) "#" = false.
Proof. induction n as [|n IH]; [reflexivity|]. cbn. exact IH. Qed.

Lemma xs_lower (n : nat) : JS.toLowerCase (Worlds.xs n) = Worlds.xs n.
Proof. induction n as [|n IH]; [reflexivity|]. cbn. now rewrite IH. Qed.

Lemma xs_endsWith (n : nat) (c : ascii) (rest : string) :
  c <> "x"%char -> JS.endsWith (Worlds.xs n) (String c rest) = false.
Proof.
  intros Hc. induction n as [|n IH]; [reflexivity|].
  cbn [Worlds.xs JS.endsWith]. rewrite IH, orb_false_r.
  apply String.eqb_neq. intros [= Hx _]. now apply Hc.
Qed.

Lemma xs_no_extension (n : nat) :
  JS.matches_file_extension (Worlds.xs n) = false.
Proof.
  unfold JS.matches_file_extension. rewrite xs_lower.
  unfold JS.file_extensions. cbn [existsb].
  rewrite !xs_endsWith by discriminate. reflexivity.
Qed.

(** The crawl of the endless site with [maxPages] [Infinity]: from a
    queue that holds one URL longer than all the visited ones, the loop
    uses up whatever fuel it is given. *)
Lemma endless_loop :
  forall fuel n seen scraped gone depth_,
    (forall u, In u seen -> String.length u < n) ->
    Scraper.while_loop
      (url_api := Worlds.one_host)
      (browser := Sample.scraper_browser Worlds.endless_site)
      infinity None fuel
      (Scraper.mkLoop seen [Scraper.mkEntry (Worlds.xs n) depth_]
                      scraped gone)
      tt
    = None.
Proof.
  induction fuel as [|fuel IH]; intros n seen scraped gone depth_ Hseen;
    cbn [Scraper.while_loop]; unfold Scraper.loop_condition;
    cbn [Scraper.queue Scraper.results List.length Nat.ltb Nat.leb andb];
    change (Num.lt_nat (List.length scraped) infinity) with true;
    cbn iota; [reflexivity|].
  assert (Hnew : JS.Set_has seen (Worlds.xs n) = false).
  { apply Set_has_false. intros Hin. apply Hseen in Hin.
    rewrite xs_length in Hin. lia. }
  assert (Hnext : JS.Set_has (JS.Set_add seen (Worlds.xs n))
                             (Worlds.xs (S n)) = false).
  { apply Set_has_false. intros Hin. apply In_Set_add in Hin.
    destruct Hin as [Heq|Hin].
    - apply (f_equal String.length) in Heq. rewrite !xs_length in Heq. lia.
    - apply Hseen in Hin. rewrite xs_length in Hin. lia. }
  unfold Scraper.iteration.
  cbn [Scraper.queue Scraper.visited Scraper.results Scraper.dequeued
       Scraper.entry_url Scraper.depth].
  rewrite Hnew.
  unfold bind, caught, ret, Scraper.try_block.
  cbn [Scraper.browser_newPage Scraper.goto_and_read Scraper.page_close
       Sample.scraper_browser Worlds.endless_site
       Scraper.visited Scraper.queue Scraper.results Scraper.dequeued].
  unfold ret.
  cbn [Scraper.read_links Sample.plain_page Scraper.href_attributes
       JS.filter_Boolean filter JS.truthy fold_left].
  unfold Scraper.process_link.
  cbn [URL_href URL_hostname Worlds.one_host].
  change (String "x" (Worlds.xs n)) with (Worlds.xs (S n)).
  change (JS.truthy (Worlds.xs (S n))) with true. cbn iota.
  cbn [fold_left].
  rewrite Hnext, xs_no_fragment, xs_no_extension.
  cbn [String.eqb Ascii.eqb Bool.eqb negb andb app].
  apply IH.
  intros u Hin. apply In_Set_add in Hin. destruct Hin as [->|Hin].
  - rewrite xs_length. lia.
  - apply Hseen in Hin. lia.
Qed.

(** So [scrapeWebsite] does not return from it. *)
Lemma endless_crawl (fuel : nat) :
  Scraper.scrapeWebsite
    (url_api := Worlds.one_host)
    (browser := Sample.scraper_browser Worlds.endless_site)
    infinity None fuel "x" tt
  = None.
Proof.
  unfold Scraper.scrapeWebsite, Scraper.scrapeWebsite_run.
  cbn [Scraper.env_BROWSERBASE_API_KEY Scraper.puppeteer_connect
       Sample.scraper_browser negb]. unfold ret.
  change "x" with (Worlds.xs 1). unfold Scraper.start.
  rewrite (endless_loop fuel 1 [] [] [] 0); [reflexivity|].
  intros u [].
Qed.

(** Nor does [withRetry] from an operation that always fails. *)
Lemma endless_retry (fuel : nat) :
  Retry.withRetry Sample.always_invalid Sample.half infinity 1000 fuel = None.
Proof. apply withRetry_for_ever. Qed.

End Endless.

(* ================================================================== *)
(** * The models at work *)
(* ================================================================== *)

(** From a home page with ten links and [maxPages] 3, three pages are
    returned, in the order they were found, and eight entries stay
    queued. *)
Example ten_links_three_pages :
  exists st,
    Scraper.scrapeWebsite_run
      (url_api := Sample.urls)
      (browser := Sample.scraper_browser Sample.ten_links_site)
      3 None 10 "https://example.com/" tt
    = Some (tt, inr st)
    /\ map url (Scraper.results st)
       = ["https://example.com/"; "https://example.com/p0";
          "https://example.com/p1"]
    /\ List.length (Scraper.queue st) = 8.
Proof. eexists. split; [vm_compute; reflexivity|]. split; reflexivity. Qed.

(** On the small site the file and the other host are never queued, the
    page linked twice is queued twice and scraped once, and the levels
    come out in order. *)
Example small_site_crawl :
  exists st,
    Scraper.scrapeWebsite_run
      (url_api := Sample.urls)
      (browser := Sample.scraper_browser Sample.small_site)
      10 None 20 "https://example.com/" tt
    = Some (tt, inr st)
    /\ map (fun entry => (Scraper.entry_url entry, Scraper.depth entry))
           (Scraper.dequeued st)
       = [("https://example.com/", 0); ("https://example.com/a", 1);
          ("https://example.com/b", 1); ("https://example.com/a", 1);
          ("https://example.com/c", 2); ("https://example.com/d", 2)]
    /\ map url (Scraper.results st)
       = ["https://example.com/"; "https://example.com/a";
          "https://example.com/b"; "https://example.com/c"].
Proof. eexists. split; [vm_compute; reflexivity|]. split; reflexivity. Qed.

(** A payload without [maxPages]: the later task leaves its loop at once,
    the start URL still to visit, and returns no page; the earlier task
    hands [undefined] to [scrapeWebsite], whose default of five pages
    applies. *)
Example absent_maxPages :
  Task.scrapeWebsiteTask
    (browser := Sample.task_browser Sample.lookalike_site) 0
    (Task.mkPayload "https://example.com/" None false) "about:blank"
  = Some ("about:blank",
          inr (Task.mkTaskResult true (Some [])
                                 (Some (Task.mkStats 0 0 nan)) None))
  /\ (exists result scraped,
         FirstTask.scrapeWebsiteTask
           (url_api := Sample.urls)
           (browser := Sample.scraper_browser Sample.ten_links_site)
           (fun _ => "puppeteer") 10
           (FirstTask.mkPayload "https://example.com/" None None) tt
         = Some (tt, result)
         /\ FirstTask.results result = Some scraped
         /\ List.length scraped = 5).
Proof.
  split; [vm_compute; reflexivity|].
  do 2 eexists. split; [vm_compute; reflexivity|].
  split; reflexivity.
Qed.

(** Code fences around the answer of the model are removed before it is
    parsed. *)
Example fences_removed :
  JS.trim (Faq.replace_fences 0 Sample.one_reply) = Sample.one_text.
Proof. vm_compute. reflexivity. Qed.

(** A question of five characters does not pass [FAQSchema]. *)
Example short_question_rejected :
  Faq.FAQSchema_parse (fun s => JS.startsWith s "http")
    (Faq.JObject
       [("question", Faq.JString "Why?!");
        ("answer", Faq.JString "It generates FAQs from a website.");
        ("confidence", Faq.JNumber 0.9);
        ("sourceUrl", Faq.JString "https://example.com/");
        ("sourcePage", Faq.JString "Home")])
  = None.
Proof. reflexivity. Qed.

(** A count against a number that is not a count: two is below two and
    a half and three is not, nothing is below NaN or a negative number,
    every count is below [Infinity]; three counts are below 2.5, and
    three are at most 2.5. *)
Example counts_against_numbers :
  Num.lt_nat 2 2.5 = true /\ Num.lt_nat 3 2.5 = false
  /\ Num.lt_nat 0 nan = false /\ Num.lt_nat 0 (-1) = false
  /\ Num.lt_nat 7 infinity = true
  /\ Num.le_nat 3 3 = true /\ Num.eq_nat 3 3 = true
  /\ Num.le_nat 2 2.5 = true /\ Num.eq_nat 2 2.5 = false
  /\ Num.le_nat 3 2.5 = false
  /\ Num.counts_below 2.5 = Some 3 /\ Num.counts_below 5 = Some 5
  /\ Num.counts_upto 2.5 = Some 3 /\ Num.counts_below (-1) = Some 0.
Proof. repeat split. Qed.

(** The delays of [withRetry] are doubles: they round, and they end at
    [Infinity]. *)
Example delays_are_doubles :
  (Retry.delay Sample.half 1000 2 = 2500
   /\ Retry.delay (fun _ => 0.1) 0.1 1 = 100.1
   /\ Retry.delay (fun _ => 0.1) 0.7 1 = 100.7
   /\ (0.7 + 0.1 * 1000 =? 0.1 * 1000 + 0.7) = true
   /\ Retry.backoff 1000 1025 = infinity
   /\ Retry.backoff 0x1.fffffffffffffp+1023 2 = infinity)%float.
Proof. repeat split. Qed.

(** [Math.round] on halves, and on what is not a number. *)
Example Math_round_values :
  (Num.Math_round 2.5 = 3 /\ Num.Math_round 3.5 = 4
   /\ Num.Math_round 12.25 = 12 /\ Num.Math_round (0 / 0) = nan)%float.
Proof. repeat split. Qed.

(* ================================================================== *)
(** * The specification's statements on the retry executor *)
(* ================================================================== *)





(** C2 as the specification has it fails on a validation failure: the
    operation that the schema always rejects is called three times out of
    three, with two sleeps in between, where the specification allows one call. *)
Lemma C2_validation_failure_is_retried :
  Sample.always_invalid 1
  = inl (Retry.FAQGenerationError "schema" Retry.VALIDATION)
  /\ Retry.category_of (Retry.FAQGenerationError "schema" Retry.VALIDATION)
     = Some Retry.VALIDATION
  /\ Retry.withRetry Sample.always_invalid Sample.half 3 1000 3
     = Some (Retry.mkRun
               (inl (Some (Retry.FAQGenerationError "schema"
                             Retry.VALIDATION)))
               3 [1500%float; 2500%float]).
Proof. repeat split. Qed.

(** C2, amended (withRetry, generate-faq.ts).  When the failure observed
    at attempt [k] is a [FAQGenerationError] or [DatabaseError] of
    category [permanent], it is rethrown at once: the operation was called
    [k] times and no sleep follows (one call when [k] is 1).  A failure of
    category [validation] is treated as any other: while attempts remain
    ([k + 1 <= maxAttempts]) it is followed by the sleep of that attempt
    and the loop goes on to attempt [k + 1], so that a run that ends has
    made more than [k] calls; and the run does end unless [maxAttempts]
    is [Infinity]. *)
Theorem C2_permanent_failure_rethrown_at_once :
  forall (T : Type) (operation : nat -> Retry.Thrown + T)
         (Math_random : nat -> float) (maxAttempts delayMs : float)
         (k : nat) (e : Retry.Thrown),
    1 <= k ->
    Num.le_nat k maxAttempts = true ->
    (forall i, 1 <= i < k -> Retry.retried (operation i)) ->
    operation k = inl e ->
    (Retry.category_of e = Some Retry.PERMANENT ->
     forall fuel,
       k <= fuel ->
       exists run,
         Retry.withRetry operation Math_random maxAttempts delayMs fuel
         = Some run
         /\ Retry.outcome run = inl (Some e)
         /\ Retry.calls run = k
         /\ List.length (Retry.sleeps run) = k - 1)
    /\ (Retry.category_of e = Some Retry.VALIDATION ->
        Num.le_nat (k + 1) maxAttempts = true ->
        (forall fuel,
            k <= fuel ->
            Retry.withRetry operation Math_random maxAttempts delayMs fuel
            = Retry.attempts operation Math_random maxAttempts delayMs
                (fuel - k) (k + 1) (Some e)
                (map (Retry.delay Math_random delayMs) (seq 1 k)))
        /\ (forall fuel run,
               Retry.withRetry operation Math_random maxAttempts delayMs fuel
               = Some run ->
               k < Retry.calls run
               /\ nth_error (Retry.sleeps run) (k - 1)
                  = Some (Retry.delay Math_random delayMs k))
        /\ (maxAttempts <> infinity ->
            exists fuel run,
              Retry.withRetry operation Math_random maxAttempts delayMs fuel
              = Some run)).
Proof.
  intros T operation Math_random maxAttempts delayMs k e Hk Hle Hf He.
  assert (Hbefore : forall i, 1 <= i <= k - 1 ->
             Retry.retried (operation i) /\ Num.lt_nat i maxAttempts = true).
  { intros i Hi. split; [apply Hf; lia|].
    apply (le_nat_lt_nat i k); [exact Hle | lia]. }
  split.
  - intros Hp fuel Hfuel.
    destruct (withRetry_after_retried operation Math_random maxAttempts
                delayMs (k - 1) fuel) as (lastError & E);
      [lia | exact Hbefore |].
    rewrite E.
    destruct (fuel - (k - 1)) as [|left] eqn:L; [lia|].
    replace (1 + (k - 1)) with k by lia.
    cbn [Retry.attempts]. rewrite Hle, He, (permanent_at_once e Hp).
    eexists. split; [reflexivity|]. cbn.
    rewrite length_map, length_seq. auto.
  - intros Hv Hnext.
    assert (Hall : forall i, 1 <= i <= k ->
               Retry.retried (operation i)
               /\ Num.lt_nat i maxAttempts = true).
    { intros i Hi. split.
      - destruct (Nat.eq_dec i k) as [->|Hne].
        + exists e. split; [exact He | congruence].
        + apply Hf. lia.
      - apply (le_nat_lt_nat i (k + 1)); [exact Hnext | lia]. }
    assert (Hstate : forall fuel,
               k <= fuel ->
               Retry.withRetry operation Math_random maxAttempts delayMs fuel
               = Retry.attempts operation Math_random maxAttempts delayMs
                   (fuel - k) (k + 1) (Some e)
                   (map (Retry.delay Math_random delayMs) (seq 1 k))).
    { intros fuel Hfuel.
      destruct (withRetry_after_retried operation Math_random maxAttempts
                  delayMs (k - 1) fuel) as (lastError & E);
        [lia | exact Hbefore |].
      rewrite E.
      destruct (fuel - (k - 1)) as [|left] eqn:L; [lia|].
      replace (1 + (k - 1)) with k by lia.
      cbn [Retry.attempts].
      destruct (Hall k ltac:(lia)) as ((e' & He' & Hc) & Hlt).
      rewrite lt_nat_le_neq in Hlt. apply andb_true_iff in Hlt.
      destruct Hlt as (_ & Hne). apply negb_true_iff in Hne.
      assert (e' = e) by congruence. subst e'.
      rewrite Hle, He, (retried_not_at_once e Hc), Hne.
      replace (fuel - k) with left by lia.
      replace (S k) with (k + 1) by lia.
      f_equal.
      replace k with (k - 1 + 1) at 3 by lia.
      rewrite seq_app, map_app. cbn [seq map].
      replace (1 + (k - 1)) with k by lia. reflexivity. }
    split; [exact Hstate|]. split.
    + intros fuel run Hrun. split.
      * pose proof (withRetry_needs_fuel operation Math_random maxAttempts
                      delayMs k fuel run Hall Hrun) as Hfuel.
        rewrite (Hstate fuel Hfuel) in Hrun.
        pose proof (attempts_calls operation Math_random maxAttempts delayMs
                      _ _ _ _ _ Hrun Hnext).
        lia.
      * exact (sleep_after_retried operation Math_random maxAttempts delayMs
                 k fuel run Hk Hall Hrun).
    + apply withRetry_terminates.
Qed.

(** The amended C2 at work: the refused operation is called once; the
    rejected one is called again after its first failure. *)
Lemma C2_permanent_failure_rethrown_at_once_witness :
  (exists run,
      Retry.withRetry Sample.denied Sample.half 3 1000 3 = Some run
      /\ Retry.calls run = 1
      /\ Retry.outcome run
         = inl (Some (Retry.DatabaseError "denied" Retry.PERMANENT)))
  /\ (forall run,
         Retry.withRetry Sample.always_invalid Sample.half 3 1000 3
         = Some run ->
         1 < Retry.calls run).
Proof.
  assert (Hnone : forall op : nat -> Retry.Thrown + nat,
             forall i, 1 <= i < 1 -> Retry.retried (op i))
    by (intros op i Hi; lia).
  destruct (C2_permanent_failure_rethrown_at_once nat Sample.denied
              Sample.half 3 1000 1
              (Retry.DatabaseError "denied" Retry.PERMANENT))
    as (Hperm & _); [lia | reflexivity | apply Hnone | reflexivity |].
  destruct (Hperm eq_refl 3) as (run & Hrun & Hout & Hcalls & _); [lia|].
  destruct (C2_permanent_failure_rethrown_at_once nat Sample.always_invalid
              Sample.half 3 1000 1
              (Retry.FAQGenerationError "schema" Retry.VALIDATION))
    as (_ & Hval); [lia | reflexivity | apply Hnone | reflexivity |].
  destruct (Hval eq_refl eq_refl) as (_ & Hmore & _).
  split.
  - exists run. auto.
  - intros run' Hrun'. apply (Hmore 3 run' Hrun').
Defined.

(* ================================================================== *)
(** * From the loops to the two entry points *)
(* ================================================================== *)

Section ScraperRuns.

Import Scraper.

Context {url_api : UrlApi} {W : Type} {browser : Puppeteer W}.
Variable maxPages : float.
Variable onProgress : option (ProgressCallback W).

(** [scrapeWebsite] comes back, unless [maxPages] is [Infinity]. *)
Lemma scrapeWebsite_run_terminates (startUrl : string) (w : W) :
  maxPages <> infinity ->
  exists fuel, scrapeWebsite_run maxPages onProgress fuel startUrl w <> None.
Proof.
  intros Hfinite. unfold scrapeWebsite_run.
  destruct (env_BROWSERBASE_API_KEY w); cbn.
  - destruct (puppeteer_connect w) as [w1 [e|[]]].
    + exists 0. discriminate.
    + destruct (while_loop_terminates maxPages onProgress Hfinite
                  (start startUrl) w1) as (fuel & Hf).
      exists fuel.
      destruct (while_loop maxPages onProgress fuel (start startUrl) w1)
        as [[w2 r]|]; [|contradiction].
      destruct (browser_close w2) as [w3 [e|[]]]; discriminate.
  - exists 0. discriminate.
Qed.

(** When it returns, the loop ran from [start] to a state where its
    condition fails. *)
Lemma scrapeWebsite_run_reaches (fuel : nat) (startUrl : string) (w w' : W)
      (st : Loop) :
  scrapeWebsite_run maxPages onProgress fuel startUrl w = Some (w', inr st) ->
  exists w1 w2,
    reaches maxPages onProgress (start startUrl) w1 st w2
    /\ loop_condition maxPages st = false.
Proof.
  unfold scrapeWebsite_run.
  destruct (env_BROWSERBASE_API_KEY w); cbn; [|discriminate].
  destruct (puppeteer_connect w) as [w1 [e|[]]]; [discriminate|].
  destruct (while_loop maxPages onProgress fuel (start startUrl) w1)
    as [[w2 r]|] eqn:L; [|discriminate].
  destruct (browser_close w2) as [w3 [e|[]]]; [discriminate|].
  intros [= <- ->].
  exists w1, w2.
  eapply while_loop_reaches; [apply reaches_start | exact L].
Qed.

Lemma scrapeWebsite_terminates (startUrl : string) (w : W) :
  maxPages <> infinity ->
  exists fuel, scrapeWebsite maxPages onProgress fuel startUrl w <> None.
Proof.
  intros Hfinite.
  destruct (scrapeWebsite_run_terminates startUrl w Hfinite) as (fuel & Hf).
  exists fuel. unfold scrapeWebsite.
  destruct (scrapeWebsite_run maxPages onProgress fuel startUrl w)
    as [[w' [e|st]]|]; [discriminate | discriminate | contradiction].
Qed.

(** What [scrapeWebsite] returns is the [results] of such a state. *)
Lemma scrapeWebsite_results (fuel : nat) (startUrl : string) (w w' : W)
      (pages : list ScrapedPage) :
  scrapeWebsite maxPages onProgress fuel startUrl w = Some (w', inr pages) ->
  exists st,
    scrapeWebsite_run maxPages onProgress fuel startUrl w = Some (w', inr st)
    /\ results st = pages.
Proof.
  unfold scrapeWebsite.
  destruct (scrapeWebsite_run maxPages onProgress fuel startUrl w)
    as [[w1 [e|st]]|]; [discriminate | | discriminate].
  intros [= <- <-]. exists st. auto.
Qed.

End ScraperRuns.

Section TaskRuns.

Import Task.

Context {W : Type} {browser : Puppeteer W}.

(** The local variables when the loop of the task is entered. *)
Lemma task_start_each_once (startUrl : string) :
  each_once (mkLoop [] [startUrl] []).
Proof. repeat split; cbn; try constructor. intros ? []. Qed.

(** [scrapeWebsiteTask] settles, unless [maxPages] is [Infinity]. *)
Lemma run_with_state_terminates (payload : TaskPayload) (w : W) :
  maxPages_of payload <> infinity ->
  exists fuel, run_with_state fuel payload w <> None.
Proof.
  intros Hfinite. unfold run_with_state, try_block.
  destruct (initializeBrowser (siteOwner payload) w) as [w1 [e|[]]].
  - exists 0. discriminate.
  - destruct ((browser_newPage;;; page_setViewport)%eff w1) as [w2 [e|[]]].
    + exists 0. destruct (browser_close w2) as [w3 [e'|[]]]; discriminate.
    + destruct (task_loop_terminates (siteOwner payload)
                  (maxPages_of payload) Hfinite
                  (mkLoop [] [payload_url payload] []) w2) as (fuel & Hf).
      exists fuel.
      destruct (while_loop fuel (siteOwner payload) (maxPages_of payload)
                  (mkLoop [] [payload_url payload] []) w2)
        as [[w3 st]|]; [|contradiction].
      destruct (browser_close w3) as [w4 [e'|[]]]; discriminate.
Qed.

Lemma scrapeWebsiteTask_terminates (payload : TaskPayload) (w : W) :
  maxPages_of payload <> infinity ->
  exists fuel, scrapeWebsiteTask fuel payload w <> None.
Proof.
  intros Hfinite.
  destruct (run_with_state_terminates payload w Hfinite) as (fuel & Hf).
  exists fuel. unfold scrapeWebsiteTask.
  destruct (run_with_state fuel payload w) as [[[w' final] r]|];
    [discriminate | contradiction].
Qed.

(** A final loop state comes from the loop, and then the task returns
    the success object made of its results. *)
Lemma run_with_state_loop (fuel : nat) (payload : TaskPayload) (w w' : W)
      (st : Loop) (r : string + TaskResult) :
  run_with_state fuel payload w = Some (w', Some st, r) ->
  (exists w1 w2,
      while_loop fuel (siteOwner payload) (maxPages_of payload)
                 (mkLoop [] [payload_url payload] []) w1
      = Some (w2, st))
  /\ (forall result, r = inr result -> result = success_result (results st)).
Proof.
  unfold run_with_state, try_block.
  destruct (initializeBrowser (siteOwner payload) w) as [w1 [e|[]]];
    [discriminate|].
  destruct ((browser_newPage;;; page_setViewport)%eff w1) as [w2 [e|[]]].
  - destruct (browser_close w2) as [w3 [e'|[]]]; discriminate.
  - destruct (while_loop fuel (siteOwner payload) (maxPages_of payload)
                (mkLoop [] [payload_url payload] []) w2)
      as [[w3 st3]|] eqn:L; [|discriminate].
    destruct (browser_close w3) as [w4 [e'|[]]]; intros [= <- <- <-].
    + split; [eauto | discriminate].
    + split; [eauto | now intros result [= <-]].
Qed.

(** A result that carries pages is such a success object. *)
Lemma scrapeWebsiteTask_pages (fuel : nat) (payload : TaskPayload) (w w' : W)
      (result : TaskResult) (scraped : list ScrapedPage) :
  scrapeWebsiteTask fuel payload w = Some (w', inr result) ->
  pages result = Some scraped ->
  exists st,
    run_with_state fuel payload w = Some (w', Some st, inr result)
    /\ results st = scraped
    /\ result = success_result scraped.
Proof.
  unfold scrapeWebsiteTask.
  destruct (run_with_state fuel payload w) as [[[w1 final] r]|] eqn:R;
    [|discriminate].
  intros [= <- ->] Hp.
  destruct final as [st|].
  - destruct (run_with_state_loop _ _ _ _ _ _ R) as (_ & Hres).
    specialize (Hres result eq_refl). subst result. cbn in Hp.
    injection Hp as <-. exists st. auto.
  - exfalso. revert R. unfold run_with_state.
    destruct (try_block fuel payload w) as [[[w2 [m|st]] assigned]|];
      [| |discriminate];
      (destruct assigned; [destruct (browser_close w2) as [w3 [e'|[]]]|]);
      intros R; inversion R; subst; discriminate Hp.
Qed.

End TaskRuns.

(* ================================================================== *)
(** * The specification's statements on the crawlers *)
(* ================================================================== *)

(** C4 as the specification has it fails for a [maxPages] that is not an
    integer: with [maxPages] 2.5, from a home page with ten links,
    [scrapeWebsite] returns three pages, and so does [scrapeWebsiteTask]
    on the site of three pages.  The third page is pushed while
    [results.length], 2, is below 2.5.  It fails for a negative
    [maxPages] as well, in the letter: the empty list then returned has
    more elements, none, than [maxPages]. *)
Lemma C4_fractional_maxPages_exceeded :
  (exists scraped,
      Scraper.scrapeWebsite
        (url_api := Sample.urls)
        (browser := Sample.scraper_browser Sample.ten_links_site)
        2.5 None 10 "https://example.com/" tt
      = Some (tt, inr scraped)
      /\ List.length scraped = 3
      /\ (2.5 <? Num.of_nat (List.length scraped))%float = true)
  /\ (exists scraped,
         Scraper.scrapeWebsite
           (url_api := Sample.urls)
           (browser := Sample.scraper_browser Sample.ten_links_site)
           (-1) None 10 "https://example.com/" tt
         = Some (tt, inr scraped)
         /\ List.length scraped = 0
         /\ (-1 <? Num.of_nat (List.length scraped))%float = true)
  /\ (exists w' result scraped,
         Task.scrapeWebsiteTask
           (browser := Sample.task_browser Sample.lookalike_site) 10
           (Task.mkPayload "https://example.com/" (Some 2.5%float) false)
           "about:blank"
         = Some (w', inr result)
         /\ Task.pages result = Some scraped
         /\ List.length scraped = 3
         /\ (2.5 <? Num.of_nat (List.length scraped))%float = true).
Proof.
  split; [|split].
  - eexists. split; [vm_compute; reflexivity|]. split; reflexivity.
  - eexists. split; [vm_compute; reflexivity|]. split; reflexivity.
  - do 3 eexists. split; [vm_compute; reflexivity|].
    split; [reflexivity|]. split; reflexivity.
Qed.

(** C4, amended (scrapeWebsite, test-scraper.ts; scrapeWebsiteTask,
    scrape-website.ts).  Whatever the site, the start URL and the number
    [maxPages], the list of pages returned is empty or would, without
    its last page, be shorter than [maxPages]: a page is pushed only
    while [results.length < maxPages].  So the list has at most
    [maxPages] elements when [maxPages] is a non-negative integer, and
    in general at most as many as there are counts below [maxPages].
    Both crawls end unless [maxPages] is [Infinity]. *)
Theorem C4_results_within_maxPages :
  forall (url_api : UrlApi) (W : Type) (browser : Scraper.Puppeteer W)
         (maxPages : float) (onProgress : option (Scraper.ProgressCallback W))
         (startUrl : string) (w : W)
         (W' : Type) (browser' : Task.Puppeteer W')
         (payload : Task.TaskPayload) (w0 : W'),
    ((maxPages <> infinity ->
      exists fuel,
        Scraper.scrapeWebsite maxPages onProgress fuel startUrl w <> None)
     /\ (forall fuel w' scraped,
            Scraper.scrapeWebsite maxPages onProgress fuel startUrl w
            = Some (w', inr scraped) ->
            (forall n, List.length scraped = S n ->
                       Num.lt_nat n maxPages = true)
            /\ (forall limit, Num.eq_nat limit maxPages = true ->
                              List.length scraped <= limit)
            /\ (forall room, Num.counts_below maxPages = Some room ->
                             List.length scraped <= room)))
    /\ ((Task.maxPages_of payload <> infinity ->
         exists fuel, Task.scrapeWebsiteTask fuel payload w0 <> None)
        /\ (forall fuel w' result scraped,
               Task.scrapeWebsiteTask fuel payload w0 = Some (w', inr result) ->
               Task.pages result = Some scraped ->
               (forall n, List.length scraped = S n ->
                          Num.lt_nat n (Task.maxPages_of payload) = true)
               /\ (forall limit,
                      Num.eq_nat limit (Task.maxPages_of payload) = true ->
                      List.length scraped <= limit)
               /\ (forall room,
                      Num.counts_below (Task.maxPages_of payload)
                      = Some room ->
                      List.length scraped <= room))).
Proof.
  intros url_api W browser maxPages onProgress startUrl w
         W' browser' payload w0.
  assert (Hbounds : forall (budget : float) (scraped : list ScrapedPage),
             (forall n, List.length scraped = S n ->
                        Num.lt_nat n budget = true) ->
             (forall limit, Num.eq_nat limit budget = true ->
                            List.length scraped <= limit)
             /\ (forall room, Num.counts_below budget = Some room ->
                              List.length scraped <= room)).
  { intros budget scraped Hlast.
    assert (Hroom : forall room, Num.counts_below budget = Some room ->
                                 List.length scraped <= room).
    { intros room Hr. destruct (List.length scraped) as [|n] eqn:L; [lia|].
      specialize (Hlast n eq_refl).
      rewrite lt_nat_counts_below, Hr in Hlast.
      apply Nat.ltb_lt in Hlast. lia. }
    split; [|exact Hroom].
    intros limit Hl. apply Hroom.
    now destruct (eq_nat_counts limit budget Hl). }
  split; split.
  - apply scrapeWebsite_terminates.
  - intros fuel w' scraped H.
    apply scrapeWebsite_results in H as (st & Hrun & <-).
    apply scrapeWebsite_run_reaches in Hrun as (w1 & w2 & Hreach & _).
    pose proof (reaches_invariant maxPages onProgress
                  (Scraper.within_budget maxPages)
                  (within_budget_step maxPages) _ _ _ _
                  (start_within_budget maxPages startUrl) Hreach) as Hb.
    split; [exact Hb | now apply Hbounds].
  - apply scrapeWebsiteTask_terminates.
  - intros fuel w' result scraped H Hp.
    destruct (scrapeWebsiteTask_pages _ _ _ _ _ _ H Hp) as (st & Hrun & <- & _).
    destruct (run_with_state_loop _ _ _ _ _ _ Hrun) as ((w1 & w2 & Hloop) & _).
    apply (task_loop_invariant
             (Task.within_budget (Task.maxPages_of payload))
             (Task.siteOwner payload) (Task.maxPages_of payload)
             (task_within_budget_step (Task.maxPages_of payload))
             _ _ _ _ _) in Hloop as [Hb _].
    + split; [exact Hb | now apply Hbounds].
    + unfold Task.within_budget. cbn. intros n Hn. discriminate.
Qed.

(** The amended C4 at work: with a budget of three pages, three of the
    eleven pages of the site are returned. *)
Lemma C4_results_within_maxPages_witness :
  exists scraped,
    Scraper.scrapeWebsite
      (url_api := Sample.urls)
      (browser := Sample.scraper_browser Sample.ten_links_site)
      3 None 10 "https://example.com/" tt
    = Some (tt, inr scraped)
    /\ Num.eq_nat 3 3 = true
    /\ List.length scraped <= 3.
Proof.
  eexists. split; [vm_compute; reflexivity|]. split; [reflexivity|].
  destruct (C4_results_within_maxPages
              Sample.urls unit
              (Sample.scraper_browser Sample.ten_links_site)
              3 None "https://example.com/" tt
              string (Sample.task_browser Sample.lookalike_site)
              (Task.mkPayload "https://example.com/" (Some 3%float) false)
              "about:blank")
    as ((_ & Hscraper) & _).
  destruct (Hscraper 10 tt _ ltac:(vm_compute; reflexivity))
    as (_ & Hlimit & _).
  apply (Hlimit 3). reflexivity.
Defined.

(** C5 (scrapeWebsite, test-scraper.ts; scrapeWebsiteTask,
    scrape-website.ts).  In both crawls, which end unless [maxPages] is
    [Infinity], the visited set holds no URL twice and neither does the
    list of pages; an iteration that dequeues a visited URL does nothing
    else. *)
Theorem C5_each_url_once :
  forall (url_api : UrlApi) (W : Type) (browser : Scraper.Puppeteer W)
         (maxPages : float) (onProgress : option (Scraper.ProgressCallback W))
         (startUrl : string) (w : W)
         (W' : Type) (browser' : Task.Puppeteer W')
         (payload : Task.TaskPayload) (w0 : W'),
    ((maxPages <> infinity ->
      exists fuel,
        Scraper.scrapeWebsite_run maxPages onProgress fuel startUrl w <> None)
     /\ (forall fuel w' st,
            Scraper.scrapeWebsite_run maxPages onProgress fuel startUrl w
            = Some (w', inr st) ->
            NoDup (Scraper.visited st)
            /\ NoDup (map url (Scraper.results st)))
     /\ (forall st entry rest w1,
            Scraper.queue st = entry :: rest ->
            JS.Set_has (Scraper.visited st) (Scraper.entry_url entry) = true ->
            Scraper.iteration onProgress st w1
            = (w1, inr (Scraper.mkLoop (Scraper.visited st) rest
                                       (Scraper.results st)
                                       (Scraper.dequeued st ++ [entry])))))
    /\ ((Task.maxPages_of payload <> infinity ->
         exists fuel, Task.run_with_state fuel payload w0 <> None)
        /\ (forall fuel w' st r,
               Task.run_with_state fuel payload w0 = Some (w', Some st, r) ->
               NoDup (Task.visited st)
               /\ NoDup (map url (Task.results st)))
        /\ (forall fuel w' result scraped,
               Task.scrapeWebsiteTask fuel payload w0 = Some (w', inr result) ->
               Task.pages result = Some scraped ->
               NoDup (map url scraped))
        /\ (forall owner st currentUrl rest w1,
               Task.toVisit st = currentUrl :: rest ->
               JS.Set_has (Task.visited st) currentUrl = true ->
               Task.iteration owner st w1
               = (w1, Task.mkLoop (Task.visited st) rest (Task.results st)))).
Proof.
  intros url_api W browser maxPages onProgress startUrl w
         W' browser' payload w0.
  assert (Htask : forall fuel w' st r,
             Task.run_with_state fuel payload w0 = Some (w', Some st, r) ->
             Task.each_once st).
  { intros fuel w' st r Hrun.
    destruct (run_with_state_loop _ _ _ _ _ _ Hrun) as ((w1 & w2 & Hloop) & _).
    apply (task_loop_invariant Task.each_once
             (Task.siteOwner payload) (Task.maxPages_of payload)
             (fun st st' H _ Hs => task_each_once_step st st' H Hs)
             _ _ _ _ _ (task_start_each_once (Task.payload_url payload)))
      in Hloop as [Hb _].
    exact Hb. }
  split; [split; [|split] | split; [|split; [|split]]].
  - apply scrapeWebsite_run_terminates.
  - intros fuel w' st Hrun.
    apply scrapeWebsite_run_reaches in Hrun as (w1 & w2 & Hreach & _).
    destruct (reaches_invariant maxPages onProgress Scraper.each_once
                (each_once_step maxPages) _ _ _ _
                (start_each_once startUrl) Hreach) as (Hv & Hr & _).
    auto.
  - intros st entry rest w1 Q Hseen.
    unfold Scraper.iteration. rewrite Q.
    cbn [Scraper.visited Scraper.queue Scraper.results Scraper.dequeued
         Scraper.entry_url].
    rewrite Hseen. reflexivity.
  - apply run_with_state_terminates.
  - intros fuel w' st r Hrun.
    destruct (Htask fuel w' st r Hrun) as (Hv & Hr & _). auto.
  - intros fuel w' result scraped H Hp.
    destruct (scrapeWebsiteTask_pages _ _ _ _ _ _ H Hp) as (st & Hrun & <- & _).
    destruct (Htask fuel w' st _ Hrun) as (_ & Hr & _). exact Hr.
  - intros owner st currentUrl rest w1 Q Hseen.
    unfold Task.iteration. rewrite Q.
    cbn [Task.visited Task.toVisit Task.results].
    rewrite Hseen. reflexivity.
Qed.


(** The part of C3 that holds (scrapeWebsite, test-scraper.ts): all along
    every crawl, every URL that was queued and every page produced has the
    hostname of the start URL, so does every page returned, and a link
    goes through [process_link] only with the hostname of the page it was
    found on. *)
Theorem scrapeWebsite_stays_on_host :
  forall (url_api : UrlApi) (W : Type) (browser : Scraper.Puppeteer W)
         (maxPages : float) (onProgress : option (Scraper.ProgressCallback W))
         (startUrl : string),
    (forall w st w',
        Scraper.reaches maxPages onProgress (Scraper.start startUrl) w st w' ->
        (forall entry,
            In entry (Scraper.dequeued st ++ Scraper.queue st) ->
            URL_hostname (Scraper.entry_url entry) = URL_hostname startUrl)
        /\ (forall page,
               In page (Scraper.results st) ->
               URL_hostname (url page) = URL_hostname startUrl))
    /\ (forall w,
           (maxPages <> infinity ->
            exists fuel,
              Scraper.scrapeWebsite maxPages onProgress fuel startUrl w
              <> None)
           /\ (forall fuel w' scraped page,
                  Scraper.scrapeWebsite maxPages onProgress fuel startUrl w
                  = Some (w', inr scraped) ->
                  In page scraped ->
                  URL_hostname (url page) = URL_hostname startUrl)).
Proof.
  intros url_api W browser maxPages onProgress startUrl.
  assert (Hhost : forall w st w',
             Scraper.reaches maxPages onProgress (Scraper.start startUrl)
                             w st w' ->
             Scraper.same_host startUrl st).
  { intros w st w' Hreach.
    apply (reaches_invariant maxPages onProgress (Scraper.same_host startUrl)
             (same_host_step maxPages startUrl) _ _ _ _
             (start_same_host startUrl) Hreach). }
  split; [exact Hhost|].
  intros w. split; [apply scrapeWebsite_terminates|].
  intros fuel w' scraped page H Hin.
  apply scrapeWebsite_results in H as (st & Hrun & <-).
  apply scrapeWebsite_run_reaches in Hrun as (w1 & w2 & Hreach & _).
  destruct (Hhost _ _ _ Hreach) as (_ & Hr). now apply Hr.
Qed.

(** C3 fails for [scrapeWebsiteTask] (scrape-website.ts): its link filter
    asks whether the link contains the hostname of the page
    ([href.includes(domain)]), not whether it has that hostname.  From
    [https://example.com/], whose page links to
    [https://example.com.evil.org/], the task returns a page of that other
    host. *)
Theorem C3_task_leaves_the_host :
  exists w' result scraped,
    Task.scrapeWebsiteTask
      (browser := Sample.task_browser Sample.lookalike_site) 10
      (Task.mkPayload "https://example.com/" (Some 5%float) false) "about:blank"
    = Some (w', inr result)
    /\ Task.pages result = Some scraped
    /\ map url scraped
       = ["https://example.com/"; "https://example.com/about";
          "https://example.com.evil.org/"]
    /\ Task.same_domain_link "example.com" "https://example.com.evil.org/"
       = true
    /\ Sample.hostname_of "https://example.com.evil.org/"
       = Some "example.com.evil.org"
    /\ Sample.hostname_of "https://example.com/" = Some "example.com".
Proof.
  do 3 eexists. split; [vm_compute; reflexivity|].
  split; [reflexivity|]. repeat split.
Qed.

(** C8 as the specification has it fails: from a home page that links to
    [https://example.com/page] twice, under two fragments, nothing is
    queued at all.  The fragment-free URL, which the site does serve, is
    never queued, visited or returned. *)
Lemma C8_fragment_links_queue_nothing :
  exists st,
    Scraper.scrapeWebsite_run
      (url_api := Sample.urls)
      (browser := Sample.scraper_browser Sample.fragment_site)
      5 None 10 "https://example.com/" tt
    = Some (tt, inr st)
    /\ map Scraper.entry_url (Scraper.dequeued st ++ Scraper.queue st)
       = ["https://example.com/"]
    /\ map url (Scraper.results st) = ["https://example.com/"]
    /\ Sample.spec_strip_fragment "https://example.com/page#section"
       = "https://example.com/page"
    /\ Sample.spec_strip_fragment "https://example.com/page#other"
       = "https://example.com/page"
    /\ count_occ string_dec
         (map Scraper.entry_url (Scraper.dequeued st ++ Scraper.queue st))
         "https://example.com/page"
       = 0
    /\ (exists document,
          Sample.fragment_site "https://example.com/page" = Some document).
Proof.
  eexists. split; [vm_compute; reflexivity|].
  repeat split. eexists. reflexivity.
Qed.

(** C8, amended (scrapeWebsite, test-scraper.ts).  A discovered link whose
    absolute form contains [#] is not normalized but dropped: the loop
    over the links leaves the queue as it is, however often the link is
    seen and with whatever fragment.  So, all along every crawl, every
    queued URL other than the start URL is free of [#]. *)
Theorem C8_fragment_links_are_dropped :
  forall (url_api : UrlApi) (W : Type) (browser : Scraper.Puppeteer W)
         (maxPages : float) (onProgress : option (Scraper.ProgressCallback W)),
    (forall currentUrl d seen q link absoluteUrl,
        URL_href link currentUrl = Some absoluteUrl ->
        JS.includes absoluteUrl "#" = true ->
        Scraper.process_link currentUrl d seen q link = q)
    /\ (forall startUrl w st w' entry,
           Scraper.reaches maxPages onProgress (Scraper.start startUrl)
                           w st w' ->
           In entry (Scraper.dequeued st ++ Scraper.queue st) ->
           entry = Scraper.mkEntry startUrl 0
           \/ JS.includes (Scraper.entry_url entry) "#" = false).
Proof.
  intros url_api W browser maxPages onProgress. split.
  - intros currentUrl d seen q link absoluteUrl Ha Hf.
    unfold Scraper.process_link. rewrite Ha.
    destruct (URL_hostname absoluteUrl); [|reflexivity].
    destruct (URL_hostname currentUrl); [|reflexivity].
    rewrite Hf. cbn. now rewrite !andb_false_r.
  - intros startUrl w st w' entry Hreach Hin.
    pose proof (reaches_invariant maxPages onProgress
                  (Scraper.discovered_clean startUrl)
                  (discovered_clean_step maxPages startUrl) _ _ _ _
                  (start_discovered_clean startUrl) Hreach) as Hclean.
    destruct (Hclean entry Hin) as [->|(_ & Hf & _)]; auto.
Qed.

(** The amended C8 at work on the links of the home page above. *)
Lemma C8_fragment_links_are_dropped_witness :
  Scraper.process_link (url_api := Sample.urls) "https://example.com/" 0
                       ["https://example.com/"] []
                       "https://example.com/page#section"
  = []
  /\ Scraper.process_link (url_api := Sample.urls) "https://example.com/" 0
                          ["https://example.com/"] []
                          "https://example.com/page#other"
     = [].
Proof.
  destruct (C8_fragment_links_are_dropped Sample.urls unit
              (Sample.scraper_browser Sample.fragment_site) 5 None)
    as (Hdrop & _).
  split.
  - apply (Hdrop _ _ _ _ _ "https://example.com/page#section"); reflexivity.
  - apply (Hdrop _ _ _ _ _ "https://example.com/page#other"); reflexivity.
Defined.

(** C9 (scrapeWebsiteTask, scrape-website.ts).  When the loop of the task
    ends with no page scraped, the object the task returns has
    [success: true], an empty list of pages, [totalPages] 0 and
    [totalContent] 0; its [averageContentLength], though, is no number
    that stands for no content: the division by [results.length] is not
    guarded, and the field is what [Math.round(0 / 0)] gives, NaN. *)
Theorem C9_no_page_is_still_success :
  forall (W : Type) (browser : Task.Puppeteer W) (fuel : nat)
         (payload : Task.TaskPayload) (w w' : W) (st : Task.Loop)
         (result : Task.TaskResult),
    Task.run_with_state fuel payload w = Some (w', Some st, inr result) ->
    Task.results st = [] ->
    Task.scrapeWebsiteTask fuel payload w = Some (w', inr result)
    /\ result
       = Task.mkTaskResult true (Some []) (Some (Task.mkStats 0 0 nan)) None
    /\ (forall s, Task.stats result = Some s ->
                  PrimFloat.is_nan (Task.averageContentLength s) = true).
Proof.
  intros W browser fuel payload w w' st result Hrun Hnone.
  destruct (run_with_state_loop _ _ _ _ _ _ Hrun) as (_ & Hres).
  specialize (Hres result eq_refl). rewrite Hnone in Hres.
  split; [|split].
  - unfold Task.scrapeWebsiteTask. now rewrite Hrun.
  - rewrite Hres. reflexivity.
  - rewrite Hres. intros s [= <-]. reflexivity.
Qed.

(** The defect at work: on a site where nothing loads the task returns
    that object, with NaN for an average. *)
Lemma C9_no_page_is_still_success_witness :
  Task.scrapeWebsiteTask
    (browser := Sample.task_browser Sample.dead_site) 5
    (Task.mkPayload "https://example.com/" (Some 5%float) true) "about:blank"
  = Some ("about:blank",
          inr (Task.mkTaskResult true (Some [])
                                 (Some (Task.mkStats 0 0 nan)) None)).
Proof.
  destruct (C9_no_page_is_still_success string
              (Sample.task_browser Sample.dead_site) 5
              (Task.mkPayload "https://example.com/" (Some 5%float) true)
              "about:blank" "about:blank"
              (Task.mkLoop [] [] [])
              (Task.mkTaskResult true (Some [])
                                 (Some (Task.mkStats 0 0 nan)) None))
    as (Hrun & _); [reflexivity | reflexivity | exact Hrun].
Defined.

(* ================================================================== *)
(** * The specification's statements on the FAQ task *)
(* ================================================================== *)

(** What the task returns once the model has answered and the answer went
    through the parser and the schemas. *)
Lemma generateFAQTask_parsed {W : Type} {services : Faq.Services W}
      (payload : Faq.TaskPayload) (w w0 w1 : W) (startTime : Z)
      (reply : string) (parsed : list Faq.FAQ) :
  Faq.Date_now w = (w0, startTime) ->
  Faq.generateText (Faq.combinedContent (Faq.payload_pages payload)) w0
  = (w1, inr reply) ->
  Faq.parse_response reply = inr parsed ->
  exists processingTime,
    snd (Faq.generateFAQTask payload w)
    = Faq.mkTaskResult true None (Some reply) None
        (Some (Faq.mkStats (List.length parsed) 1
                           (Faq.estimateTokens reply 4)
                           (Faq.average_confidence parsed)
                           processingTime "gpt-4o"))
        None.
Proof.
  intros Hnow Hgen Hparse. unfold Faq.generateFAQTask.
  rewrite Hnow, Hgen, Hparse.
  destruct (Faq.Date_now w1) as [w2 logged].
  destruct (Faq.Date_now w2) as [w3 endTime].
  exists (endTime - startTime)%Z. reflexivity.
Qed.

(** The task never sets [faqs]. *)
Lemma generateFAQTask_no_faqs {W : Type} {services : Faq.Services W}
      (payload : Faq.TaskPayload) (w : W) :
  Faq.faqs (snd (Faq.generateFAQTask payload w)) = None.
Proof.
  unfold Faq.generateFAQTask.
  destruct (Faq.Date_now w) as [w0 startTime].
  destruct (Faq.generateText _ w0) as [w1 [message|reply]].
  - destruct (Faq.Date_now w1). reflexivity.
  - destruct (Faq.parse_response reply) as [message|parsed].
    + destruct (Faq.Date_now w1). reflexivity.
    + destruct (Faq.Date_now w1) as [w2 logged].
      destruct (Faq.Date_now w2). reflexivity.
Qed.

(** C1 as the specification has it fails: for an answer with one valid
    record of confidence 0.5, the task returns the same value under
    [minConfidence] 0.7 and under 0.3.  No [faqs] list is returned, the
    raw answer is, and the record is counted.  So, whatever being included
    in the returned result means, the record is not excluded in the first
    case and included in the second. *)
Lemma C1_minConfidence_changes_nothing :
  let services :=
    Sample.faq_services Sample.one_reply [(Sample.one_text, Sample.one_value)]
  in
  let strict :=
    snd (Faq.generateFAQTask (services := services)
                             (Sample.payload_with 0.7) 1000%Z) in
  let lax :=
    snd (Faq.generateFAQTask (services := services)
                             (Sample.payload_with 0.3) 1000%Z) in
  Faq.parse_response (services := services) Sample.one_reply
  = inr [Sample.one_faq]
  /\ Faq.confidence Sample.one_faq = 0.5%float
  /\ PrimFloat.ltb (Faq.confidence Sample.one_faq) 0.7 = true
  /\ PrimFloat.ltb (Faq.confidence Sample.one_faq) 0.3 = false
  /\ strict = lax
  /\ Faq.success strict = true
  /\ Faq.faqs strict = None
  /\ Faq.text strict = Some Sample.one_reply
  /\ (exists s, Faq.stats strict = Some s /\ Faq.totalFaqs s = 1)
  /\ (forall included : Faq.TaskResult -> Prop,
         ~ (~ included strict /\ included lax)).
Proof.
  cbv zeta.
  assert (E : snd (Faq.generateFAQTask
                     (services := Sample.faq_services Sample.one_reply
                                    [(Sample.one_text, Sample.one_value)])
                     (Sample.payload_with 0.7) 1000%Z)
              = snd (Faq.generateFAQTask
                       (services := Sample.faq_services Sample.one_reply
                                      [(Sample.one_text, Sample.one_value)])
                       (Sample.payload_with 0.3) 1000%Z))
    by (vm_compute; reflexivity).
  split; [vm_compute; reflexivity|].
  split; [reflexivity|].
  split; [reflexivity|].
  split; [reflexivity|].
  split; [exact E|].
  split; [vm_compute; reflexivity|].
  split; [vm_compute; reflexivity|].
  split; [vm_compute; reflexivity|].
  split; [eexists; split; vm_compute; reflexivity|].
  intros included [Hout Hin]. apply Hout. rewrite E. exact Hin.
Qed.

(** C1, amended (generateFAQTask, generate-faq.ts).  [options], and with it
    [minConfidence], is never consulted: two payloads that differ in it
    give the same run.  The result has no [faqs] list at all; once the
    answer is parsed and validated, the result carries the raw answer and
    every record, whatever its confidence, is counted in [totalFaqs] and
    in [averageConfidence]. *)
Theorem C1_minConfidence_is_not_consulted :
  forall (W : Type) (services : Faq.Services W)
         (scraped : list ScrapedPage) (scrapeId : string)
         (userId : option string) (options options' : option Faq.Options)
         (w : W),
    let payload := Faq.mkPayload scraped scrapeId userId options in
    let result := snd (Faq.generateFAQTask payload w) in
    Faq.generateFAQTask payload w
    = Faq.generateFAQTask (Faq.mkPayload scraped scrapeId userId options') w
    /\ Faq.faqs result = None
    /\ (forall w0 startTime w1 reply parsed,
           Faq.Date_now w = (w0, startTime) ->
           Faq.generateText (Faq.combinedContent scraped) w0
           = (w1, inr reply) ->
           Faq.parse_response reply = inr parsed ->
           Faq.success result = true
           /\ Faq.text result = Some reply
           /\ exists s,
               Faq.stats result = Some s
               /\ Faq.totalFaqs s = List.length parsed
               /\ Faq.averageConfidence s = Faq.average_confidence parsed).
Proof.
  intros W services scraped scrapeId userId options options' w payload result.
  split; [reflexivity|].
  split; [apply generateFAQTask_no_faqs|].
  intros w0 startTime w1 reply parsed Hnow Hgen Hparse.
  destruct (generateFAQTask_parsed payload w w0 w1 startTime reply parsed
              Hnow Hgen Hparse) as (processingTime & E).
  subst result. rewrite E. cbn. repeat split. eexists. repeat split.
Qed.

(** The amended C1 at work on the answer with one record of confidence
    0.5, under [minConfidence] 0.7: the record is counted and the raw
    answer returned. *)
Lemma C1_minConfidence_is_not_consulted_witness :
  let services :=
    Sample.faq_services Sample.one_reply [(Sample.one_text, Sample.one_value)]
  in
  let result :=
    snd (Faq.generateFAQTask (services := services)
                             (Sample.payload_with 0.7) 1000%Z) in
  Faq.text result = Some Sample.one_reply
  /\ exists s,
      Faq.stats result = Some s
      /\ Faq.totalFaqs s = List.length [Sample.one_faq]
      /\ Faq.averageConfidence s = Faq.average_confidence [Sample.one_faq].
Proof.
  cbv zeta.
  destruct (C1_minConfidence_is_not_consulted Z
              (Sample.faq_services Sample.one_reply
                 [(Sample.one_text, Sample.one_value)])
              [Sample.home] "5b0c1a9e-0000-4000-8000-000000000000" None
              (Some (Faq.mkOptions 5 0.7 None)) None 1000%Z)
    as (_ & _ & Hparsed).
  destruct (Hparsed 1001%Z 1000%Z 2501%Z Sample.one_reply [Sample.one_faq])
    as (_ & Htext & Hstats);
    [reflexivity | reflexivity | vm_compute; reflexivity |].
  split; [exact Htext | exact Hstats].
Defined.

(** C10 (generateFAQTask, generate-faq.ts).  Once the answer is parsed and
    validated, the task succeeds with, as [averageConfidence], the sum of
    the confidences divided by the number of records, whatever that
    number; so for an answer whose [faqs] array is empty it succeeds with
    [totalFaqs] 0 and [averageConfidence] NaN (0 / 0). *)
Theorem C10_average_confidence_unguarded :
  forall (W : Type) (services : Faq.Services W) (payload : Faq.TaskPayload)
         (w w0 w1 : W) (startTime : Z) (reply : string)
         (parsed : list Faq.FAQ),
    Faq.Date_now w = (w0, startTime) ->
    Faq.generateText (Faq.combinedContent (Faq.payload_pages payload)) w0
    = (w1, inr reply) ->
    Faq.parse_response reply = inr parsed ->
    let result := snd (Faq.generateFAQTask payload w) in
    Faq.success result = true
    /\ exists s,
        Faq.stats result = Some s
        /\ Faq.totalFaqs s = List.length parsed
        /\ Faq.averageConfidence s
           = (fold_left (fun acc faq => acc + Faq.confidence faq) parsed 0
              / Num.of_nat (List.length parsed))%float
        /\ (parsed = [] ->
            Faq.totalFaqs s = 0
            /\ Faq.averageConfidence s = nan
            /\ PrimFloat.is_nan (Faq.averageConfidence s) = true).
Proof.
  intros W services payload w w0 w1 startTime reply parsed Hnow Hgen Hparse
         result.
  destruct (generateFAQTask_parsed payload w w0 w1 startTime reply parsed
              Hnow Hgen Hparse) as (processingTime & E).
  subst result. rewrite E. cbn. split; [reflexivity|].
  eexists. split; [reflexivity|]. cbn.
  split; [reflexivity|]. split; [reflexivity|].
  intros ->. repeat split.
Qed.

(** C10 at work: the answer without records gives a successful result
    whose average is NaN. *)
Lemma C10_average_confidence_unguarded_witness :
  let services :=
    Sample.faq_services Sample.empty_text
                        [(Sample.empty_text, Sample.empty_value)] in
  let result :=
    snd (Faq.generateFAQTask (services := services)
                             (Sample.payload_with 0.7) 1000%Z) in
  Faq.parse_response (services := services) Sample.empty_text = inr []
  /\ Faq.success result = true
  /\ exists s,
      Faq.stats result = Some s
      /\ Faq.totalFaqs s = 0
      /\ Faq.averageConfidence s = nan.
Proof.
  cbv zeta.
  assert (Hparse : Faq.parse_response
                     (services := Sample.faq_services Sample.empty_text
                                    [(Sample.empty_text, Sample.empty_value)])
                     Sample.empty_text = inr [])
    by (vm_compute; reflexivity).
  destruct (C10_average_confidence_unguarded Z
              (Sample.faq_services Sample.empty_text
                 [(Sample.empty_text, Sample.empty_value)])
              (Sample.payload_with 0.7) 1000%Z 1001%Z 2501%Z 1000%Z
              Sample.empty_text [] eq_refl eq_refl Hparse)
    as (Hok & s & Hs & _ & _ & Hempty).
  destruct (Hempty eq_refl) as (Hzero & Hnan & _).
  split; [exact Hparse|]. split; [exact Hok|].
  exists s. auto.
Defined.



(* ================================================================== *)
(** * More on the retry executor *)
(* ================================================================== *)



(** X3 (withRetry, generate-faq.ts).  When every attempt before the
    [k]-th fails with a retried failure and the [k]-th returns, with
    [k <= maxAttempts], that value is returned after exactly [k] calls
    and the [k - 1] sleeps in between. *)
Theorem withRetry_first_success :
  forall (T : Type) (operation : nat -> Retry.Thrown + T)
         (Math_random : nat -> float) (maxAttempts delayMs : float)
         (k : nat) (v : T),
    1 <= k ->
    Num.le_nat k maxAttempts = true ->
    (forall i, 1 <= i < k -> Retry.retried (operation i)) ->
    operation k = inr v ->
    forall fuel,
      k <= fuel ->
      Retry.withRetry operation Math_random maxAttempts delayMs fuel
      = Some (Retry.mkRun (inr v) k
                (map (Retry.delay Math_random delayMs) (seq 1 (k - 1)))).
Proof.
  intros T operation Math_random maxAttempts delayMs k v Hk Hle Hf Hop
         fuel Hfuel.
  destruct (withRetry_after_retried operation Math_random maxAttempts
              delayMs (k - 1) fuel) as (lastError & E); [lia | |].
  - intros i Hi. split; [apply Hf; lia|].
    apply (le_nat_lt_nat i k); [exact Hle | lia].
  - rewrite E.
    destruct (fuel - (k - 1)) as [|left] eqn:L; [lia|].
    replace (1 + (k - 1)) with k by lia.
    cbn [Retry.attempts]. now rewrite Hle, Hop.
Qed.

Lemma withRetry_first_success_witness :
  Retry.withRetry Sample.flaky Sample.half 5 1000 3
  = Some (Retry.mkRun (inr 42) 3
            (map (Retry.delay Sample.half 1000) (seq 1 (3 - 1)))).
Proof.
  apply (withRetry_first_success nat Sample.flaky Sample.half 5 1000 3 42).
  - lia.
  - reflexivity.
  - intros i Hi.
    exists (Retry.FAQGenerationError "timeout" Retry.TRANSIENT).
    assert (i = 1 \/ i = 2) as [->| ->] by lia;
      (split; [reflexivity | discriminate]).
  - reflexivity.
  - lia.
Defined.

(** X4 (withRetry, generate-faq.ts).  When [maxAttempts] is the integer
    [n], at least 1, and all [n] attempts fail, the failures before the
    last being retried ones, the error of the last attempt is rethrown,
    whatever its category, after [n] calls and [n - 1] sleeps: nothing
    is swallowed and no sleep follows the last failure. *)
Theorem withRetry_exhausted :
  forall (T : Type) (operation : nat -> Retry.Thrown + T)
         (Math_random : nat -> float) (maxAttempts delayMs : float)
         (n : nat) (e : Retry.Thrown),
    1 <= n ->
    Num.eq_nat n maxAttempts = true ->
    (forall i, 1 <= i < n -> Retry.retried (operation i)) ->
    operation n = inl e ->
    forall fuel,
      n <= fuel ->
      Retry.withRetry operation Math_random maxAttempts delayMs fuel
      = Some (Retry.mkRun (inl (Some e)) n
                (map (Retry.delay Math_random delayMs) (seq 1 (n - 1)))).
Proof.
  intros T operation Math_random maxAttempts delayMs n e Hn Heq Hf Hop
         fuel Hfuel.
  assert (Hle : Num.le_nat n maxAttempts = true).
  { destruct (eq_nat_counts n maxAttempts Heq) as (_ & Hupto).
    rewrite le_nat_counts_upto, Hupto. apply Nat.ltb_lt. lia. }
  destruct (withRetry_after_retried operation Math_random maxAttempts
              delayMs (n - 1) fuel) as (lastError & E); [lia | |].
  - intros i Hi. split; [apply Hf; lia|].
    apply (le_nat_lt_nat i n); [exact Hle | lia].
  - rewrite E.
    destruct (fuel - (n - 1)) as [|left] eqn:L; [lia|].
    replace (1 + (n - 1)) with n by lia.
    cbn [Retry.attempts]. rewrite Hle, Hop, Heq.
    now destruct (Retry.rethrown_at_once e).
Qed.

Lemma withRetry_exhausted_witness :
  Retry.withRetry Sample.always_invalid Sample.half 3 1000 3
  = Some (Retry.mkRun
            (inl (Some (Retry.FAQGenerationError "schema" Retry.VALIDATION)))
            3 (map (Retry.delay Sample.half 1000) (seq 1 (3 - 1)))).
Proof.
  apply (withRetry_exhausted nat Sample.always_invalid Sample.half 3 1000).
  - lia.
  - reflexivity.
  - intros i Hi.
    exists (Retry.FAQGenerationError "schema" Retry.VALIDATION).
    split; [reflexivity | discriminate].
  - reflexivity.
  - lia.
Defined.

(** X20 (withRetry, generate-faq.ts).  When [maxAttempts] is not an
    integer, [attempt === maxAttempts] never holds: if [n] is the last
    attempt index within [maxAttempts] and all [n] attempts fail with
    retried failures, the loop sleeps once more after the last call and
    only then throws the error of that call, after [n] calls and [n]
    sleeps. *)
Theorem withRetry_fractional_maxAttempts :
  forall (T : Type) (operation : nat -> Retry.Thrown + T)
         (Math_random : nat -> float) (maxAttempts delayMs : float)
         (n : nat) (e : Retry.Thrown),
    1 <= n ->
    Num.lt_nat n maxAttempts = true ->
    Num.le_nat (n + 1) maxAttempts = false ->
    (forall i, 1 <= i <= n -> Retry.retried (operation i)) ->
    operation n = inl e ->
    forall fuel,
      n <= fuel ->
      Retry.withRetry operation Math_random maxAttempts delayMs fuel
      = Some (Retry.mkRun (inl (Some e)) n
                (map (Retry.delay Math_random delayMs) (seq 1 n))).
Proof.
  intros T operation Math_random maxAttempts delayMs n e Hn Hlt Hnext Hf Hop
         fuel Hfuel.
  assert (Hall : forall i, 1 <= i <= n ->
             Retry.retried (operation i) /\ Num.lt_nat i maxAttempts = true).
  { intros i Hi. split; [now apply Hf|].
    apply (lt_nat_mono i n); [exact Hlt | lia]. }
  destruct (withRetry_after_retried operation Math_random maxAttempts
              delayMs (n - 1) fuel) as (lastError & E);
    [lia | intros i Hi; apply Hall; lia |].
  rewrite E.
  destruct (fuel - (n - 1)) as [|left] eqn:L; [lia|].
  replace (1 + (n - 1)) with n by lia.
  cbn [Retry.attempts].
  destruct (Hf n ltac:(lia)) as (e' & He' & Hc).
  assert (e' = e) by congruence. subst e'.
  rewrite lt_nat_le_neq in Hlt. apply andb_true_iff in Hlt.
  destruct Hlt as (Hle & Hne). apply negb_true_iff in Hne.
  rewrite Hle, Hop, (retried_not_at_once e Hc), Hne.
  replace (S n) with (n + 1) by lia.
  assert (Hsleeps : map (Retry.delay Math_random delayMs) (seq 1 (n - 1))
                    ++ [Retry.delay Math_random delayMs n]
                    = map (Retry.delay Math_random delayMs) (seq 1 n)).
  { replace n with (n - 1 + 1) at 3 by lia.
    rewrite seq_app, map_app. cbn [seq map].
    replace (1 + (n - 1)) with n by lia. reflexivity. }
  rewrite Hsleeps.
  destruct left; cbn [Retry.attempts]; rewrite Hnext;
    replace (n + 1 - 1) with n by lia; reflexivity.
Qed.

(** Two and a half attempts: two calls, and a sleep after each. *)
Lemma withRetry_fractional_maxAttempts_witness :
  Retry.withRetry Sample.always_invalid Sample.half 2.5 1000 2
  = Some (Retry.mkRun
            (inl (Some (Retry.FAQGenerationError "schema" Retry.VALIDATION)))
            2 (map (Retry.delay Sample.half 1000) (seq 1 2)))
  /\ map (Retry.delay Sample.half 1000) (seq 1 2)
     = [1500%float; 2500%float].
Proof.
  split; [|reflexivity].
  apply (withRetry_fractional_maxAttempts nat Sample.always_invalid
           Sample.half 2.5 1000 2).
  - lia.
  - reflexivity.
  - reflexivity.
  - intros i Hi.
    exists (Retry.FAQGenerationError "schema" Retry.VALIDATION).
    split; [reflexivity | discriminate].
  - reflexivity.
  - lia.
Defined.

(* ================================================================== *)
(** * More on the schemas and the parsing of the answer *)
(* ================================================================== *)

Section SchemaFacts.

Variable is_url : string -> bool.

Lemma z_string_min_max_bounds (lo hi : nat) (v : option Faq.json)
      (s : string) :
  Faq.z_string_min_max lo hi v = Some s -> lo <= String.length s <= hi.
Proof.
  unfold Faq.z_string_min_max.
  destruct (Faq.z_string v) as [t|]; [|discriminate].
  destruct ((lo <=? String.length t) && (String.length t <=? hi)) eqn:E;
    [|discriminate].
  intros [= <-]. apply andb_prop in E as [E1 E2].
  apply Nat.leb_le in E1. apply Nat.leb_le in E2. lia.
Qed.

Lemma z_number_0_1_bounds (v : option Faq.json) (x : float) :
  Faq.z_number_0_1 v = Some x -> Bounds.unit_interval x.
Proof.
  unfold Faq.z_number_0_1. destruct v as [[| | y | | |]|]; try discriminate.
  destruct (negb (PrimFloat.is_nan y) && PrimFloat.leb 0 y
            && PrimFloat.leb y 1) eqn:E; [|discriminate].
  intros [= <-]. apply andb_prop in E as [E E2].
  apply andb_prop in E as [_ E1]. split; assumption.
Qed.

Lemma MetadataSchema_parse_bounds (v : Faq.json) (md : Faq.Metadata) :
  Faq.MetadataSchema_parse v = Some md ->
  Bounds.unit_interval (Faq.relevance md).
Proof.
  unfold Faq.MetadataSchema_parse.
  destruct v as [| | | | |o]; try discriminate.
  destruct (Faq.z_number_0_1 _) as [r|] eqn:Hr; [|discriminate].
  destruct (Faq.z_category _); [|discriminate].
  destruct (Faq.z_array_string _); [|discriminate].
  intros [= <-]. cbn. now apply z_number_0_1_bounds in Hr.
Qed.

Lemma FAQSchema_parse_bounds (v : Faq.json) (faq : Faq.FAQ) :
  Faq.FAQSchema_parse is_url v = Some faq -> Bounds.within_bounds is_url faq.
Proof.
  unfold Faq.FAQSchema_parse. destruct v as [| | | | |o]; try discriminate.
  destruct (Faq.z_string_min_max 10 200 _) as [q|] eqn:Hq; [|discriminate].
  destruct (Faq.z_string_min_max 20 1000 _) as [a|] eqn:Ha; [|discriminate].
  destruct (Faq.z_number_0_1 _) as [c|] eqn:Hc; [|discriminate].
  destruct (Faq.z_string_url is_url _) as [u|] eqn:Hu; [|discriminate].
  destruct (Faq.z_string _) as [p|] eqn:Hp; [|discriminate].
  apply z_string_min_max_bounds in Hq, Ha. apply z_number_0_1_bounds in Hc.
  assert (Hurl : is_url u = true).
  { unfold Faq.z_string_url in Hu.
    destruct (Faq.z_string _) as [t|]; [|discriminate].
    destruct (is_url t) eqn:E; [|discriminate]. now injection Hu as <-. }
  destruct (Faq.property o "metadata") as [m|].
  - destruct (Faq.MetadataSchema_parse m) as [md|] eqn:Hm; [|discriminate].
    intros [= <-]. unfold Bounds.within_bounds. cbn.
    split; [lia | split; [lia | split; [exact Hc | split; [exact Hurl|]]]].
    now apply MetadataSchema_parse_bounds with (v := m).
  - intros [= <-]. unfold Bounds.within_bounds. cbn.
    split; [lia | split; [lia | split; [exact Hc | split; [exact Hurl|]]]].
    exact I.
Qed.

Lemma FAQ_array_parse_each (items : list Faq.json) :
  forall parsed,
    Faq.FAQ_array_parse is_url items = Some parsed ->
    Forall2 (fun item faq => Faq.FAQSchema_parse is_url item = Some faq)
            items parsed.
Proof.
  induction items as [|item items IH]; cbn; intros parsed.
  - intros [= <-]. constructor.
  - destruct (Faq.FAQSchema_parse is_url item) as [faq|] eqn:Hi;
      [|discriminate].
    destruct (Faq.FAQ_array_parse is_url items) as [rest|]; [|discriminate].
    intros [= <-]. constructor; auto.
Qed.

Lemma FAQ_array_parse_rejects (items : list Faq.json) (item : Faq.json) :
  In item items ->
  Faq.FAQSchema_parse is_url item = None ->
  Faq.FAQ_array_parse is_url items = None.
Proof.
  induction items as [|first items IH]; cbn; [intros []|].
  intros [->|Hin] Hbad.
  - now rewrite Hbad.
  - rewrite (IH Hin Hbad).
    now destruct (Faq.FAQSchema_parse is_url first).
Qed.

End SchemaFacts.

(** X5 (FAQSchema and FAQResponseSchema, generate-faq.ts).  A record that
    comes out of [FAQSchema.parse] is within the bounds of the schema: a
    question of 10 to 200 characters, an answer of 20 to 1000, a
    confidence and a relevance between 0 and 1, a source URL that the URL
    check accepts; and so is every record of a response that comes out of
    [FAQResponseSchema.parse]. *)
Theorem parsed_records_within_bounds :
  forall (is_url : string -> bool),
    (forall v faq,
        Faq.FAQSchema_parse is_url v = Some faq ->
        Bounds.within_bounds is_url faq)
    /\ (forall v parsed,
           Faq.FAQResponseSchema_parse is_url v = Some parsed ->
           Forall (Bounds.within_bounds is_url) parsed).
Proof.
  intros is_url. split; [apply FAQSchema_parse_bounds|].
  intros v parsed. unfold Faq.FAQResponseSchema_parse.
  destruct v as [| | | | |o]; try discriminate.
  destruct (Faq.property o "faqs") as [[| | | |items|]|]; try discriminate.
  intros H. apply FAQ_array_parse_each in H.
  induction H; constructor; eauto using FAQSchema_parse_bounds.
Qed.

(** The statement above on the record with metadata. *)
Lemma parsed_records_within_bounds_witness :
  exists faq,
    Faq.FAQSchema_parse (fun s => JS.startsWith s "http") Worlds.full_value
    = Some faq
    /\ Bounds.within_bounds (fun s => JS.startsWith s "http") faq.
Proof.
  eexists. split; [reflexivity|].
  apply (proj1 (parsed_records_within_bounds
                  (fun s => JS.startsWith s "http")) Worlds.full_value).
  reflexivity.
Defined.

(** X6 (FAQResponseSchema and generateFAQTask, generate-faq.ts).  The
    array of records is taken whole or not at all: when it is accepted,
    the records are the items of the array, one for one and in order;
    when one item fails [FAQSchema], the response is refused, and the
    task, whose model answered with that response, returns
    [success: false] with the message of zod as [error] and nothing
    else. *)
Theorem one_bad_record_rejects_the_response :
  forall (W : Type) (services : Faq.Services W),
    (forall items parsed,
        Faq.FAQ_array_parse Faq.is_url items = Some parsed ->
        Forall2 (fun item faq =>
                   Faq.FAQSchema_parse Faq.is_url item = Some faq)
                items parsed)
    /\ (forall o items item,
           Faq.property o "faqs" = Some (Faq.JArray items) ->
           In item items ->
           Faq.FAQSchema_parse Faq.is_url item = None ->
           Faq.FAQResponseSchema_parse Faq.is_url (Faq.JObject o) = None)
    /\ (forall payload w w0 startTime w1 reply o items item,
           Faq.Date_now w = (w0, startTime) ->
           Faq.generateText
             (Faq.combinedContent (Faq.payload_pages payload)) w0
           = (w1, inr reply) ->
           Faq.JSON_parse (JS.trim (Faq.replace_fences 0 reply))
           = inr (Faq.JObject o) ->
           Faq.property o "faqs" = Some (Faq.JArray items) ->
           In item items ->
           Faq.FAQSchema_parse Faq.is_url item = None ->
           snd (Faq.generateFAQTask payload w)
           = Faq.mkTaskResult false None None None None
               (Some (Faq.ZodError_message (Faq.JObject o)))).
Proof.
  intros W services.
  assert (Hreject : forall o items item,
             Faq.property o "faqs" = Some (Faq.JArray items) ->
             In item items ->
             Faq.FAQSchema_parse Faq.is_url item = None ->
             Faq.FAQResponseSchema_parse Faq.is_url (Faq.JObject o) = None).
  { intros o items item Hp Hin Hbad. cbn. rewrite Hp.
    now apply FAQ_array_parse_rejects with (item := item). }
  split; [apply FAQ_array_parse_each | split; [exact Hreject|]].
  intros payload w w0 startTime w1 reply o items item
         Hnow Hgen Hjson Hp Hin Hbad.
  unfold Faq.generateFAQTask. rewrite Hnow, Hgen.
  unfold Faq.parse_response. rewrite Hjson.
  rewrite (Hreject o items item Hp Hin Hbad).
  now destruct (Faq.Date_now w1).
Qed.

(** The statement above on an answer with a good record and a question of
    five characters. *)
Lemma one_bad_record_rejects_the_response_witness :
  snd (Faq.generateFAQTask (services := Worlds.mixed_services)
                           (Sample.payload_with 0.7) 1000%Z)
  = Faq.mkTaskResult false None None None None (Some "ZodError").
Proof.
  destruct (one_bad_record_rejects_the_response Z Worlds.mixed_services)
    as (_ & _ & Htask).
  apply (Htask (Sample.payload_with 0.7) 1000%Z 1001%Z 1000%Z 2501%Z
               Worlds.mixed_text
               [("faqs", Faq.JArray [Worlds.good_value; Worlds.short_value])]
               [Worlds.good_value; Worlds.short_value] Worlds.short_value).
  - reflexivity.
  - reflexivity.
  - vm_compute. reflexivity.
  - reflexivity.
  - right. left. reflexivity.
  - reflexivity.
Defined.


(* ================================================================== *)
(** * Code fences *)
(* ================================================================== *)

Section FenceFacts.

Lemma startsWith_nil (s : string) : JS.startsWith s EmptyString = true.
Proof. now destruct s. Qed.

(** What does not start with a prefix of a pattern does not start with
    the pattern. *)
Lemma startsWith_longer (s p q : string) :
  JS.startsWith s p = false -> JS.startsWith s (p ++ q) = false.
Proof.
  revert s. induction p as [|b p IH]; intros s.
  - destruct s; discriminate.
  - destruct s as [|a s]; cbn; [reflexivity|].
    destruct (Ascii.eqb a b); cbn; [apply IH | reflexivity].
Qed.

Lemma includes_head (s p : string) :
  JS.includes s p = false -> JS.startsWith s p = false.
Proof.
  destruct s; cbn; intros H; apply orb_false_elim in H as [H _]; exact H.
Qed.

Lemma includes_tail (c : ascii) (s p : string) :
  JS.includes (String c s) p = false -> JS.includes s p = false.
Proof.
  cbn [JS.includes]. intros H. apply orb_false_elim in H as [_ H]. exact H.
Qed.

(** No fence at the head of [s] is still none at the head of [s] followed
    by a line break. *)
Lemma no_fence_before_newline (s t : string) :
  JS.startsWith s "```" = false ->
  JS.startsWith (s ++ Faq.newline ++ t) "```" = false.
Proof.
  destruct s as [|c1 [|c2 [|c3 s]]]; cbn.
  - reflexivity.
  - intros _. now rewrite andb_false_r.
  - intros _. now rewrite !andb_false_r.
  - rewrite !startsWith_nil.
    destruct (Ascii.eqb c1 "`"); [|reflexivity].
    destruct (Ascii.eqb c2 "`"); [|reflexivity].
    destruct (Ascii.eqb c3 "`"); [discriminate | reflexivity].
Qed.

(** Where no pattern starts, a character is kept. *)
Lemma fence_match_none (c : ascii) (s : string) :
  JS.startsWith (String c s) "```" = false ->
  JS.startsWith s "```" = false ->
  Faq.fence_match (String c s) = 0.
Proof.
  intros H1 H2. unfold Faq.fence_match.
  change ("```json" ++ Faq.newline)%string
    with ("```" ++ ("json" ++ Faq.newline))%string.
  rewrite (startsWith_longer _ "```" _ H1).
  change "```json" with ("```" ++ "json")%string.
  rewrite (startsWith_longer _ "```" "json" H1).
  rewrite H1.
  replace (JS.startsWith (String c s) (Faq.newline ++ "```")) with false;
    [reflexivity|].
  change (Faq.newline ++ "```")%string
    with (String (ascii_of_nat 10) "```").
  cbn [JS.startsWith]. rewrite H2. now rewrite andb_false_r.
Qed.

Lemma replace_fences_unfenced (s : string) :
  JS.includes s "```" = false -> Faq.replace_fences 0 s = s.
Proof.
  induction s as [|c s IH]; [reflexivity|].
  intros H. pose proof (includes_head _ _ H) as Hhead.
  apply includes_tail in H. pose proof (includes_head _ _ H) as Hnext.
  cbn [Faq.replace_fences].
  rewrite (fence_match_none c s Hhead Hnext). now rewrite IH.
Qed.

Lemma replace_fences_closing (body : string) :
  JS.includes body "```" = false ->
  Faq.replace_fences 0 (body ++ Faq.newline ++ "```") = body.
Proof.
  induction body as [|c body IH]; [reflexivity|].
  intros H. pose proof (includes_head _ _ H) as Hhead.
  apply includes_tail in H. pose proof (includes_head _ _ H) as Hnext.
  change ((String c body ++ Faq.newline ++ "```")%string)
    with (String c (body ++ Faq.newline ++ "```")).
  cbn [Faq.replace_fences].
  rewrite fence_match_none.
  - now rewrite IH.
  - apply (no_fence_before_newline (String c body) "```" Hhead).
  - apply (no_fence_before_newline body "```" Hnext).
Qed.

Lemma replace_fences_skips (p s : string) :
  Faq.replace_fences (String.length p) (p ++ s) = Faq.replace_fences 0 s.
Proof. induction p as [|c p IH]; [reflexivity | exact IH]. Qed.

End FenceFacts.

(** X8 (generateFAQTask, generate-faq.ts, the [replace] before
    [JSON.parse]).  An answer that contains no run of three backticks goes
    to the parser as it is, but for the trimming; an answer wrapped in a
    [json] code fence goes to the parser as the text between the fences,
    when that text has no such run itself. *)
Theorem fences_are_stripped :
  forall (body : string),
    JS.includes body "```" = false ->
    Faq.replace_fences 0 body = body
    /\ Faq.replace_fences 0
         ("```json" ++ Faq.newline ++ body ++ Faq.newline ++ "```")
       = body.
Proof.
  intros body H. split; [now apply replace_fences_unfenced|].
  change ("```json" ++ Faq.newline ++ body ++ Faq.newline ++ "```")%string
    with (String "`" ("``json" ++ Faq.newline
                      ++ (body ++ Faq.newline ++ "```")))%string.
  cbn [Faq.replace_fences].
  replace (Faq.fence_match _) with 8
    by (unfold Faq.fence_match; cbn; now rewrite startsWith_nil).
  change ("``json" ++ Faq.newline ++ body ++ Faq.newline ++ "```")%string
    with (("``json" ++ Faq.newline) ++ (body ++ Faq.newline ++ "```"))%string.
  rewrite (replace_fences_skips ("``json" ++ Faq.newline)).
  now apply replace_fences_closing.
Qed.

(** The statement above on the answer with one record. *)
Lemma fences_are_stripped_witness :
  Faq.replace_fences 0 Sample.one_reply = Sample.one_text.
Proof.
  apply (fences_are_stripped Sample.one_text). vm_compute. reflexivity.
Defined.

(* ================================================================== *)
(** * More on [scrapeWebsite] *)
(* ================================================================== *)

Section SubsequenceFacts.

Context {A : Type}.

Lemma Subsequence_skip_last (xs ys : list A) (y : A) :
  Order.Subsequence xs ys -> Order.Subsequence xs (ys ++ [y]).
Proof.
  induction 1; cbn.
  - apply Order.sub_skip, Order.sub_nil.
  - now apply Order.sub_skip.
  - now apply Order.sub_take.
Qed.

Lemma Subsequence_take_last (xs ys : list A) (y : A) :
  Order.Subsequence xs ys -> Order.Subsequence (xs ++ [y]) (ys ++ [y]).
Proof.
  induction 1; cbn.
  - apply Order.sub_take, Order.sub_nil.
  - now apply Order.sub_skip.
  - now apply Order.sub_take.
Qed.

End SubsequenceFacts.

Section StringFacts.

Lemma endsWith_app (prefix suffix : string) :
  JS.endsWith (prefix ++ suffix) suffix = true.
Proof.
  induction prefix as [|c prefix IH]; cbn.
  - destruct suffix; cbn; [reflexivity|].
    now rewrite Ascii.eqb_refl, String.eqb_refl.
  - rewrite IH. apply orb_true_r.
Qed.

Lemma toLowerCase_app (s t : string) :
  JS.toLowerCase (s ++ t) = (JS.toLowerCase s ++ JS.toLowerCase t)%string.
Proof. induction s as [|c s IH]; cbn; [reflexivity | now rewrite IH]. Qed.

(** A URL that ends in one of the extensions is taken for a file. *)
Lemma file_extension_matches (prefix extension : string) :
  In extension JS.file_extensions ->
  JS.matches_file_extension (prefix ++ extension) = true.
Proof.
  intros Hin. unfold JS.matches_file_extension.
  apply existsb_exists. exists extension. split; [exact Hin|].
  rewrite toLowerCase_app.
  replace (JS.toLowerCase extension) with extension.
  - apply endsWith_app.
  - cbn in Hin.
    repeat (destruct Hin as [<-|Hin]; [reflexivity|]). destruct Hin.
Qed.

End StringFacts.

Section ScraperMore.

Import Scraper.

Context {url_api : UrlApi} {W : Type} {browser : Puppeteer W}.
Variable maxPages : float.
Variable onProgress : option (ProgressCallback W).

Lemma Array_from_Set_last (xs : list string) (x : string) :
  JS.Array_from_Set (xs ++ [x]) = JS.Set_add (JS.Array_from_Set xs) x.
Proof. unfold JS.Array_from_Set. now rewrite fold_left_app. Qed.

Lemma in_dequeue_order_step st st' :
  Order.in_dequeue_order st -> loop_condition maxPages st = true ->
  step st st' -> Order.in_dequeue_order st'.
Proof.
  intros (Hsub & Hvis) _ Hs.
  destruct Hs as [entry rest Q Hseen | entry rest Q Hseen
                 | entry rest page processed Q Hseen Hu];
    unfold Order.in_dequeue_order;
    cbn [visited queue results dequeued];
    rewrite !map_app; cbn [map];
    rewrite Array_from_Set_last, <- Hvis.
  - split; [now apply Subsequence_skip_last|].
    unfold JS.Set_add. now rewrite Hseen.
  - split; [now apply Subsequence_skip_last | reflexivity].
  - split; [|reflexivity].
    rewrite Hu. now apply Subsequence_take_last.
Qed.

Lemma start_in_dequeue_order startUrl :
  Order.in_dequeue_order (start startUrl).
Proof. split; cbn; [constructor | reflexivity]. Qed.

(** With a browser whose pages open and close, no iteration lets an error
    out, whatever the pages and the progress callback do. *)
Lemma iteration_never_fatal :
  (forall w, snd (browser_newPage w) = inr tt) ->
  (forall w, snd (page_close w) = inr tt) ->
  forall st w, exists w' st', iteration onProgress st w = (w', inr st').
Proof.
  intros Hnew Hclose st w. unfold iteration.
  destruct (queue st) as [|entry rest]; [unfold ret; eauto|].
  cbn [visited queue results dequeued].
  destruct (JS.Set_has (visited st) (entry_url entry));
    [unfold ret; eauto|].
  unfold bind, caught.
  pose proof (Hnew w) as H1.
  destruct (browser_newPage w) as [w0 [e|[]]]; [discriminate|].
  destruct (try_block onProgress _ _ _ w0) as [w1 st2].
  pose proof (Hclose w1) as H2.
  destruct (page_close w1) as [w2 [e|[]]]; [discriminate|].
  unfold ret. eauto.
Qed.

Lemma while_loop_never_fatal :
  (forall w, snd (browser_newPage w) = inr tt) ->
  (forall w, snd (page_close w) = inr tt) ->
  forall fuel st w w' e,
    while_loop maxPages onProgress fuel st w <> Some (w', inl e).
Proof.
  intros Hnew Hclose.
  induction fuel as [|fuel IH]; intros st w w' e; cbn.
  - destruct (loop_condition maxPages st); discriminate.
  - destruct (loop_condition maxPages st); [|discriminate].
    destruct (iteration_never_fatal Hnew Hclose st w) as (w1 & st1 & ->).
    apply IH.
Qed.

End ScraperMore.

(** X9 (scrapeWebsite, test-scraper.ts).  A discovered link whose absolute
    form ends, in whatever case of the ASCII letters of the extension as
    written, in one of [.pdf .jpg .jpeg .png .gif .mp4 .zip .rar] is
    dropped by the loop over the links; so, all along every crawl, no
    queued URL other than the start URL is taken for such a file. *)
Theorem scrapeWebsite_skips_files :
  forall (url_api : UrlApi) (W : Type) (browser : Scraper.Puppeteer W)
         (maxPages : float) (onProgress : option (Scraper.ProgressCallback W)),
    (forall prefix extension,
        In extension JS.file_extensions ->
        JS.matches_file_extension (prefix ++ extension) = true)
    /\ (forall currentUrl d seen q link absoluteUrl,
           URL_href link currentUrl = Some absoluteUrl ->
           JS.matches_file_extension absoluteUrl = true ->
           Scraper.process_link currentUrl d seen q link = q)
    /\ (forall startUrl w st w' entry,
           Scraper.reaches maxPages onProgress (Scraper.start startUrl)
                           w st w' ->
           In entry (Scraper.dequeued st ++ Scraper.queue st) ->
           entry = Scraper.mkEntry startUrl 0
           \/ JS.matches_file_extension (Scraper.entry_url entry) = false).
Proof.
  intros url_api W browser maxPages onProgress.
  split; [apply file_extension_matches | split].
  - intros currentUrl d seen q link absoluteUrl Ha Hx.
    unfold Scraper.process_link. rewrite Ha.
    destruct (URL_hostname absoluteUrl); [|reflexivity].
    destruct (URL_hostname currentUrl); [|reflexivity].
    rewrite Hx. cbn. now rewrite !andb_false_r.
  - intros startUrl w st w' entry Hreach Hin.
    pose proof (reaches_invariant maxPages onProgress
                  (Scraper.discovered_clean startUrl)
                  (discovered_clean_step maxPages startUrl) _ _ _ _
                  (start_discovered_clean startUrl) Hreach) as Hclean.
    destruct (Hclean entry Hin) as [->|(_ & _ & Hx)]; auto.
Qed.

(** X10 (scrapeWebsite, test-scraper.ts).  A page that fails, or a
    progress callback that throws, never aborts the crawl: with the API
    key set and a browser that connects, opens and closes its pages and
    closes itself without throwing, [scrapeWebsite] throws nothing and,
    unless [maxPages] is [Infinity], returns a list of pages, whatever
    happens while the pages are loaded and read. *)
Theorem scrapeWebsite_survives_bad_pages :
  forall (url_api : UrlApi) (W : Type) (browser : Scraper.Puppeteer W)
         (maxPages : float) (onProgress : option (Scraper.ProgressCallback W))
         (startUrl : string) (w : W),
    Scraper.env_BROWSERBASE_API_KEY w = true ->
    (forall w0, snd (Scraper.puppeteer_connect w0) = inr tt) ->
    (forall w0, snd (Scraper.browser_newPage w0) = inr tt) ->
    (forall w0, snd (Scraper.page_close w0) = inr tt) ->
    (forall w0, snd (Scraper.browser_close w0) = inr tt) ->
    (forall fuel w' r,
        Scraper.scrapeWebsite maxPages onProgress fuel startUrl w
        = Some (w', r) ->
        exists scraped, r = inr scraped)
    /\ (maxPages <> infinity ->
        exists fuel w' scraped,
          Scraper.scrapeWebsite maxPages onProgress fuel startUrl w
          = Some (w', inr scraped)).
Proof.
  intros url_api W browser maxPages onProgress startUrl w
         Hkey Hconnect Hnew Hclose Hbrowser.
  assert (Hnever : forall fuel w' r,
             Scraper.scrapeWebsite maxPages onProgress fuel startUrl w
             = Some (w', r) ->
             exists scraped, r = inr scraped).
  { intros fuel w' r.
    unfold Scraper.scrapeWebsite, Scraper.scrapeWebsite_run.
    rewrite Hkey. cbn [negb].
    pose proof (Hconnect w) as Hc.
    destruct (Scraper.puppeteer_connect w) as [w1 [e|[]]]; [discriminate|].
    destruct (Scraper.while_loop maxPages onProgress fuel
                (Scraper.start startUrl) w1) as [[w2 [e|st]]|] eqn:L;
      [| |discriminate].
    - exfalso.
      exact (while_loop_never_fatal maxPages onProgress Hnew Hclose
               _ _ _ _ _ L).
    - pose proof (Hbrowser w2) as Hb.
      destruct (Scraper.browser_close w2) as [w3 [e|[]]]; [discriminate|].
      intros [= <- <-]. eauto. }
  split; [exact Hnever|].
  intros Hfinite.
  destruct (scrapeWebsite_terminates maxPages onProgress startUrl w Hfinite)
    as (fuel & Hfuel).
  exists fuel.
  destruct (Scraper.scrapeWebsite maxPages onProgress fuel startUrl w)
    as [[w' r]|] eqn:R; [|contradiction].
  destruct (Hnever fuel w' r R) as (scraped & ->). eauto.
Qed.

(** The statement above on a site where no page loads: the crawl returns,
    with no page. *)
Lemma scrapeWebsite_survives_bad_pages_witness :
  exists fuel w' scraped,
    Scraper.scrapeWebsite
      (url_api := Sample.urls)
      (browser := Sample.scraper_browser Worlds.nothing_loads)
      5 None fuel "https://example.com/" tt
    = Some (w', inr scraped).
Proof.
  apply (scrapeWebsite_survives_bad_pages Sample.urls unit
           (Sample.scraper_browser Worlds.nothing_loads) 5 None
           "https://example.com/" tt); try reflexivity.
  intros H. apply (f_equal Prim2SF) in H. discriminate H.
Defined.

(** X11 (scrapeWebsite, test-scraper.ts).  All along every crawl, the
    pages come in the order in which their URLs were dequeued, and the
    visited set is exactly the set of the URLs dequeued so far, in the
    order they were first dequeued: a URL is marked visited when it is
    dequeued, whether or not its page can be read. *)
Theorem scrapeWebsite_results_in_dequeue_order :
  forall (url_api : UrlApi) (W : Type) (browser : Scraper.Puppeteer W)
         (maxPages : float) (onProgress : option (Scraper.ProgressCallback W))
         (startUrl : string) (w : W) (st : Scraper.Loop) (w' : W),
    Scraper.reaches maxPages onProgress (Scraper.start startUrl) w st w' ->
    Order.Subsequence (map url (Scraper.results st))
                      (map Scraper.entry_url (Scraper.dequeued st))
    /\ Scraper.visited st
       = JS.Array_from_Set (map Scraper.entry_url (Scraper.dequeued st)).
Proof.
  intros url_api W browser maxPages onProgress startUrl w st w' Hreach.
  exact (reaches_invariant maxPages onProgress Order.in_dequeue_order
           (in_dequeue_order_step maxPages) _ _ _ _
           (start_in_dequeue_order startUrl) Hreach).
Qed.

(** The statement above at the end of the crawl of the small site. *)
Lemma scrapeWebsite_results_in_dequeue_order_witness :
  exists st,
    Scraper.scrapeWebsite_run
      (url_api := Sample.urls)
      (browser := Sample.scraper_browser Sample.small_site)
      10 None 20 "https://example.com/" tt
    = Some (tt, inr st)
    /\ Order.Subsequence (map url (Scraper.results st))
                         (map Scraper.entry_url (Scraper.dequeued st))
    /\ Scraper.visited st
       = JS.Array_from_Set (map Scraper.entry_url (Scraper.dequeued st)).
Proof.
  eexists. split; [vm_compute; reflexivity|].
  match goal with
  | |- Order.Subsequence (map url (Scraper.results ?st)) _ /\ _ =>
      assert (Hrun : Scraper.scrapeWebsite_run
                       (url_api := Sample.urls)
                       (browser := Sample.scraper_browser Sample.small_site)
                       10 None 20 "https://example.com/" tt
                     = Some (tt, inr st))
        by (vm_compute; reflexivity)
  end.
  destruct (scrapeWebsite_run_reaches 10 None 20 "https://example.com/"
              tt tt _ Hrun) as (w1 & w2 & Hreach & _).
  exact (scrapeWebsite_results_in_dequeue_order Sample.urls unit
           (Sample.scraper_browser Sample.small_site) 10 None
           "https://example.com/" w1 _ w2 Hreach).
Defined.

(* ================================================================== *)
(** * More on [scrapeWebsiteTask] *)
(* ================================================================== *)

Section TaskMore.

Import Task.

Context {W : Type} {browser : Puppeteer W}.

(** A property that every iteration keeps holds when the loop ends. *)
Lemma task_loop_keeps (Inv : Loop -> Prop) (owner : bool) (maxPages : float) :
  (forall st w w' st',
      Inv st -> iteration owner st w = (w', st') -> Inv st') ->
  forall fuel st w w' st',
    Inv st ->
    while_loop fuel owner maxPages st w = Some (w', st') ->
    Inv st'.
Proof.
  intros Hkeep. induction fuel as [|fuel IH]; intros st w w' st' Hi; cbn.
  - destruct (loop_condition maxPages st); [discriminate|].
    now intros [= <- <-].
  - destruct (loop_condition maxPages st).
    + destruct (iteration owner st w) as [w1 st1] eqn:It.
      apply IH. eapply Hkeep; eauto.
    + now intros [= <- <-].
Qed.

(** The links of a page are distinct anchors of the document that went
    through the filter. *)
Lemma pageData_links (currentUrl : string) (d : Document) :
  NoDup (links (pageData currentUrl d))
  /\ (forall link,
         In link (links (pageData currentUrl d)) ->
         In link (anchor_href d)
         /\ JS.includes link (location_hostname d) = true
         /\ Order.filtered link).
Proof.
  unfold pageData. cbn [links]. split; [apply NoDup_Array_from_Set|].
  intros link Hin. apply (proj1 (In_Array_from_Set _ _)) in Hin.
  apply filter_In in Hin as [Hin Hf]. unfold same_domain_link in Hf.
  apply andb_prop in Hf as [Hf Hx]. apply andb_prop in Hf as [Hf Hh].
  apply andb_prop in Hf as [Hd Hs].
  apply negb_true_iff in Hx, Hh.
  unfold Order.filtered. auto.
Qed.

Lemma task_filtered_iteration (startUrl : string) (owner : bool) st w w' st' :
  Order.task_filtered startUrl st ->
  iteration owner st w = (w', st') ->
  Order.task_filtered startUrl st'.
Proof.
  intros (Hq & Hr). unfold iteration.
  destruct (toVisit st) as [|currentUrl rest] eqn:Q;
    [intros [= <- <-]; split; [now rewrite Q|exact Hr]|].
  assert (Hrest : forall u, In u rest -> u = startUrl \/ Order.filtered u)
    by (intros u Hu; apply Hq; now right).
  assert (Hcur : currentUrl = startUrl \/ Order.filtered currentUrl)
    by (apply Hq; now left).
  cbn [visited toVisit results].
  destruct (JS.Set_has (visited st) currentUrl);
    [intros [= <- <-]; split; assumption|].
  destruct (page_goto currentUrl owner w) as [w1 [e|[]]];
    [intros [= <- <-]; split; assumption|].
  destruct (page_evaluate w1) as [w2 [e|d]];
    [intros [= <- <-]; split; assumption|].
  intros [= <- <-]. split; cbn [toVisit results].
  - intros u Hu. apply in_app_iff in Hu as [Hu|Hu]; [auto|].
    apply filter_In in Hu as [Hu _].
    right. now apply (pageData_links currentUrl d).
  - intros page Hp. apply in_app_iff in Hp as [Hp|[<-|[]]]; [auto|].
    exact Hcur.
Qed.

End TaskMore.

(** A list that was filled one element at a time while its length was
    below [budget], and whose length is below it no more, has as many
    elements as there are counts below [budget]. *)
Lemma budget_spent {A : Type} (budget : float) (l : list A) :
  (forall n, List.length l = S n -> Num.lt_nat n budget = true) ->
  Num.lt_nat (List.length l) budget = false ->
  Num.counts_below budget = Some (List.length l).
Proof.
  intros Hlast Hfull. rewrite lt_nat_counts_below in Hfull.
  destruct (Num.counts_below budget) as [room|] eqn:Hroom; [|discriminate].
  apply Nat.ltb_ge in Hfull. f_equal.
  destruct (List.length l) as [|n]; [lia|].
  specialize (Hlast n eq_refl). rewrite lt_nat_counts_below, Hroom in Hlast.
  apply Nat.ltb_lt in Hlast. lia.
Qed.

(** X12 (scrapeWebsite, test-scraper.ts; scrapeWebsiteTask,
    scrape-website.ts).  Both crawls, which end unless [maxPages] is
    [Infinity], stop only when nothing is left to visit or the page
    budget is spent: when they return, the queue is empty or there are
    exactly as many pages as there are counts below [maxPages], which is
    [maxPages] pages when [maxPages] is a non-negative integer. *)
Theorem crawls_stop_when_done :
  forall (url_api : UrlApi) (W : Type) (browser : Scraper.Puppeteer W)
         (maxPages : float) (onProgress : option (Scraper.ProgressCallback W))
         (startUrl : string) (w : W)
         (W' : Type) (browser' : Task.Puppeteer W')
         (payload : Task.TaskPayload) (w0 : W'),
    ((maxPages <> infinity ->
      exists fuel,
        Scraper.scrapeWebsite_run maxPages onProgress fuel startUrl w <> None)
     /\ (forall fuel w' st,
            Scraper.scrapeWebsite_run maxPages onProgress fuel startUrl w
            = Some (w', inr st) ->
            (Scraper.queue st = []
             \/ Num.counts_below maxPages
                = Some (List.length (Scraper.results st)))
            /\ (forall limit,
                   Num.eq_nat limit maxPages = true ->
                   Scraper.queue st = []
                   \/ List.length (Scraper.results st) = limit)))
    /\ ((Task.maxPages_of payload <> infinity ->
         exists fuel, Task.run_with_state fuel payload w0 <> None)
        /\ (forall fuel w' st r,
               Task.run_with_state fuel payload w0 = Some (w', Some st, r) ->
               (Task.toVisit st = []
                \/ Num.counts_below (Task.maxPages_of payload)
                   = Some (List.length (Task.results st)))
               /\ (forall limit,
                      Num.eq_nat limit (Task.maxPages_of payload) = true ->
                      Task.toVisit st = []
                      \/ List.length (Task.results st) = limit))).
Proof.
  intros url_api W browser maxPages onProgress startUrl w
         W' browser' payload w0.
  assert (Hlimit : forall (A B : Type) (budget : float) (q : list A)
                          (l : list B),
             q = [] \/ Num.counts_below budget = Some (List.length l) ->
             forall limit, Num.eq_nat limit budget = true ->
                           q = [] \/ List.length l = limit).
  { intros A B budget q l [Hq|Hroom] limit Hl; [now left|right].
    destruct (eq_nat_counts limit budget Hl) as (Hbelow & _). congruence. }
  split; split.
  - apply scrapeWebsite_run_terminates.
  - intros fuel w' st Hrun.
    apply scrapeWebsite_run_reaches in Hrun as (w1 & w2 & Hreach & Hcond).
    pose proof (reaches_invariant maxPages onProgress
                  (Scraper.within_budget maxPages)
                  (within_budget_step maxPages) _ _ _ _
                  (start_within_budget maxPages startUrl) Hreach) as Hb.
    unfold Scraper.within_budget in Hb.
    unfold Scraper.loop_condition in Hcond.
    assert (Hdone : Scraper.queue st = []
                    \/ Num.counts_below maxPages
                       = Some (List.length (Scraper.results st))).
    { apply andb_false_iff in Hcond as [Hq|Hn].
      - left. apply Nat.ltb_ge in Hq.
        destruct (Scraper.queue st); [reflexivity | cbn in Hq; lia].
      - right. now apply budget_spent. }
    split; [exact Hdone | now apply Hlimit].
  - apply run_with_state_terminates.
  - intros fuel w' st r Hrun.
    destruct (run_with_state_loop _ _ _ _ _ _ Hrun) as ((w1 & w2 & Hloop) & _).
    apply (task_loop_invariant
             (Task.within_budget (Task.maxPages_of payload))
             (Task.siteOwner payload) (Task.maxPages_of payload)
             (task_within_budget_step (Task.maxPages_of payload))
             _ _ _ _ _) in Hloop as [Hb Hcond];
      [|unfold Task.within_budget; cbn; intros n Hn; discriminate].
    unfold Task.within_budget in Hb. unfold Task.loop_condition in Hcond.
    assert (Hdone : Task.toVisit st = []
                    \/ Num.counts_below (Task.maxPages_of payload)
                       = Some (List.length (Task.results st))).
    { apply andb_false_iff in Hcond as [Hq|Hn].
      - left. apply Nat.ltb_ge in Hq.
        destruct (Task.toVisit st); [reflexivity | cbn in Hq; lia].
      - right. now apply budget_spent. }
    split; [exact Hdone | now apply Hlimit].
Qed.

(** X13 (scrapeWebsiteTask, scrape-website.ts).  The links kept for a page
    are distinct, are anchors of the document, contain the hostname of
    the page, start with [http], have no [#] and do not end in a file
    extension; and whatever the task is still to visit or has scraped
    when its loop ends is the start URL or went through that filter. *)
Theorem task_follows_filtered_links_only :
  forall (W : Type) (browser : Task.Puppeteer W),
    (forall currentUrl d,
        NoDup (links (Task.pageData currentUrl d))
        /\ (forall link,
               In link (links (Task.pageData currentUrl d)) ->
               In link (Task.anchor_href d)
               /\ JS.includes link (Task.location_hostname d) = true
               /\ Order.filtered link))
    /\ (forall fuel payload w w' st r,
           Task.run_with_state fuel payload w = Some (w', Some st, r) ->
           Order.task_filtered (Task.payload_url payload) st).
Proof.
  intros W browser. split; [apply pageData_links|].
  intros fuel payload w w' st r Hrun.
  destruct (run_with_state_loop _ _ _ _ _ _ Hrun) as ((w1 & w2 & Hloop) & _).
  apply (task_loop_keeps (Order.task_filtered (Task.payload_url payload))
           (Task.siteOwner payload) (Task.maxPages_of payload)
           (task_filtered_iteration (Task.payload_url payload)
                                    (Task.siteOwner payload))
           _ _ _ _ _) in Hloop; [exact Hloop|].
  split; cbn; [intros u [<-|[]]; now left | intros ? []].
Qed.

(** X14 (scrapeWebsite, test-scraper.ts; initializeBrowser and
    scrapeWebsiteTask, scrape-website.ts).  Without the API key,
    [scrapeWebsite] throws before it touches the browser; the task, for a
    site that is not owned, returns [success: false] with the message of
    [initializeBrowser], no browser having been opened or closed; the
    earlier task returns [success: false] with the message of
    [scrapeWebsite]. *)
Theorem missing_api_key :
  forall (url_api : UrlApi) (W : Type) (browser : Scraper.Puppeteer W)
         (maxPages : float) (onProgress : option (Scraper.ProgressCallback W))
         (startUrl : string) (w : W)
         (puppeteer_message : Scraper.Fatal -> string)
         (first : FirstTask.TaskPayload)
         (W' : Type) (browser' : Task.Puppeteer W')
         (payload : Task.TaskPayload) (w0 : W') (fuel : nat),
    (Scraper.env_BROWSERBASE_API_KEY w = false ->
     Scraper.scrapeWebsite maxPages onProgress fuel startUrl w
     = Some (w, inl Scraper.MissingApiKey)
     /\ FirstTask.scrapeWebsiteTask puppeteer_message fuel first w
        = Some (w,
                FirstTask.mkTaskResult false None None
                  (Some "BROWSERBASE_API_KEY environment variable is required")))
    /\ (Task.siteOwner payload = false ->
        Task.env_BROWSERBASE_API_KEY w0 = false ->
        Task.scrapeWebsiteTask fuel payload w0
        = Some (w0,
                inr (Task.mkTaskResult false None None
                       (Some "BROWSERBASE_API_KEY environment variable is required for non-owned sites")))).
Proof.
  intros url_api W browser maxPages onProgress startUrl w puppeteer_message
         first W' browser' payload w0 fuel.
  split.
  - intros Hkey. split.
    + unfold Scraper.scrapeWebsite, Scraper.scrapeWebsite_run.
      now rewrite Hkey.
    + unfold FirstTask.scrapeWebsiteTask, Scraper.scrapeWebsite,
        Scraper.scrapeWebsite_run.
      now rewrite Hkey.
  - intros Howner Hkey.
    unfold Task.scrapeWebsiteTask, Task.run_with_state, Task.try_block,
      Task.initializeBrowser.
    now rewrite Howner, Hkey.
Qed.

(** The statement above in an environment without the key. *)
Lemma missing_api_key_witness :
  Scraper.scrapeWebsite (url_api := Sample.urls)
                        (browser := Worlds.keyless_browser)
                        5 None 0 "https://example.com/" tt
  = Some (tt, inl Scraper.MissingApiKey)
  /\ Task.scrapeWebsiteTask (browser := Worlds.keyless_task_browser) 0
       (Task.mkPayload "https://example.com/" (Some 5%float) false) tt
     = Some (tt,
             inr (Task.mkTaskResult false None None
                    (Some "BROWSERBASE_API_KEY environment variable is required for non-owned sites"))).
Proof.
  destruct (missing_api_key Sample.urls unit Worlds.keyless_browser 5 None
              "https://example.com/" tt (fun _ => "puppeteer")
              (FirstTask.mkPayload "https://example.com/" (Some 5%float) None)
              unit Worlds.keyless_task_browser
              (Task.mkPayload "https://example.com/" (Some 5%float) false) tt 0)
    as (Hscraper & Htask).
  split.
  - apply Hscraper. reflexivity.
  - apply Htask; reflexivity.
Defined.

(** X15 (scrapeWebsiteTask, scrape-website.ts).  As long as
    [browser.close()] does not throw, the task never rejects: it resolves
    either with [success: true], the pages and their statistics, or with
    [success: false], an error message and nothing else, which is what
    becomes of a failure to launch or connect, to open the page or to set
    its viewport.  And it does settle unless [maxPages] is [Infinity]. *)
Theorem task_resolves :
  forall (W : Type) (browser : Task.Puppeteer W)
         (payload : Task.TaskPayload) (w : W),
    (forall w0, snd (Task.browser_close w0) = inr tt) ->
    (forall fuel w' r,
        Task.scrapeWebsiteTask fuel payload w = Some (w', r) ->
        exists result,
          r = inr result
          /\ ((exists scraped, result = Task.success_result scraped)
              \/ (exists message, result = Task.failure_result message)))
    /\ (Task.maxPages_of payload <> infinity ->
        exists fuel w' result,
          Task.scrapeWebsiteTask fuel payload w = Some (w', inr result)
          /\ ((exists scraped, result = Task.success_result scraped)
              \/ (exists message, result = Task.failure_result message))).
Proof.
  intros W browser payload w Hclose.
  assert (Hsettled : forall fuel w' r,
             Task.scrapeWebsiteTask fuel payload w = Some (w', r) ->
             exists result,
               r = inr result
               /\ ((exists scraped, result = Task.success_result scraped)
                   \/ (exists message,
                          result = Task.failure_result message))).
  { intros fuel w' r.
    unfold Task.scrapeWebsiteTask, Task.run_with_state.
    destruct (Task.try_block fuel payload w) as [[[w1 tried] assigned]|];
      [|discriminate].
    assert (Hshape : (exists scraped,
                         match tried with
                         | inl message => Task.failure_result message
                         | inr st => Task.success_result (Task.results st)
                         end = Task.success_result scraped)
                     \/ (exists message,
                            match tried with
                            | inl message => Task.failure_result message
                            | inr st => Task.success_result (Task.results st)
                            end = Task.failure_result message))
      by (destruct tried; eauto).
    destruct assigned.
    - pose proof (Hclose w1) as Hc.
      destruct (Task.browser_close w1) as [w2 [e|[]]]; [discriminate|].
      intros [= <- <-]. eauto.
    - intros [= <- <-]. eauto. }
  split; [exact Hsettled|].
  intros Hfinite.
  destruct (scrapeWebsiteTask_terminates payload w Hfinite) as (fuel & Hfuel).
  exists fuel.
  destruct (Task.scrapeWebsiteTask fuel payload w) as [[w' r]|] eqn:R;
    [|contradiction].
  destruct (Hsettled fuel w' r R) as (result & -> & Hshape). eauto.
Qed.

(** The statement above on the site with the lookalike host. *)
Lemma task_resolves_witness :
  exists fuel w' result,
    Task.scrapeWebsiteTask
      (browser := Sample.task_browser Sample.lookalike_site) fuel
      (Task.mkPayload "https://example.com/" (Some 2%float) true) "about:blank"
    = Some (w', inr result)
    /\ ((exists scraped, result = Task.success_result scraped)
        \/ (exists message, result = Task.failure_result message)).
Proof.
  apply (task_resolves string (Sample.task_browser Sample.lookalike_site)).
  - reflexivity.
  - intros H. apply (f_equal Prim2SF) in H. discriminate H.
Defined.

(* ================================================================== *)
(** * The earlier task *)
(* ================================================================== *)

(** X16 (scrapeWebsiteTask, earlier version, scrape-website.ts).  The
    earlier task resolves, unless [maxPages] is [Infinity].  It returns
    either [success: true] with the pages of [scrapeWebsite], each of
    them pushed while fewer than [maxPages] were there (so at most
    [maxPages] when that is a non-negative integer), with distinct URLs
    and all on the host of the start URL, or [success: false] with the
    message of what [scrapeWebsite] threw. *)
Theorem first_task_returns_the_crawl :
  forall (url_api : UrlApi) (W : Type) (browser : Scraper.Puppeteer W)
         (puppeteer_message : Scraper.Fatal -> string)
         (payload : FirstTask.TaskPayload) (w : W),
    (FirstTask.maxPages_of payload <> infinity ->
     exists fuel,
       FirstTask.scrapeWebsiteTask puppeteer_message fuel payload w <> None)
    /\ (forall fuel w' result,
           FirstTask.scrapeWebsiteTask puppeteer_message fuel payload w
           = Some (w', result) ->
           (exists scraped,
               result = FirstTask.success_result scraped
               /\ (forall n,
                      List.length scraped = S n ->
                      Num.lt_nat n (FirstTask.maxPages_of payload) = true)
               /\ (forall limit,
                      Num.eq_nat limit (FirstTask.maxPages_of payload)
                      = true ->
                      List.length scraped <= limit)
               /\ NoDup (map url scraped)
               /\ (forall page,
                      In page scraped ->
                      URL_hostname (url page)
                      = URL_hostname (FirstTask.payload_url payload)))
           \/ (exists e,
                  Scraper.scrapeWebsite
                    (FirstTask.maxPages_of payload)
                    (Some FirstTask.progress) fuel
                    (FirstTask.payload_url payload) w
                  = Some (w', inl e)
                  /\ result
                     = FirstTask.mkTaskResult false None None
                         (Some (FirstTask.message_of puppeteer_message e)))).
Proof.
  intros url_api W browser puppeteer_message payload w. split.
  - intros Hfinite.
    destruct (scrapeWebsite_terminates (FirstTask.maxPages_of payload)
                (Some FirstTask.progress) (FirstTask.payload_url payload) w
                Hfinite)
      as (fuel & Hfuel).
    exists fuel. unfold FirstTask.scrapeWebsiteTask.
    destruct (Scraper.scrapeWebsite _ _ fuel _ w) as [[w' [e|scraped]]|];
      [discriminate | discriminate | contradiction].
  - intros fuel w' result. unfold FirstTask.scrapeWebsiteTask.
    destruct (Scraper.scrapeWebsite _ _ fuel _ w) as [[w1 [e|scraped]]|] eqn:H;
      [| |discriminate]; intros [= <- <-].
    + right. exists e. auto.
    + left. exists scraped. split; [reflexivity|].
      apply scrapeWebsite_results in H as (st & Hrun & <-).
      apply scrapeWebsite_run_reaches in Hrun as (wa & wb & Hreach & _).
      set (maxPages := FirstTask.maxPages_of payload) in *.
      set (startUrl := FirstTask.payload_url payload) in *.
      pose proof (reaches_invariant maxPages (Some FirstTask.progress)
                    (Scraper.within_budget maxPages)
                    (within_budget_step maxPages) _ _ _ _
                    (start_within_budget maxPages startUrl) Hreach) as Hb.
      destruct (reaches_invariant maxPages (Some FirstTask.progress)
                  Scraper.each_once (each_once_step maxPages) _ _ _ _
                  (start_each_once startUrl) Hreach) as (_ & Hn & _).
      destruct (reaches_invariant maxPages (Some FirstTask.progress)
                  (Scraper.same_host startUrl)
                  (same_host_step maxPages startUrl) _ _ _ _
                  (start_same_host startUrl) Hreach) as (_ & Hh).
      split; [exact Hb|]. split; [|auto].
      intros limit Hl.
      destruct (eq_nat_counts limit maxPages Hl) as (Hroom & _).
      destruct (List.length (Scraper.results st)) as [|n] eqn:L; [lia|].
      specialize (Hb n L). rewrite lt_nat_counts_below, Hroom in Hb.
      apply Nat.ltb_lt in Hb. lia.
Qed.

(* ================================================================== *)
(** * The local crawler *)
(* ================================================================== *)

Section LocalFacts.

Import Local.

Context {url_path : UrlPath} {W : Type} {browser : Puppeteer W}.
Variable maxPages : float.
Variable delayMs : float.
Variable pathPrefixes excludePaths : list string.
Variable onProgress : option (nat -> Eff W string unit).

Notation iteration :=
  (iteration delayMs pathPrefixes excludePaths onProgress).
Notation while_loop :=
  (while_loop maxPages delayMs pathPrefixes excludePaths onProgress).
Notation crawl :=
  (crawl maxPages delayMs pathPrefixes excludePaths onProgress).
Notation in_scope := (in_scope pathPrefixes excludePaths).
Notation step := (step pathPrefixes excludePaths).
Notation well_kept := (well_kept maxPages pathPrefixes excludePaths).

(** The two filters, read as the options describe them. *)
Lemma in_scope_spec (pathname : string) :
  in_scope pathname = true <->
  (pathPrefixes = []
   \/ exists prefix,
       In prefix pathPrefixes /\ JS.startsWith pathname prefix = true)
  /\ (forall exclude,
         In exclude excludePaths -> JS.includes pathname exclude = false).
Proof.
  unfold Local.in_scope.
  rewrite andb_true_iff, !negb_true_iff, andb_false_iff, negb_false_iff.
  rewrite existsb_exists, Nat.ltb_ge.
  split; intros [H1 H2]; split.
  - destruct H1 as [H1|H1]; [left | right; exact H1].
    destruct pathPrefixes; [reflexivity | cbn in H1; lia].
  - intros exclude Hin.
    destruct (JS.includes pathname exclude) eqn:E; [|reflexivity].
    assert (Hex : existsb (fun exclude => JS.includes pathname exclude)
                          excludePaths = true)
      by (apply existsb_exists; eauto).
    congruence.
  - destruct H1 as [->|H1]; [left; cbn; lia | right; exact H1].
  - destruct (existsb _ excludePaths) eqn:E; [|reflexivity].
    apply existsb_exists in E as (exclude & Hin & Hinc).
    rewrite (H2 exclude Hin) in Hinc. discriminate.
Qed.

Lemma local_iteration_step (st st' : Loop) (w w' : W) :
  loop_condition maxPages st = true ->
  iteration st w = (w', inr st') ->
  step st st'.
Proof.
  unfold Local.loop_condition, Local.iteration. intros Hc.
  destruct (toVisit st) as [|currentUrl rest] eqn:Q; [discriminate|].
  cbn [visited toVisit pages].
  destruct (JS.Set_has (visited st) currentUrl) eqn:Hv.
  - unfold ret. intros [= <- <-]. now apply (step_skipped _ _ st currentUrl).
  - destruct (URL_pathname currentUrl) as [pathname|] eqn:Hp; [|discriminate].
    destruct (in_scope pathname) eqn:Hs.
    + unfold caught, Local.try_block. cbn [visited toVisit pages].
      destruct (page_goto currentUrl w) as [w1 [e|[]]].
      * intros [= <- <-]. now apply (step_skipped _ _ st currentUrl).
      * destruct (page_evaluate w1) as [w2 [e|d]].
        -- intros [= <- <-]. now apply (step_failed _ _ st _ _ pathname).
        -- destruct (match onProgress with
                     | Some callback => _
                     | None => _
                     end) as [w3 [e|[]]];
             intros [= <- <-];
             now apply (step_scraped _ _ st _ _ pathname).
    + unfold ret. intros [= <- <-]. now apply (step_skipped _ _ st currentUrl).
Qed.

Lemma well_kept_step st st' :
  well_kept st -> loop_condition maxPages st = true -> step st st' ->
  well_kept st'.
Proof.
  intros (Hv & Hr & Hin & Hb & Hs) C Hstep.
  unfold Local.loop_condition in C.
  apply andb_prop in C as [_ C].
  destruct Hstep as [currentUrl rest Q
                    | currentUrl rest pathname Q Hseen Hp Hscope
                    | currentUrl rest pathname page more Q Hseen Hp Hscope Hu];
    unfold Local.well_kept; cbn [visited toVisit pages].
  - auto.
  - repeat split; [now apply NoDup_Set_add | exact Hr | | exact Hb | exact Hs].
    intros page Hpage. apply In_Set_add. auto.
  - repeat split.
    + now apply NoDup_Set_add.
    + rewrite map_app. cbn. apply NoDup_app; [exact Hr | | ].
      * repeat constructor. intros [].
      * intros u Hu1 [<-|[]]. apply in_map_iff in Hu1 as (p & Hp1 & Hp2).
        apply Set_has_false in Hseen. apply Hseen.
        rewrite <- Hu, <- Hp1. auto.
    + intros p Hpage. apply In_Set_add.
      apply in_app_iff in Hpage as [Hpage|[<-|[]]]; auto.
    + intros n. rewrite length_app. cbn [List.length].
      intros Hn. replace n with (List.length (pages st)) by lia. exact C.
    + intros p Hpage. apply in_app_iff in Hpage as [Hpage|[<-|[]]]; [auto|].
      exists pathname. rewrite Hu. auto.
Qed.

Lemma local_loop_invariant (Inv : Loop -> Prop) :
  (forall st st', Inv st -> loop_condition maxPages st = true ->
                  step st st' -> Inv st') ->
  forall fuel st w w' st',
    Inv st ->
    while_loop fuel st w = Some (w', inr st') ->
    Inv st'.
Proof.
  intros Hstep. induction fuel as [|fuel IH]; intros st w w' st' Hi; cbn.
  - destruct (loop_condition maxPages st); [discriminate|].
    now intros [= <- <-].
  - destruct (loop_condition maxPages st) eqn:C.
    + destruct (iteration st w) as [w1 [e|st1]] eqn:It; [discriminate|].
      apply IH. eapply Hstep; eauto using local_iteration_step.
    + now intros [= <- <-].
Qed.

Lemma local_loop_terminates :
  maxPages <> infinity ->
  forall st w, exists fuel, while_loop fuel st w <> None.
Proof.
  intros Hfinite.
  destruct (Num.counts_below maxPages) as [room|] eqn:Hroom;
    [|apply counts_below_infinity in Hroom; contradiction].
  assert (Hcond : forall st,
             loop_condition maxPages st
             = (0 <? List.length (toVisit st))
               && (List.length (pages st) <? room)).
  { intros st. unfold Local.loop_condition.
    now rewrite lt_nat_counts_below, Hroom. }
  intros st.
  remember (room - List.length (pages st)) as budget eqn:Hb.
  assert (Hle : room - List.length (pages st) <= budget) by lia.
  clear Hb. revert st Hle.
  induction budget as [|budget IHb]; intros st Hle.
  - intros w. exists 0. cbn.
    replace (loop_condition maxPages st) with false; [discriminate|].
    rewrite Hcond.
    replace (List.length (pages st) <? room) with false
      by (symmetry; apply Nat.ltb_ge; lia).
    now rewrite andb_false_r.
  - remember (List.length (toVisit st)) as len eqn:Hl.
    assert (Hq : List.length (toVisit st) <= len) by lia.
    clear Hl. revert st Hle Hq.
    induction len as [|len IHl]; intros st Hle Hq w.
    + exists 0. cbn.
      replace (loop_condition maxPages st) with false; [discriminate|].
      rewrite Hcond.
      replace (0 <? List.length (toVisit st)) with false
        by (symmetry; apply Nat.ltb_ge; lia).
      reflexivity.
    + destruct (loop_condition maxPages st) eqn:C.
      * destruct (iteration st w) as [w1 [e|st1]] eqn:It.
        { exists 1. cbn. rewrite C, It. discriminate. }
        pose proof (local_iteration_step _ _ _ _ C It) as Hs.
        assert (Hnext : exists fuel, while_loop fuel st1 w1 <> None).
        { rewrite Hcond in C.
          apply andb_prop in C as [_ C]. apply Nat.ltb_lt in C.
          inversion Hs as [currentUrl rest Q
                          | currentUrl rest pathname Q Hseen Hp Hscope
                          | currentUrl rest pathname page more Q Hseen Hp
                              Hscope Hu];
            subst st1.
          - apply IHl; cbn; rewrite ?Q in Hq; cbn in Hq; lia.
          - apply IHl; cbn; rewrite ?Q in Hq; cbn in Hq; lia.
          - apply IHb. cbn. rewrite length_app. cbn. lia. }
        destruct Hnext as (fuel & Hf).
        exists (S fuel). cbn. rewrite C, It. exact Hf.
      * exists 0. cbn. rewrite C. discriminate.
Qed.

Lemma crawl_terminates (visible : bool) (startUrl : string) (w : W) :
  maxPages <> infinity ->
  exists fuel, crawl fuel visible startUrl w <> None.
Proof.
  intros Hfinite. unfold Local.crawl.
  destruct (puppeteer_launch (negb visible) w) as [w1 [e|[]]];
    [exists 0; discriminate|].
  destruct ((browser_newPage;;; page_setViewport)%eff w1) as [w2 [e|[]]].
  - exists 0. destruct (browser_close w2) as [w3 [e'|[]]]; discriminate.
  - destruct (local_loop_terminates Hfinite (mkLoop [] [startUrl] []) w2)
      as (fuel & Hf).
    exists fuel.
    destruct (while_loop fuel (mkLoop [] [startUrl] []) w2)
      as [[w3 r]|]; [|contradiction].
    destruct (browser_close w3) as [w4 [e'|[]]]; discriminate.
Qed.

Lemma crawl_well_kept (fuel : nat) (visible : bool) (startUrl : string)
      (w w' : W) (st : Loop) :
  crawl fuel visible startUrl w = Some (w', inr st) -> well_kept st.
Proof.
  unfold Local.crawl.
  destruct (puppeteer_launch (negb visible) w) as [w1 [e|[]]];
    [discriminate|].
  destruct ((browser_newPage;;; page_setViewport)%eff w1) as [w2 [e|[]]].
  - destruct (browser_close w2) as [w3 [e'|[]]]; discriminate.
  - destruct (while_loop fuel (mkLoop [] [startUrl] []) w2)
      as [[w3 r]|] eqn:L; [|discriminate].
    destruct (browser_close w3) as [w4 [e'|[]]]; [discriminate|].
    intros [= <- ->].
    apply (local_loop_invariant well_kept well_kept_step _ _ _ _ _) in L;
      [exact L|].
    unfold Local.well_kept. cbn.
    repeat split; try constructor; try discriminate; intros ? [].
Qed.

(** A start URL that the filters leave out is dequeued and nothing else
    happens; one that is no URL ends the loop with the [TypeError]. *)
Lemma local_loop_start (fuel : nat) (startUrl : string) (w : W) :
  Num.lt_nat 0 maxPages = true ->
  match URL_pathname startUrl with
  | Some pathname =>
      in_scope pathname = false ->
      while_loop (S fuel) (mkLoop [] [startUrl] []) w
      = Some (w, inr (mkLoop [] [] []))
  | None =>
      while_loop (S fuel) (mkLoop [] [startUrl] []) w
      = Some (w, inl "Invalid URL")
  end.
Proof.
  intros Hmax.
  assert (C : loop_condition maxPages (mkLoop [] [startUrl] []) = true).
  { unfold Local.loop_condition. cbn [toVisit pages List.length].
    now rewrite Hmax. }
  destruct (URL_pathname startUrl) as [pathname|] eqn:Hp.
  - intros Hs. cbn [Local.while_loop]. rewrite C.
    unfold Local.iteration. cbn [visited toVisit pages JS.Set_has existsb].
    rewrite Hp, Hs. unfold ret.
    destruct fuel; reflexivity.
  - cbn [Local.while_loop]. rewrite C.
    unfold Local.iteration. cbn [visited toVisit pages JS.Set_has existsb].
    now rewrite Hp.
Qed.

End LocalFacts.

(** X17 (scrapeWebsiteLocally, test-local-scraper.ts).  The local crawl
    ends, unless [maxPages] is [Infinity].  Each page it returns was
    pushed while there were fewer than [maxPages] (5 when the option is
    absent), so that they are at most [maxPages] when that is a
    non-negative integer; they have distinct URLs, and the path of each
    of them starts with one of [pathPrefixes], when there are any, and
    contains none of [excludePaths]. *)
Theorem local_crawl_stays_in_scope :
  forall (url_path : Local.UrlPath) (W : Type) (browser : Local.Puppeteer W)
         (options : Local.LocalScrapeOptions W) (w : W),
    let maxPages := match Local.option_maxPages options with
                    | Some n => n | None => 5%float end in
    let pathPrefixes := match Local.option_pathPrefixes options with
                        | Some l => l | None => [] end in
    let excludePaths := match Local.option_excludePaths options with
                        | Some l => l | None => [] end in
    (maxPages <> infinity ->
     exists fuel, Local.scrapeWebsiteLocally fuel options w <> None)
    /\ (forall fuel w' scraped,
           Local.scrapeWebsiteLocally fuel options w
           = Some (w', inr scraped) ->
           (forall n, List.length scraped = S n ->
                      Num.lt_nat n maxPages = true)
           /\ (forall limit, Num.eq_nat limit maxPages = true ->
                             List.length scraped <= limit)
           /\ NoDup (map url scraped)
           /\ (forall page,
                  In page scraped ->
                  exists pathname,
                    Local.URL_pathname (url page) = Some pathname
                    /\ (pathPrefixes = []
                        \/ exists prefix,
                            In prefix pathPrefixes
                            /\ JS.startsWith pathname prefix = true)
                    /\ (forall exclude,
                           In exclude excludePaths ->
                           JS.includes pathname exclude = false))).
Proof.
  intros url_path W browser options w maxPages pathPrefixes excludePaths.
  unfold Local.scrapeWebsiteLocally.
  fold maxPages pathPrefixes excludePaths.
  set (delayMs := match Local.option_delayMs options with
                  | Some n => n | None => 0%float end).
  set (visible := match Local.option_visible options with
                  | Some b => b | None => false end).
  split.
  - intros Hfinite.
    destruct (crawl_terminates maxPages delayMs pathPrefixes excludePaths
                (Local.option_onProgress options) visible
                (Local.option_url options) w Hfinite) as (fuel & Hfuel).
    exists fuel.
    destruct (Local.crawl _ _ _ _ _ fuel _ _ w) as [[w' [e|st]]|];
      [discriminate | discriminate | contradiction].
  - intros fuel w' scraped.
    destruct (Local.crawl _ _ _ _ _ fuel _ _ w) as [[w1 [e|st]]|] eqn:H;
      [discriminate | | discriminate].
    intros [= <- <-].
    destruct (crawl_well_kept _ _ _ _ _ _ _ _ _ _ _ H)
      as (_ & Hn & _ & Hb & Hs).
    split; [exact Hb|]. split; [|split; [exact Hn|]].
    + intros limit Hl.
      destruct (eq_nat_counts limit maxPages Hl) as (Hroom & _).
      destruct (List.length (Local.pages st)) as [|n] eqn:L; [lia|].
      specialize (Hb n eq_refl). rewrite lt_nat_counts_below, Hroom in Hb.
      apply Nat.ltb_lt in Hb. lia.
    + intros page Hin. destruct (Hs page Hin) as (pathname & Hp & Hscope).
      exists pathname. split; [exact Hp|].
      now apply in_scope_spec.
Qed.

(** The statement above on the documentation site, with the prefix
    [/docs] and [private] left out: two pages come back. *)
Lemma local_crawl_stays_in_scope_witness :
  exists w' scraped,
    Local.scrapeWebsiteLocally (url_path := Worlds.paths)
      (browser := Worlds.local_browser Worlds.docs_site)
      20 Worlds.docs_options "about:blank"
    = Some (w', inr scraped)
    /\ map url scraped
       = ["https://example.com/docs/"; "https://example.com/docs/a"]
    /\ List.length scraped <= 10
    /\ NoDup (map url scraped).
Proof.
  do 2 eexists. split; [vm_compute; reflexivity|]. split; [reflexivity|].
  destruct (local_crawl_stays_in_scope Worlds.paths string
              (Worlds.local_browser Worlds.docs_site)
              Worlds.docs_options "about:blank") as (_ & Hkept).
  destruct (Hkept 20 "https://example.com/docs/a"
              [Task.pageData "https://example.com/docs/"
                 (Sample.task_page "Docs" "example.com"
                    ["https://example.com/docs/a";
                     "https://example.com/blog/b";
                     "https://example.com/docs/private/c"]);
               Task.pageData "https://example.com/docs/a"
                 (Sample.task_page "A" "example.com"
                    ["https://example.com/docs/"])])
    as (_ & Hlen & Hnodup & _); [vm_compute; reflexivity|].
  split; [exact (Hlen 10 eq_refl) | exact Hnodup].
Defined.

(** X18 (scrapeWebsiteLocally, test-local-scraper.ts).  The start URL goes
    through the path filters like any other: with a browser that starts
    and closes without throwing and a budget of at least one page, a
    start URL whose path the filters leave out gives an empty list of
    pages, and a start URL that [new URL] refuses makes the crawl throw
    its [TypeError], the constructor standing outside the [try] block of
    the page. *)
Theorem local_crawl_filters_the_start_url :
  forall (url_path : Local.UrlPath) (W : Type) (browser : Local.Puppeteer W)
         (options : Local.LocalScrapeOptions W) (w : W) (fuel : nat),
    (forall headless w0, snd (Local.puppeteer_launch headless w0) = inr tt) ->
    (forall w0, snd (Local.browser_newPage w0) = inr tt) ->
    (forall w0, snd (Local.page_setViewport w0) = inr tt) ->
    (forall w0, snd (Local.browser_close w0) = inr tt) ->
    Num.lt_nat 0 match Local.option_maxPages options with
                 | Some n => n | None => 5%float end = true ->
    match Local.URL_pathname (Local.option_url options) with
    | Some pathname =>
        Local.in_scope
          match Local.option_pathPrefixes options with
          | Some l => l | None => [] end
          match Local.option_excludePaths options with
          | Some l => l | None => [] end
          pathname
        = false ->
        exists w',
          Local.scrapeWebsiteLocally (S fuel) options w = Some (w', inr [])
    | None =>
        exists w',
          Local.scrapeWebsiteLocally (S fuel) options w
          = Some (w', inl "Invalid URL")
    end.
Proof.
  intros url_path W browser options w fuel Hlaunch Hnew Hview Hclose Hmax.
  set (maxPages := match Local.option_maxPages options with
                   | Some n => n | None => 5%float end) in *.
  set (pathPrefixes := match Local.option_pathPrefixes options with
                       | Some l => l | None => [] end).
  set (excludePaths := match Local.option_excludePaths options with
                       | Some l => l | None => [] end).
  set (delayMs := match Local.option_delayMs options with
                  | Some n => n | None => 0%float end).
  set (visible := match Local.option_visible options with
                  | Some b => b | None => false end).
  assert (Hcrawl : forall r,
             (forall w2,
                 Local.while_loop maxPages delayMs pathPrefixes excludePaths
                   (Local.option_onProgress options) (S fuel)
                   (Local.mkLoop [] [Local.option_url options] []) w2
                 = Some (w2, r)) ->
             exists w',
               Local.crawl maxPages delayMs pathPrefixes excludePaths
                 (Local.option_onProgress options) (S fuel) visible
                 (Local.option_url options) w
               = Some (w', r)).
  { intros r Hloop. unfold Local.crawl, bind.
    pose proof (Hlaunch (negb visible) w) as H1.
    destruct (Local.puppeteer_launch (negb visible) w) as [w1 [e|[]]];
      [discriminate|].
    pose proof (Hnew w1) as H2.
    destruct (Local.browser_newPage w1) as [w2 [e|[]]]; [discriminate|].
    pose proof (Hview w2) as H3.
    destruct (Local.page_setViewport w2) as [w3 [e|[]]]; [discriminate|].
    rewrite Hloop.
    pose proof (Hclose w3) as H4.
    destruct (Local.browser_close w3) as [w4 [e|[]]]; [discriminate|].
    eauto. }
  pose proof (fun w2 =>
                local_loop_start maxPages delayMs pathPrefixes excludePaths
                  (Local.option_onProgress options) fuel
                  (Local.option_url options) w2 Hmax) as Hstart.
  unfold Local.scrapeWebsiteLocally.
  fold maxPages pathPrefixes excludePaths delayMs visible.
  destruct (Local.URL_pathname (Local.option_url options)) as [pathname|].
  - intros Hscope.
    destruct (Hcrawl (inr (Local.mkLoop [] [] [])))
      as (w' & ->); [intros w2; now apply Hstart|].
    exists w'. reflexivity.
  - destruct (Hcrawl (inl "Invalid URL")) as (w' & ->);
      [intros w2; apply Hstart|].
    exists w'. reflexivity.
Qed.

(** The statement above on the documentation site, started from the
    blog. *)
Lemma local_crawl_filters_the_start_url_witness :
  exists w',
    Local.scrapeWebsiteLocally (url_path := Worlds.paths)
      (browser := Worlds.local_browser Worlds.docs_site)
      1 Worlds.blog_options "about:blank"
    = Some (w', inr []).
Proof.
  apply (local_crawl_filters_the_start_url Worlds.paths string
           (Worlds.local_browser Worlds.docs_site) Worlds.blog_options
           "about:blank" 0);
    reflexivity.
Defined.

(* ================================================================== *)
(** * The name of the sample file *)
(* ================================================================== *)

Section SiteNameFacts.

Lemma includes_char (s : string) (c : ascii) :
  JS.includes s (String c EmptyString) = false <->
  (forall a, In a (list_ascii_of_string s) -> a <> c).
Proof.
  induction s as [|b s IH]; cbn.
  - split; [intros _ a [] | reflexivity].
  - rewrite startsWith_nil, andb_true_r, orb_false_iff, IH.
    rewrite Ascii.eqb_neq. split.
    + intros [Hb Hs] a [<-|Ha]; auto.
    + intros H. split; [apply H; now left | intros a Ha; apply H; now right].
Qed.

Lemma not_slash_chars (s : string) (a : ascii) :
  In a (list_ascii_of_string (Pipeline.not_slash s)) ->
  a <> "/"%char /\ In a (list_ascii_of_string s).
Proof.
  induction s as [|b s IH]; cbn; [intros []|].
  destruct (Ascii.eqb b "/") eqn:E; cbn; [intros []|].
  apply Ascii.eqb_neq in E.
  intros [<-|Ha]; [auto|]. destruct (IH Ha). auto.
Qed.

Lemma remove_dots_chars (s : string) (a : ascii) :
  In a (list_ascii_of_string (Pipeline.remove_dots s)) ->
  a <> "."%char /\ In a (list_ascii_of_string s).
Proof.
  induction s as [|b s IH]; cbn; [intros []|].
  destruct (Ascii.eqb b ".") eqn:E; cbn.
  - intros Ha. destruct (IH Ha). auto.
  - apply Ascii.eqb_neq in E.
    intros [<-|Ha]; [auto|]. destruct (IH Ha). auto.
Qed.

Lemma siteNameMatch_chars (testUrl group : string) (a : ascii) :
  Pipeline.siteNameMatch testUrl = Some group ->
  In a (list_ascii_of_string group) -> a <> "/"%char.
Proof.
  induction testUrl as [|c testUrl IH].
  - cbn. discriminate.
  - cbn [Pipeline.siteNameMatch].
    destruct (Pipeline.match_here (String c testUrl)) as [g|] eqn:M.
    + intros [= <-] Ha. unfold Pipeline.match_here in M.
      destruct (JS.startsWith (String c testUrl) "//"); [|discriminate].
      destruct (JS.startsWith _ "www." && _).
      * injection M as <-. now apply not_slash_chars in Ha.
      * destruct (Pipeline.nonempty _); [|discriminate].
        injection M as <-. now apply not_slash_chars in Ha.
    + exact IH.
Qed.

Lemma match_here_needs_slashes (s : string) :
  JS.startsWith s "//" = false -> Pipeline.match_here s = None.
Proof. unfold Pipeline.match_here. now intros ->. Qed.

Lemma siteNameMatch_needs_slashes (testUrl : string) :
  JS.includes testUrl "//" = false -> Pipeline.siteNameMatch testUrl = None.
Proof.
  induction testUrl as [|c testUrl IH]; [reflexivity|].
  intros H. pose proof (includes_head _ _ H) as Hhead.
  apply includes_tail in H.
  cbn [Pipeline.siteNameMatch].
  rewrite (match_here_needs_slashes _ Hhead). auto.
Qed.

End SiteNameFacts.

(** X19 (testLocalPipeline, test-local-pipeline.ts; testFullPipeline,
    test-full-pipeline.ts).  The site name put into the name of the sample
    file never contains a dot or a slash, whatever the URL given on the
    command line; and it is [custom] for a URL without [//]. *)
Theorem siteName_is_a_plain_name :
  forall (testUrl : string),
    JS.includes (Pipeline.siteName testUrl) "." = false
    /\ JS.includes (Pipeline.siteName testUrl) "/" = false
    /\ (JS.includes testUrl "//" = false ->
        Pipeline.siteName testUrl = "custom").
Proof.
  intros testUrl. unfold Pipeline.siteName.
  destruct (Pipeline.siteNameMatch testUrl) as [group|] eqn:M.
  - split; [|split].
    + apply includes_char. intros a Ha. now apply remove_dots_chars in Ha.
    + apply includes_char. intros a Ha.
      apply remove_dots_chars in Ha as [_ Ha].
      exact (siteNameMatch_chars testUrl group a M Ha).
    + intros H. rewrite (siteNameMatch_needs_slashes _ H) in M.
      discriminate.
  - repeat split.
Qed.
